(** * Evaluation-metrics engine: a shallow embedding of
    [evaluation_metrics.py] and of the summary code of
    [update_metrics_summary.py].

    Conventions of the embedding.
    - A Python [str] is a list of characters ([str := list ascii]); the
      character tests ([lower], [\s], [\w], [\d], [\b], [re.IGNORECASE])
      are the ASCII ones, characters above 127 being caseless symbols.
    - A Python [float] score is an exact rational ([Q]): sums, products
      and quotients are the real-valued ones, and [len], counts and
      [readability] are integers ([Z]).
    - The patterns handed to [re.search] and [re.findall] are kept as the
      source writes them and compiled by [Re.compile], a parser for the
      fragment of Python's [re] syntax that the program uses; matching is a
      backtracking matcher with Python's priorities (leftmost, alternatives
      left to right, greedy repetition).
    - Reads of the outside world ([ast.parse], the clock, the dataset file)
      go through an explicit environment record. *)

From Stdlib Require Import String Ascii List Bool Arith Lia ZArith QArith Lqa.
From Stdlib Require Import DecimalString DecimalNat.
Import ListNotations.

Set Implicit Arguments.

(** ** Python strings *)

Definition str := list ascii.

Coercion list_ascii_of_string : string >-> list.

(** The character [chr(34)], which a pattern of the source may contain. *)
Definition dquote : ascii := Ascii false true false false false true false false.
Definition dq : string := String dquote EmptyString.

(** A string literal as a Python string. *)
Definition py (s : string) : str := list_ascii_of_string s.

Module PyStr.

Definition code (c : ascii) : nat := nat_of_ascii c.

Definition is_upper (c : ascii) : bool := (65 <=? code c) && (code c <=? 90).
Definition is_lower (c : ascii) : bool := (97 <=? code c) && (code c <=? 122).
Definition is_digit (c : ascii) : bool := (48 <=? code c) && (code c <=? 57).

(** [str.isspace] on the ASCII range: TAB..CR, FS..US and the blank. *)
Definition is_space (c : ascii) : bool :=
  ((9 <=? code c) && (code c <=? 13)) || ((28 <=? code c) && (code c <=? 32)).

(** The class [\w]. *)
Definition is_word (c : ascii) : bool :=
  is_upper c || is_lower c || is_digit c || (code c =? 95).

Definition to_lower (c : ascii) : ascii :=
  if is_upper c then ascii_of_nat (code c + 32) else c.

(** [s.lower()] *)
Definition lower (s : str) : str := map to_lower s.

Fixpoint starts_with (p s : str) : bool :=
  match p, s with
  | [], _ => true
  | _ :: _, [] => false
  | a :: p', b :: s' => Ascii.eqb a b && starts_with p' s'
  end.

(** [p in s] *)
Fixpoint contains (p s : str) : bool :=
  starts_with p s ||
  match s with
  | [] => false
  | _ :: s' => contains p s'
  end.

(** [s.split(sep)] for a one-character separator. *)
Fixpoint split (sep : ascii) (s : str) : list str :=
  match s with
  | [] => [[]]
  | c :: s' =>
      if Ascii.eqb c sep then [] :: split sep s'
      else match split sep s' with
           | [] => [[c]]
           | w :: ws => (c :: w) :: ws
           end
  end.

Fixpoint lstrip_by (drop : ascii -> bool) (s : str) : str :=
  match s with
  | [] => []
  | c :: s' => if drop c then lstrip_by drop s' else s
  end.

Definition strip_by (drop : ascii -> bool) (s : str) : str :=
  rev (lstrip_by drop (rev (lstrip_by drop s))).

(** [s.strip()] *)
Definition strip (s : str) : str := strip_by is_space s.

(** [s.strip(chars)] *)
Definition strip_chars (chars : str) (s : str) : str :=
  strip_by (fun c => existsb (Ascii.eqb c) chars) s.

(** [s.replace(a, b)] for one-character [a] and [b]. *)
Definition replace_char (a b : ascii) (s : str) : str :=
  map (fun c => if Ascii.eqb c a then b else c) s.

Definition eqb (s t : str) : bool :=
  (length s =? length t) && starts_with s t.

End PyStr.

(** ** The fragment of Python's [re] that the program uses *)

Module Re.

Inductive cclass : Type :=
| CLit (c : ascii)                      (* a literal character *)
| CDot                                  (* [.]: anything but a newline *)
| CSpace                                (* [\s] *)
| CWord                                 (* [\w] *)
| CDigit                                (* [\d] *)
| CSet (neg : bool) (cs : list ascii).  (* [[...]] and [[^...]] *)

Inductive regex : Type :=
| Eps
| Chr (c : cclass)
| Seq (r1 r2 : regex)
| Alt (r1 r2 : regex)
| Star (r : regex)
| Plus (r : regex)
| Opt (r : regex)
| Bow                                   (* [\b] *)
| Bol                                   (* [^] under [re.MULTILINE] *)
| Grp (r : regex).                      (* a capturing group *)

Definition newline : ascii := ascii_of_nat 10.

Definition same_char (ic : bool) (a b : ascii) : bool :=
  if ic then Ascii.eqb (PyStr.to_lower a) (PyStr.to_lower b) else Ascii.eqb a b.

Definition class_match (ic : bool) (c : cclass) (x : ascii) : bool :=
  match c with
  | CLit a => same_char ic a x
  | CDot => negb (Ascii.eqb x newline)
  | CSpace => PyStr.is_space x
  | CWord => PyStr.is_word x
  | CDigit => PyStr.is_digit x
  | CSet neg cs => xorb neg (existsb (fun a => same_char ic a x) cs)
  end.

(** A position of the matcher: the character before it, the text still to
    read, and the text of the capturing group once it has closed. *)
Record mstate : Type := MState {
  prev : option ascii;
  rest : str;
  cap : option str
}.

Definition word_before (st : mstate) : bool :=
  match prev st with Some c => PyStr.is_word c | None => false end.

Definition word_after (st : mstate) : bool :=
  match rest st with c :: _ => PyStr.is_word c | [] => false end.

Definition at_boundary (st : mstate) : bool :=
  xorb (word_before st) (word_after st).

Definition at_line_start (st : mstate) : bool :=
  match prev st with Some c => Ascii.eqb c newline | None => true end.

Section Matcher.

Variable ic : bool.   (* re.IGNORECASE *)
Variable A : Type.

(** Greedy repetition of [step]: one more round first, the continuation
    when no further round leads to a match. A round that reads nothing is
    not repeated. *)
Fixpoint iter (fuel : nat)
    (step : mstate -> (mstate -> option A) -> option A)
    (st : mstate) (k : mstate -> option A) : option A :=
  match fuel with
  | O => k st
  | S f =>
      match step st (fun st' =>
              if length (rest st') <? length (rest st)
              then iter f step st' k else None) with
      | Some a => Some a
      | None => k st
      end
  end.

Fixpoint run (r : regex) (st : mstate) (k : mstate -> option A) : option A :=
  match r with
  | Eps => k st
  | Chr c =>
      match rest st with
      | x :: s' =>
          if class_match ic c x
          then k (MState (Some x) s' (cap st))
          else None
      | [] => None
      end
  | Seq r1 r2 => run r1 st (fun st' => run r2 st' k)
  | Alt r1 r2 =>
      match run r1 st k with
      | Some a => Some a
      | None => run r2 st k
      end
  | Star r1 => iter (length (rest st)) (run r1) st k
  | Plus r1 => run r1 st (fun st' => iter (length (rest st')) (run r1) st' k)
  | Opt r1 =>
      match run r1 st k with
      | Some a => Some a
      | None => k st
      end
  | Bow => if at_boundary st then k st else None
  | Bol => if at_line_start st then k st else None
  | Grp r1 =>
      run r1 st (fun st' =>
        k (MState (prev st') (rest st')
             (Some (firstn (length (rest st) - length (rest st')) (rest st)))))
  end.

End Matcher.

(** A match starting exactly at [st]: the position after it. *)
Definition match_at (ic : bool) (r : regex) (st : mstate) : option mstate :=
  run ic r st (fun st' => Some st').

(** One match: the matched text and the text of group 1. *)
Record found : Type := Found { whole : str; group1 : str }.

Definition found_of (st st' : mstate) : found :=
  Found (firstn (length (rest st) - length (rest st')) (rest st))
        (match cap st' with Some g => g | None => [] end).

(** [re.search]: the leftmost match. *)
Fixpoint search_from (ic : bool) (r : regex) (p : option ascii) (s : str)
    : option found :=
  match match_at ic r (MState p s None) with
  | Some st' => Some (found_of (MState p s None) st')
  | None =>
      match s with
      | [] => None
      | c :: s' => search_from ic r (Some c) s'
      end
  end.

(** [re.findall]: the matches from left to right, none overlapping. *)
Fixpoint scan (fuel : nat) (ic : bool) (r : regex) (p : option ascii) (s : str)
    : list found :=
  match fuel with
  | O => []
  | S f =>
      match match_at ic r (MState p s None) with
      | Some st' =>
          found_of (MState p s None) st' ::
          (if length (rest st') <? length s
           then scan f ic r (prev st') (rest st')
           else match s with
                | [] => []
                | c :: s' => scan f ic r (Some c) s'
                end)
      | None =>
          match s with
          | [] => []
          | c :: s' => scan f ic r (Some c) s'
          end
      end
  end.

(** *** The pattern syntax *)

Definition seq (r1 r2 : regex) : regex :=
  match r2 with Eps => r1 | _ => Seq r1 r2 end.

Definition escape (c : ascii) : regex :=
  if Ascii.eqb c "s" then Chr CSpace
  else if Ascii.eqb c "w" then Chr CWord
  else if Ascii.eqb c "d" then Chr CDigit
  else if Ascii.eqb c "b" then Bow
  else Chr (CLit c).

(** The items of a set up to its closing bracket. *)
Fixpoint parse_set (p : str) (acc : list ascii) : option (list ascii * str) :=
  match p with
  | [] => None
  | c :: p' =>
      if Ascii.eqb c "]" then Some (rev acc, p')
      else if Ascii.eqb c "\" then
        match p' with
        | e :: p'' => parse_set p'' (e :: acc)
        | [] => None
        end
      else parse_set p' (c :: acc)
  end.

Definition quantify (a : regex) (p : str) : regex * str :=
  match p with
  | c :: p' =>
      if Ascii.eqb c "*" then (Star a, p')
      else if Ascii.eqb c "+" then (Plus a, p')
      else if Ascii.eqb c "?" then (Opt a, p')
      else (a, p)
  | [] => (a, p)
  end.

Fixpoint parse_alt (fuel : nat) (p : str) {struct fuel} : option (regex * str) :=
  match fuel with
  | O => None
  | S f =>
      match parse_seq f p with
      | Some (r1, c :: p') =>
          if Ascii.eqb c "|" then
            match parse_alt f p' with
            | Some (r2, p'') => Some (Alt r1 r2, p'')
            | None => None
            end
          else Some (r1, c :: p')
      | other => other
      end
  end
with parse_seq (fuel : nat) (p : str) {struct fuel} : option (regex * str) :=
  match fuel with
  | O => None
  | S f =>
      match p with
      | [] => Some (Eps, [])
      | c :: _ =>
          if Ascii.eqb c ")" || Ascii.eqb c "|" then Some (Eps, p)
          else
            match parse_atom f p with
            | Some (a, p1) =>
                let (q, p2) := quantify a p1 in
                match parse_seq f p2 with
                | Some (r, p3) => Some (seq q r, p3)
                | None => None
                end
            | None => None
            end
      end
  end
with parse_atom (fuel : nat) (p : str) {struct fuel} : option (regex * str) :=
  match fuel with
  | O => None
  | S f =>
      match p with
      | [] => None
      | c :: p' =>
          if Ascii.eqb c "(" then
            match p' with
            | "?"%char :: ":"%char :: p'' =>
                match parse_alt f p'' with
                | Some (r, d :: p3) =>
                    if Ascii.eqb d ")" then Some (r, p3) else None
                | _ => None
                end
            | _ =>
                match parse_alt f p' with
                | Some (r, d :: p3) =>
                    if Ascii.eqb d ")" then Some (Grp r, p3) else None
                | _ => None
                end
            end
          else if Ascii.eqb c "[" then
            match p' with
            | "^"%char :: p'' =>
                match parse_set p'' [] with
                | Some (cs, p3) => Some (Chr (CSet true cs), p3)
                | None => None
                end
            | _ =>
                match parse_set p' [] with
                | Some (cs, p3) => Some (Chr (CSet false cs), p3)
                | None => None
                end
            end
          else if Ascii.eqb c "\" then
            match p' with
            | e :: p'' => Some (escape e, p'')
            | [] => None
            end
          else if Ascii.eqb c "." then Some (Chr CDot, p')
          else if Ascii.eqb c "^" then Some (Bol, p')
          else Some (Chr (CLit c), p')
      end
  end.

Definition compile (p : str) : option regex :=
  match parse_alt (2 * length p + 2) p with
  | Some (r, []) => Some r
  | _ => None
  end.

(** A pattern that is not in the fragment matches nothing; every pattern
    of the program is in the fragment ([patterns_compile] below). *)
Definition re (p : str) : regex :=
  match compile p with
  | Some r => r
  | None => Chr (CSet false [])
  end.

(** [re.search(p, s)], with [re.IGNORECASE] when [ic] is set. *)
Definition search (ic : bool) (p : str) (s : str) : option found :=
  search_from ic (re p) None s.

Definition matches (ic : bool) (p : str) (s : str) : bool :=
  match search ic p s with Some _ => true | None => false end.

(** [re.findall(p, s)]: the texts matched, and the texts of group 1. *)
Definition finditer (ic : bool) (p : str) (s : str) : list found :=
  scan (S (length s)) ic (re p) None s.

Definition findall (ic : bool) (p : str) (s : str) : list str :=
  map whole (finditer ic p s).

Definition findall_group (ic : bool) (p : str) (s : str) : list str :=
  map group1 (finditer ic p s).

End Re.

Arguments Re.search : simpl never.
Arguments Re.matches : simpl never.
Arguments Re.finditer : simpl never.
Arguments Re.findall : simpl never.
Arguments Re.findall_group : simpl never.

(** ** Numbers *)

Open Scope string_scope.
Open Scope list_scope.
Open Scope Q_scope.

(** An integer count used in float arithmetic. *)
Definition qn (n : nat) : Q := inject_Z (Z.of_nat n).

Definition Qltb (a b : Q) : bool := negb (Qle_bool b a).

Definition Qmax (a b : Q) : Q := if Qle_bool a b then b else a.
Definition Qmin (a b : Q) : Q := if Qle_bool a b then a else b.

Fixpoint Qsum (l : list Q) : Q :=
  match l with
  | [] => 0
  | x :: l' => x + Qsum l'
  end.

(** [sum(1 for x in l if test(x))] *)
Definition count_if {X : Type} (test : X -> bool) (l : list X) : nat :=
  length (filter test l).

(** [any(test(x) for x in l)] *)
Definition any {X : Type} (test : X -> bool) (l : list X) : bool :=
  existsb test l.

(** ** The outside world

    [ast.parse] either returns, raises [SyntaxError] or raises another
    [Exception]; the clock gives the timestamp; the dataset file gives its
    header ([pd.read_csv(csv_file, nrows=0)]) and its size
    ([os.path.getsize]), each of them possibly failing. *)

Inductive parse_outcome : Type :=
| ParseOk
| RaisesSyntaxError (lineno : option Z) (message : str) (text : option str)
| RaisesException (message : str).

Record env : Type := Env {
  ast_parse : str -> parse_outcome;
  now_isoformat : str;
  read_csv_columns : str -> option (list str);
  getsize : str -> option Q
}.

(** ** Static code inspector *)

Inductive syntax_error : Type :=
| SyntaxErrorEntry (line : option Z) (message : str) (text : option str)
| MessageEntry (message : str).

Record syntax_check : Type := SyntaxCheck {
  syntax_valid : bool;
  syntax_errors : list syntax_error
}.

Definition check_syntax_correctness (e : env) (code : str) : syntax_check :=
  match ast_parse e code with
  | ParseOk => SyntaxCheck true []
  | RaisesSyntaxError l m t => SyntaxCheck false [SyntaxErrorEntry l m t]
  | RaisesException m => SyntaxCheck false [MessageEntry m]
  end.

Record quality_metrics : Type := QualityMetrics {
  has_imports : bool;
  has_comments : bool;
  line_count : nat;
  complexity_score : nat;
  readability_score : Z
}.

Definition complexity_keywords : list string :=
  ["if"; "elif"; "else"; "for"; "while"; "try"; "except"; "with"]%string.

(** The pattern [rf'\b{keyword}\b']. *)
Definition keyword_pattern (keyword : string) : string :=
  ("\b" ++ keyword ++ "\b")%string.

Definition nonblank (l : str) : bool :=
  match PyStr.strip l with [] => false | _ => true end.

Definition check_code_quality (code : str) : quality_metrics :=
  let lines := PyStr.split Re.newline code in
  let line_count := count_if nonblank lines in
  let has_imports := Re.matches false "^import\s+|^from\s+.*\s+import" code in
  let has_comments := Re.matches false "#.*" code in
  let complexity_count :=
    count_if (fun keyword : string =>
                Re.matches false (keyword_pattern keyword) code)
             complexity_keywords in
  let long_lines := count_if (fun line => (100 <? length line)%nat) lines in
  let readability := 10%Z in
  let readability :=
    if Qltb (qn (length lines) * 0.2) (qn long_lines)
    then (readability - 2)%Z else readability in
  let readability :=
    if negb has_comments && (10 <? line_count)%nat
    then (readability - 1)%Z else readability in
  let readability :=
    if (5 <? complexity_count)%nat
    then (readability - 1)%Z else readability in
  QualityMetrics has_imports has_comments line_count complexity_count
                 (Z.max 0 readability).

Record safety_issue : Type := SafetyIssue {
  category : string;
  pattern : string;
  severity : string
}.

Record safety_metrics : Type := SafetyMetrics {
  is_safe : bool;
  safety_issues : list safety_issue;
  safety_score : Q
}.

Definition dangerous_patterns : list (string * list string) :=
  [ ("file_write", ["\.to_csv\("; "\.to_excel\("; "open\(.*[\'" ++ dq ++ "]w"; "\.write\("]);
    ("file_read", ["open\(.*[\'" ++ dq ++ "]r"; "pd\.read_"]);
    ("network", ["requests\."; "urllib\."; "http\."]);
    ("system", ["os\.system"; "subprocess\."; "exec\("; "eval\("]);
    ("dangerous_imports", ["import\s+os"; "import\s+subprocess"; "import\s+sys"])
  ]%string.

Definition severity_of (category : string) : string :=
  if existsb (String.eqb category) ["system"; "network"]%string
  then "high"%string else "medium"%string.

Definition find_safety_issues (code : str) : list safety_issue :=
  flat_map (fun entry : string * list string =>
    let '(category, patterns) := entry in
    flat_map (fun pattern : string =>
      if Re.matches true pattern code
      then [SafetyIssue category pattern (severity_of category)]
      else []) patterns) dangerous_patterns.

Definition check_code_safety (code : str) : safety_metrics :=
  let safety_issues := find_safety_issues code in
  SafetyMetrics
    (length safety_issues =? 0)%nat
    safety_issues
    (if (length safety_issues =? 0)%nat then 1.0
     else Qmax 0 (1.0 - qn (length safety_issues) * 0.2)).

(** ** Complexity estimator *)

Inductive complexity : Type :=
| O_1        (* "O(1)" *)
| O_log_n    (* "O(log n)" *)
| O_n        (* "O(n)" *)
| O_n_log_n  (* "O(n log n)" *)
| O_n2       (* "O(n^2)" *)
| O_n3.      (* "O(n^3)" *)

Definition complexity_eqb (a b : complexity) : bool :=
  match a, b with
  | O_1, O_1 | O_log_n, O_log_n | O_n, O_n
  | O_n_log_n, O_n_log_n | O_n2, O_n2 | O_n3, O_n3 => true
  | _, _ => false
  end.

(** [order.index(c)]; the length of [order] stands for the [ValueError] of
    a notation that is not on the ladder, which no caller passes. *)
Fixpoint index (order : list complexity) (c : complexity) : nat :=
  match order with
  | [] => O
  | x :: order' => if complexity_eqb x c then O else S (index order' c)
  end.

(** One step of the scan: a pattern found in the code raises the running
    maximum to its class when that class ranks higher. *)
Definition raise (order : list complexity) (code : str) (c : complexity)
    (max_complexity : complexity) (pattern : string) : complexity :=
  if Re.matches true pattern code
  then if (index order max_complexity <? index order c)%nat
       then c else max_complexity
  else max_complexity.

Definition scan_entry (order : list complexity) (code : str)
    (max_complexity : complexity) (entry : complexity * list string)
    : complexity :=
  let '(c, patterns) := entry in
  fold_left (raise order code c) patterns max_complexity.

(** One pass over a table of patterns: the highest-ranked class with a
    pattern found in the code. *)
Definition scan_ops (order : list complexity)
    (table : list (complexity * list string)) (code : str) : complexity :=
  fold_left (scan_entry order code) table O_1.

Record time_complexity : Type := TimeComplexity {
  t_notation : complexity;
  t_score : Q;
  nested_loops : nat;
  estimated_operations : nat
}.

Definition loop_patterns : list (string * nat) :=
  [ ("\bfor\s+\w+\s+in\s+", 1%nat);
    ("\bwhile\s+", 1%nat);
    ("\.apply\(", 1%nat);
    ("\.iterrows\(", 1%nat);
    ("\.itertuples\(", 1%nat) ]%string.

Definition count_loops (code : str) : nat :=
  fold_left (fun nested_loops (entry : string * nat) =>
    let '(pattern, weight) := entry in
    (nested_loops + length (Re.findall true pattern code) * weight)%nat)
    loop_patterns O.

Definition pandas_ops : list (complexity * list string) :=
  [ (O_1, ["\.head\("; "\.tail\("; "\.iloc\["; "\.loc\["; "\.shape"; "\.dtypes"]);
    (O_n, ["\.mean\("; "\.sum\("; "\.count\("; "\.unique\("; "\.value_counts\(";
           "\.groupby\("; "\.sort_values\("; "\.dropna\("; "\.fillna\("]);
    (O_n_log_n, ["\.sort_values\("; "\.sort_index\("]);
    (O_n2, ["\.merge\("; "\.join\("; "\.concat\(.*axis=1"])
  ]%string.

Definition time_complexity_order : list complexity :=
  [O_1; O_n; O_n_log_n; O_n2; O_n3].

(** The base class: the highest-ranked data operation found. *)
Definition base_time_complexity (code : str) : complexity :=
  scan_ops time_complexity_order pandas_ops code.

(** The adjustment "based on nested loops". *)
Definition adjust_for_loops (nested_loops : nat) (max_complexity : complexity)
    : complexity :=
  if (0 <? nested_loops)%nat then
    if (nested_loops =? 1)%nat then
      match max_complexity with
      | O_1 => O_n
      | O_n => O_n2
      | _ => max_complexity
      end
    else if (2 <=? nested_loops)%nat then
      match max_complexity with
      | O_1 => O_n2
      | O_n => O_n2
      | _ => O_n3
      end
    else max_complexity
  else max_complexity.

Definition complexity_scores (c : complexity) : Q :=
  match c with
  | O_1 => 1.0
  | O_log_n => 0.9
  | O_n => 0.7
  | O_n_log_n => 0.5
  | O_n2 => 0.3
  | O_n3 => 0.1
  end.

Definition analyze_time_complexity (code : str) : time_complexity :=
  let nested_loops := count_loops code in
  let max_complexity := base_time_complexity code in
  let complexity_notation := adjust_for_loops nested_loops max_complexity in
  TimeComplexity complexity_notation (complexity_scores complexity_notation)
                 nested_loops (nested_loops + 1)%nat.

Record space_complexity : Type := SpaceComplexity {
  s_notation : complexity;
  s_score : Q;
  estimated_memory_mb : Q
}.

Definition space_indicators : list (complexity * list string) :=
  [ (O_1, ["\.head\("; "\.tail\("; "\.iloc\["; "\.loc\["; "\.shape"; "\.dtypes"]);
    (O_n, ["\.copy\("; "\.drop\("; "\.dropna\("; "\.fillna\("; "\.assign\(";
           "result\s*="; "df_new\s*="; "df_filtered\s*="]);
    (O_n2, ["\.merge\("; "\.join\("; "\.concat\("; "\.pivot\("; "\.pivot_table\("])
  ]%string.

Definition space_complexity_order : list complexity := [O_1; O_n; O_n2].

Definition multipliers (c : complexity) : Q :=
  match c with
  | O_1 => 1.0
  | O_n => 2.0
  | O_n2 => 4.0
  | _ => 2.0
  end.

Definition space_scores (c : complexity) : Q :=
  match c with
  | O_1 => 1.0
  | O_n => 0.6
  | O_n2 => 0.2
  | _ => 0.5
  end.

(** [if csv_file:] holds for a name that is given and not empty. *)
Definition truthy (csv_file : option str) : option str :=
  match csv_file with
  | Some (c :: f) => Some (c :: f)
  | _ => None
  end.

Definition analyze_space_complexity (e : env) (code : str)
    (csv_file : option str) : space_complexity :=
  let space_complexity := scan_ops space_complexity_order space_indicators code in
  let estimated_memory_mb :=
    match truthy csv_file with
    | Some f =>
        match getsize e f with
        | Some bytes => bytes / (1024 * 1024) * multipliers space_complexity
        | None => 0
        end
    | None => 0
    end in
  SpaceComplexity space_complexity (space_scores space_complexity)
                  estimated_memory_mb.

(** ** Intent analyzer *)

Record understanding_details : Type := UnderstandingDetails {
  column_extraction_score : Q;
  nl_parsing_score : Q;
  statistical_understanding_score : Q;
  extracted_columns : list str;
  mentioned_columns : list str;
  statistical_operations : list string
}.

Record prompt_understanding : Type := PromptUnderstanding {
  understanding_score : Q;
  u_details : understanding_details
}.

Definition pandas_methods : list string :=
  ["head"; "tail"; "mean"; "sum"; "max"; "min"; "count"; "size";
   "shape"; "dtypes"; "columns"; "index"; "values"; "copy"; "drop";
   "fillna"; "dropna"; "groupby"; "sort_values"; "sort_index";
   "nlargest"; "nsmallest"; "query"; "loc"; "iloc"; "apply"; "agg";
   "merge"; "join"; "concat"; "pivot"; "pivot_table"; "describe";
   "info"; "isnull"; "notnull"; "unique"; "value_counts"; "sample"].

(** [x in xs] on strings. *)
Definition mem (x : str) (xs : list str) : bool := existsb (PyStr.eqb x) xs.

Definition is_pandas_method (x : str) : bool :=
  existsb (fun m : string => PyStr.eqb x m) pandas_methods.

(** [s.add(x)]; the elements are kept in the order of their first
    insertion (the order of a Python set is not specified). *)
Definition set_add (x : str) (s : list str) : list str :=
  if mem x s then s else s ++ [x].

Definition column_patterns : list string :=
  [ "df\[['\" ++ dq ++ "]([^'\" ++ dq ++ "]+)['\" ++ dq ++ "]\]";
    "df\[\[['\" ++ dq ++ "]([^'\" ++ dq ++ "]+)['\" ++ dq ++ "]" ]%string.

Definition list_pattern : string := "df\[\[([^\]]+)\]\]".

Definition quoted_pattern : string :=
  ("['\" ++ dq ++ "]([^'\" ++ dq ++ "]+)['\" ++ dq ++ "]")%string.

(** Adds the lower-cased names that are not data-frame methods. *)
Definition add_columns (names : list str) (extracted : list str) : list str :=
  fold_left (fun extracted name =>
    if negb (is_pandas_method (PyStr.lower name))
    then set_add (PyStr.lower name) extracted else extracted) names extracted.

Definition extract_columns (generated_code : str) : list str :=
  let extracted :=
    fold_left (fun extracted (pattern : string) =>
      add_columns (Re.findall_group true pattern generated_code) extracted)
      column_patterns [] in
  fold_left (fun extracted m =>
    add_columns (Re.findall_group false quoted_pattern m) extracted)
    (Re.findall_group true list_pattern generated_code) extracted.

Definition load_columns (e : env) (csv_file : option str) : list str :=
  match truthy csv_file with
  | Some f =>
      match read_csv_columns e f with
      | Some columns => map PyStr.lower columns
      | None => []
      end
  | None => []
  end.

Definition mentioned_in (question_lower : str) (available_columns : list str)
    : list str :=
  filter (fun col =>
    PyStr.contains col question_lower ||
    PyStr.contains (PyStr.replace_char "_" " " col) question_lower)
    available_columns.

Definition score_column_extraction (mentioned_in_question extracted : list str)
    : Q :=
  match mentioned_in_question with
  | _ :: _ =>
      match extracted with
      | _ :: _ =>
          let matched := count_if (fun col => mem col extracted)
                                  mentioned_in_question in
          (qn matched / qn (length mentioned_in_question)) * 0.4
      | [] => 0.0
      end
  | [] =>
      match extracted with
      | _ :: _ => 0.2
      | [] => 0.1
      end
  end.

Record pattern_info : Type := PatternInfo {
  p_name : string;
  question_patterns : list string;
  code_patterns : list string;
  weight : Q
}.

Definition nl_patterns : list pattern_info :=
  [ PatternInfo "top_n"
      ["top\s+(\d+)"; "largest\s+(\d+)"; "biggest\s+(\d+)"; "highest\s+(\d+)"]
      ["\.nlargest\("; "\.head\("; "\.sort_values\(.*ascending\s*=\s*False"]
      0.06;
    PatternInfo "first_n_rows"
      ["first\s+(\d+)\s+rows?"; "first\s+(\d+)"; "extract.*first\s+(\d+)"]
      ["\.head\("; "\.iloc\[.*:\s*\d+"; "\.loc\[.*:\s*\d+"]
      0.06;
    PatternInfo "bottom_n"
      ["bottom\s+(\d+)"; "smallest\s+(\d+)"; "lowest\s+(\d+)"]
      ["\.nsmallest\("; "\.tail\("; "\.sort_values\(.*ascending\s*=\s*True"]
      0.06;
    PatternInfo "filtering"
      ["where"; "filter"; "only"; "greater than"; "less than"; "equal to"]
      ["df\[.*\]"; "\.query\("; "\.loc\["; "\.iloc\["]
      0.06;
    PatternInfo "visualization"
      ["chart"; "graph"; "plot"; "visualize"; "bar chart"; "histogram"; "pie chart"]
      ["plt\."; "matplotlib"; "seaborn"; "sns\."; "\.plot\("; "fig\s*="; "ax\."]
      0.06 ].

Definition stat_patterns : list pattern_info :=
  [ PatternInfo "mean"
      ["average"; "mean"; "avg"]
      ["\.mean\("; "\.average\("]
      0.1;
    PatternInfo "sum"
      ["sum"; "total"; "add"]
      ["\.sum\("; "\.agg\(.*sum"]
      0.1;
    PatternInfo "max"
      ["maximum"; "max"; "highest"; "largest"]
      ["\.max\("; "\.agg\(.*max"; "\.nlargest\("]
      0.1;
    PatternInfo "min"
      ["minimum"; "min"; "lowest"; "smallest"]
      ["\.min\("; "\.agg\(.*min"; "\.nsmallest\("]
      0.1;
    PatternInfo "count"
      ["count"; "number of"; "how many"]
      ["\.count\("; "\.size\("; "len\("; "\.shape\[0\]"]
      0.1;
    PatternInfo "groupby"
      ["group by"; "by"; "per"; "for each"]
      ["\.groupby\("; "\.pivot_table\("]
      0.1 ].

Definition question_matches (question_lower : str) (info : pattern_info) : bool :=
  any (fun p : string => Re.matches false p question_lower)
      (question_patterns info).

Definition code_matches (generated_code : str) (info : pattern_info) : bool :=
  any (fun p : string => Re.matches true p generated_code)
      (code_patterns info).

(** The loop over a pattern table: the full weight when question and code
    both match, [partial] of it when only the question does. *)
Definition table_score (partial : Q) (table : list pattern_info)
    (question_lower generated_code : str) : Q :=
  fold_left (fun score info =>
    if question_matches question_lower info then
      if code_matches generated_code info
      then score + weight info
      else score + weight info * partial
    else score) table 0.0.

Definition detected (table : list pattern_info) (question_lower : str)
    : list string :=
  map p_name (filter (question_matches question_lower) table).

Definition analyze_prompt_understanding (e : env) (question generated_code : str)
    (csv_file : option str) : prompt_understanding :=
  let score := 0.0 in
  let max_score := 0.0 in
  let available_columns := load_columns e csv_file in
  let question_lower := PyStr.lower question in
  let mentioned_in_question := mentioned_in question_lower available_columns in
  let extracted := extract_columns generated_code in
  let column_score := score_column_extraction mentioned_in_question extracted in
  let score := score + column_score in
  let max_score := max_score + 0.4 in
  let nl_score := table_score 0.3 nl_patterns question_lower generated_code in
  let score := score + nl_score in
  let max_score := max_score + 0.3 in
  let stat_score := table_score 0.2 stat_patterns question_lower generated_code in
  let detected_stats := detected stat_patterns question_lower in
  let score := score + stat_score in
  let max_score := max_score + 0.3 in
  let understanding_score :=
    if Qltb 0 max_score then score / max_score else 0.0 in
  PromptUnderstanding understanding_score
    (UnderstandingDetails column_score nl_score stat_score
       extracted mentioned_in_question detected_stats).

(** ** Requirement coverage analyzer *)

Record coverage_details : Type := CoverageDetails {
  filter_conditions_coverage : Q;
  groupby_columns_coverage : Q;
  sorting_coverage : Q;
  join_conditions_coverage : Q;
  missing_requirements : list str
}.

Record requirement_coverage : Type := RequirementCoverage {
  coverage_score : Q;
  c_details : coverage_details
}.

(** [str(n)] for a count. *)
Definition str_of_nat (n : nat) : string :=
  NilEmpty.string_of_uint (Nat.to_uint n).

Definition filter_keywords : list string :=
  ["and"; "or"; "where"; "filter"; "greater than"; "less than";
   "equal to"; "not equal"; "contains"; "in"; "between"].

Definition filter_ops_pattern : string :=
  "df\[.*\]|\.query\(|\.loc\[.*\]|\.iloc\[.*\]".

Definition groupby_patterns : list string :=
  [ "group\s+by\s+([^,]+(?:,\s*[^,]+)+)";
    "by\s+([^,]+(?:,\s*[^,]+)+)" ].

Definition groupby_call_pattern : string := "\.groupby\(\[?([^\]]+)\]?\)".

Definition sort_keywords : list string :=
  ["sort"; "order"; "ascending"; "descending"; "top"; "bottom";
   "largest"; "smallest"].

Definition sort_call_pattern : string :=
  "\.sort_values\(|\.sort_index\(|\.nlargest\(|\.nsmallest\(".

Definition join_keywords : list string := ["join"; "merge"; "combine"; "match"].

Definition join_call_pattern : string := "\.merge\(|\.join\(|\.concat\(".

Definition mentions (keywords : list string) (question_lower : str) : bool :=
  any (fun keyword : string => PyStr.contains keyword question_lower) keywords.

Definition filter_count (question_lower : str) : nat :=
  count_if (fun keyword : string => PyStr.contains keyword question_lower)
           filter_keywords.

Definition filter_ops (generated_code : str) : nat :=
  length (Re.findall false filter_ops_pattern generated_code).

Definition groupby_columns_mentioned (question_lower : str) : list str :=
  flat_map (fun pattern : string =>
    flat_map (fun m => map PyStr.strip (PyStr.split "," m))
             (Re.findall_group false pattern question_lower))
    groupby_patterns.

Definition groupby_cols_in_code (group1 : str) : list str :=
  map (fun col => PyStr.strip_chars ("'" ++ dq)%string (PyStr.strip col))
      (PyStr.split "," group1).

(** Each sub-check yields its coverage, what it adds to the score, and the
    notes it appends to [missing_requirements]. *)
Definition check_filters (question_lower generated_code : str)
    : Q * Q * list str :=
  let filter_count := filter_count question_lower in
  let filter_ops := filter_ops generated_code in
  if (1 <? filter_count)%nat then
    if (filter_count <=? filter_ops)%nat then (1.0, 1.0 * 0.3, [])
    else
      let coverage := qn filter_ops / qn filter_count in
      (coverage, coverage * 0.3,
       [list_ascii_of_string
          ("Missing " ++ str_of_nat (filter_count - filter_ops)
                      ++ " filter condition(s)")%string])
  else (1.0, 0.3, []).

Definition check_groupby (question_lower generated_code : str)
    : Q * Q * list str :=
  let mentioned := groupby_columns_mentioned question_lower in
  match mentioned with
  | _ :: _ =>
      match Re.search true groupby_call_pattern generated_code with
      | Some groupby_match =>
          let in_code := groupby_cols_in_code (Re.group1 groupby_match) in
          let matched :=
            count_if (fun col =>
              any (fun gc => PyStr.contains (PyStr.lower col) (PyStr.lower gc))
                  in_code) mentioned in
          let coverage := qn matched / qn (length mentioned) in
          (coverage, coverage * 0.3,
           if Qltb coverage 1.0
           then [list_ascii_of_string
                   ("Missing " ++ str_of_nat (length mentioned - matched)
                               ++ " groupby column(s)")%string]
           else [])
      | None =>
          (0.0, 0.0 * 0.3, [list_ascii_of_string "Groupby operation missing"])
      end
  | [] =>
      if Re.matches true "\.groupby\(" generated_code
      then (1.0, 0.3, [])
      else (1.0, 0.3, [])
  end.

Definition check_sorting (question_lower generated_code : str)
    : Q * Q * list str :=
  if mentions sort_keywords question_lower then
    if Re.matches true sort_call_pattern generated_code
    then (1.0, 1.0 * 0.2, [])
    else (0.0, 0.0 * 0.2, [list_ascii_of_string "Sorting operation missing"])
  else (1.0, 0.2, []).

Definition check_join (question_lower generated_code : str)
    : Q * Q * list str :=
  if mentions join_keywords question_lower then
    if Re.matches true join_call_pattern generated_code
    then (1.0, 1.0 * 0.2, [])
    else (0.0, 0.0 * 0.2, [list_ascii_of_string "Join/merge operation missing"])
  else (1.0, 0.2, []).

Definition analyze_requirement_coverage (question generated_code : str)
    : requirement_coverage :=
  let score := 0.0 in
  let max_score := 0.0 in
  let question_lower := PyStr.lower question in
  let '(filters, added, notes1) := check_filters question_lower generated_code in
  let score := score + added in
  let max_score := max_score + 0.3 in
  let '(groupby, added, notes2) := check_groupby question_lower generated_code in
  let score := score + added in
  let max_score := max_score + 0.3 in
  let '(sorting, added, notes3) := check_sorting question_lower generated_code in
  let score := score + added in
  let max_score := max_score + 0.2 in
  let '(join, added, notes4) := check_join question_lower generated_code in
  let score := score + added in
  let max_score := max_score + 0.2 in
  let coverage_score :=
    if Qltb 0 max_score then score / max_score else 1.0 in
  RequirementCoverage coverage_score
    (CoverageDetails filters groupby sorting join
       (notes1 ++ notes2 ++ notes3 ++ notes4)).

(** ** Recovery analyzer *)

(** The outcome of an execution: the entries [type] and [data] of the
    result, [None] standing for an entry that is absent or [None]. *)
Record execution_result : Type := ExecutionResult {
  r_type : option str;
  r_data : option str
}.

Record recovery_attempt : Type := RecoveryAttempt {
  a_attempt_number : nat;
  a_code : option str;
  a_error : option str;
  a_success : bool;
  a_execution_time : option Q
}.

Record recovery_detail : Type := RecoveryDetail {
  d_attempt_number : nat;
  d_success : bool;
  d_error : option str;
  d_fix_quality : Q
}.

Record recovery_metrics : Type := RecoveryMetrics {
  has_error : bool;
  error_message : option str;
  recovery_attempts_count : nat;
  recovery_success : bool;
  recovery_success_rate : Q;
  error_fix_quality : Q;
  recovery_details : list recovery_detail;
  recovery_score : Q
}.

(** [execution_result.get('type') == 'error'] *)
Definition is_error (r : execution_result) : bool :=
  match r_type r with
  | Some t => PyStr.eqb t "error"
  | None => false
  end.

Inductive error_class : Type :=
| unknown | column_error | syntax_error_class | type_error | index_error
| attribute_error | value_error | other_error.

Definition error_class_eqb (a b : error_class) : bool :=
  match a, b with
  | unknown, unknown | column_error, column_error
  | syntax_error_class, syntax_error_class | type_error, type_error
  | index_error, index_error | attribute_error, attribute_error
  | value_error, value_error | other_error, other_error => true
  | _, _ => false
  end.

Definition _classify_error (error_message : option str) : error_class :=
  match error_message with
  | None | Some [] => unknown
  | Some m =>
      let error_lower := PyStr.lower m in
      let has (w : string) := PyStr.contains w error_lower in
      if has "keyerror" || has "column" then column_error
      else if has "syntax" || has "invalid" then syntax_error_class
      else if has "type" || has "dtype" then type_error
      else if has "index" || has "out of range" then index_error
      else if has "attribute" || has "has no attribute" then attribute_error
      else if has "value" then value_error
      else other_error
  end.

(** The fix quality of one attempt. *)
Definition fix_quality (error_message : option str) (attempt : recovery_attempt)
    : Q :=
  if a_success attempt then 1.0
  else
    let original_error_type := _classify_error error_message in
    let new_error_type := _classify_error (a_error attempt) in
    if negb (error_class_eqb original_error_type new_error_type)
    then 0.5 else 0.1.

(** The loop over the attempts, appending one detail per attempt. *)
Fixpoint details_from (error_message : option str) (n : nat)
    (attempts : list recovery_attempt) : list recovery_detail :=
  match attempts with
  | [] => []
  | attempt :: attempts' =>
      RecoveryDetail (n + 1)%nat (a_success attempt) (a_error attempt)
                     (fix_quality error_message attempt)
      :: details_from error_message (n + 1)%nat attempts'
  end.

Definition analyze_error_recovery (execution_result : execution_result)
    (recovery_attempts : option (list recovery_attempt)) : recovery_metrics :=
  let recovery_attempts :=
    match recovery_attempts with Some l => l | None => [] end in
  let has_error := is_error execution_result in
  let error_message :=
    if has_error
    then Some (match r_data execution_result with Some d => d | None => [] end)
    else None in
  if negb has_error then
    RecoveryMetrics has_error error_message (length recovery_attempts)
                    true 1.0 1.0 [] 1.0
  else
    match recovery_attempts with
    | _ :: _ =>
        let successful_recoveries := count_if a_success recovery_attempts in
        let rate := qn successful_recoveries / qn (length recovery_attempts) in
        let fix_quality_scores :=
          map (fix_quality error_message) recovery_attempts in
        let quality :=
          Qsum fix_quality_scores / qn (length fix_quality_scores) in
        RecoveryMetrics has_error error_message (length recovery_attempts)
          (0 <? successful_recoveries)%nat rate quality
          (details_from error_message O recovery_attempts)
          (rate * 0.5 + quality * 0.3 +
           Qmin (qn (length recovery_attempts) / 3.0) 1.0 * 0.2)
    | [] =>
        RecoveryMetrics has_error error_message (length recovery_attempts)
                        false 0.0 0.0 [] 0.0
    end.

(** ** Metrics aggregator *)

Record correctness_metrics : Type := CorrectnessMetrics {
  c_syntax_valid : bool;
  c_syntax_errors : list syntax_error;
  execution_success : bool;
  execution_error : option str;
  correctness_score : Q
}.

(** [quality_metrics] after its [update] with the safety record and the
    quality score. *)
Record code_quality : Type := CodeQuality {
  q_metrics : quality_metrics;
  safety : safety_metrics;
  quality_score : Q
}.

Record performance_metrics : Type := PerformanceMetrics {
  code_length : nat;
  estimated_complexity : nat;
  p_line_count : nat;
  execution_time_seconds : option Q;
  execution_time_ms : option Q;
  p_time_complexity : time_complexity;
  p_space_complexity : space_complexity;
  performance_score : Q
}.

Record metrics : Type := Metrics {
  timestamp : str;
  model : str;
  question : str;
  csv_file : option str;
  m_code_correctness : correctness_metrics;
  m_code_quality : code_quality;
  m_performance : performance_metrics;
  m_prompt_understanding : prompt_understanding;
  m_requirement_coverage : requirement_coverage;
  m_error_recovery : recovery_metrics;
  overall_score : Q
}.

Definition score_correctness (syntax_valid execution_success : bool) : Q :=
  let score := 0.0 in
  let score := if syntax_valid then score + 0.5 else score in
  let score := if execution_success then score + 0.5 else score in
  score.

Definition score_quality (syntax_valid : bool) (quality : quality_metrics)
    (safety : safety_metrics) : Q :=
  let score := 0.0 in
  let score := if syntax_valid then score + 0.3 else score in
  let score := score + safety_score safety * 0.3 in
  let score := score + inject_Z (readability_score quality) / 10 * 0.2 in
  let score :=
    if has_imports quality && (0 <? line_count quality)%nat
    then score + 0.2 else score in
  score.

Definition score_performance (execution_time : option Q) (code_length : nat)
    (time : time_complexity) (space : space_complexity)
    (execution_success : bool) : Q :=
  let score := 0.0 in
  let score :=
    match execution_time with
    | Some t =>
        if Qltb t 0.1 then score + 0.3
        else if Qltb t 1.0 then score + 0.25
        else if Qltb t 5.0 then score + 0.15
        else score + 0.05
    | None =>
        if (code_length <? 500)%nat then score + 0.2
        else if (code_length <? 1000)%nat then score + 0.15
        else score + 0.1
    end in
  let score := score + t_score time * 0.3 in
  let score := score + s_score space * 0.2 in
  let score :=
    if (code_length <? 500)%nat then score + 0.1
    else if (code_length <? 1000)%nat then score + 0.05
    else score in
  let score := if execution_success then score + 0.1 else score in
  score.

Definition calculate_evaluation_metrics (e : env)
    (question generated_code : str) (execution_result : execution_result)
    (csv_file : option str) (model : str) (execution_time : option Q)
    (recovery_attempts : option (list recovery_attempt)) : metrics :=
  let syntax_check := check_syntax_correctness e generated_code in
  let execution_success := negb (is_error execution_result) in
  let correctness :=
    CorrectnessMetrics
      (syntax_valid syntax_check) (syntax_errors syntax_check)
      execution_success
      (if negb execution_success then r_data execution_result else None)
      (score_correctness (syntax_valid syntax_check) execution_success) in
  let quality_metrics := check_code_quality generated_code in
  let safety_metrics := check_code_safety generated_code in
  let quality :=
    CodeQuality quality_metrics safety_metrics
      (score_quality (syntax_valid syntax_check) quality_metrics safety_metrics) in
  let time_complexity := analyze_time_complexity generated_code in
  let space_complexity := analyze_space_complexity e generated_code csv_file in
  let performance :=
    PerformanceMetrics
      (length generated_code) (complexity_score quality_metrics)
      (line_count quality_metrics) execution_time
      (match execution_time with Some t => Some (t * 1000) | None => None end)
      time_complexity space_complexity
      (score_performance execution_time (length generated_code)
         time_complexity space_complexity execution_success) in
  let prompt_understanding :=
    analyze_prompt_understanding e question generated_code csv_file in
  let requirement_coverage :=
    analyze_requirement_coverage question generated_code in
  let error_recovery :=
    analyze_error_recovery execution_result recovery_attempts in
  Metrics (now_isoformat e) model question csv_file
    correctness quality performance
    prompt_understanding requirement_coverage error_recovery
    (correctness_score correctness * 0.25 +
     quality_score quality * 0.20 +
     performance_score performance * 0.15 +
     understanding_score prompt_understanding * 0.15 +
     coverage_score requirement_coverage * 0.15 +
     recovery_score error_recovery * 0.10).

(** The score fields of a record. *)
Record scores : Type := Scores {
  sc_correctness : Q;
  sc_quality : Q;
  sc_performance : Q;
  sc_understanding : Q;
  sc_coverage : Q;
  sc_recovery : Q;
  sc_overall : Q
}.

Definition scores_of (m : metrics) : scores :=
  Scores (correctness_score (m_code_correctness m))
         (quality_score (m_code_quality m))
         (performance_score (m_performance m))
         (understanding_score (m_prompt_understanding m))
         (coverage_score (m_requirement_coverage m))
         (recovery_score (m_error_recovery m))
         (overall_score m).

(** ** Session summary *)

Record summary : Type := Summary {
  average_overall_score : Q;
  average_correctness_score : Q;
  average_quality_score : Q;
  average_performance_score : Q;
  average_understanding_score : Q;
  average_coverage_score : Q;
  average_recovery_score : Q;
  average_execution_time_seconds : option Q;
  models_used : list str;
  total_questions : nat;
  successful_executions : nat;
  errors_encountered : nat;
  total_recovery_attempts : nat;
  successful_recoveries : nat;
  summary_recovery_success_rate : Q;
  time_complexity_distribution : list (complexity * nat);
  space_complexity_distribution : list (complexity * nat)
}.

(** [sum(xs) / len(xs) if xs else 0] *)
Definition average (xs : list Q) : Q :=
  match xs with
  | [] => 0
  | _ => Qsum xs / qn (length xs)
  end.

(** [list(set(xs))], in the order of first occurrence. *)
Definition distinct {X : Type} (eqb : X -> X -> bool) (xs : list X) : list X :=
  fold_left (fun acc x => if existsb (eqb x) acc then acc else acc ++ [x]) xs [].

(** [{c: xs.count(c) for c in set(xs)}] *)
Definition distribution (xs : list complexity) : list (complexity * nat) :=
  map (fun c => (c, count_if (complexity_eqb c) xs)) (distinct complexity_eqb xs).

Definition sum_nat (l : list nat) : nat := fold_right Nat.add O l.

(** The summary that [save_evaluation_metrics] writes from the whole log
    (its statistics; the session id, the number of entries, the time of
    the update and the average time in milliseconds are left out).
    [update_all_metrics_summaries] computes the same record from a stored
    log, which it skips when the log is empty. *)
Definition summarize (metrics_list : list metrics) : summary :=
  let execution_times :=
    flat_map (fun m => match execution_time_seconds (m_performance m) with
                       | Some t => [t] | None => [] end) metrics_list in
  let time_complexities :=
    map (fun m => t_notation (p_time_complexity (m_performance m))) metrics_list in
  let space_complexities :=
    map (fun m => s_notation (p_space_complexity (m_performance m))) metrics_list in
  let total_recovery_attempts :=
    sum_nat (map (fun m => recovery_attempts_count (m_error_recovery m))
                 metrics_list) in
  let successful_recoveries :=
    count_if (fun m => recovery_success (m_error_recovery m)) metrics_list in
  let errors_encountered :=
    count_if (fun m => has_error (m_error_recovery m)) metrics_list in
  Summary
    (average (map overall_score metrics_list))
    (average (map (fun m => correctness_score (m_code_correctness m)) metrics_list))
    (average (map (fun m => quality_score (m_code_quality m)) metrics_list))
    (average (map (fun m => performance_score (m_performance m)) metrics_list))
    (average (map (fun m => understanding_score (m_prompt_understanding m)) metrics_list))
    (average (map (fun m => coverage_score (m_requirement_coverage m)) metrics_list))
    (average (map (fun m => recovery_score (m_error_recovery m)) metrics_list))
    (match execution_times with
     | [] => None
     | _ => Some (Qsum execution_times / qn (length execution_times))
     end)
    (distinct PyStr.eqb (map model metrics_list))
    (length metrics_list)
    (count_if (fun m => execution_success (m_code_correctness m)) metrics_list)
    errors_encountered
    total_recovery_attempts
    successful_recoveries
    (if (0 <? errors_encountered)%nat
     then qn successful_recoveries / qn errors_encountered else 0.0)
    (distribution time_complexities)
    (distribution space_complexities).

Definition update_metrics_summary (metrics_list : list metrics) : option summary :=
  match metrics_list with
  | [] => None
  | _ => Some (summarize metrics_list)
  end.

(** One turn of a session: the record is computed and appended to the log,
    and the summary is recomputed from the whole log. *)
Definition save_evaluation_metrics (metrics_list : list metrics) (m : metrics)
    : list metrics * summary :=
  let metrics_list := metrics_list ++ [m] in
  (metrics_list, summarize metrics_list).

(** ** Reference notions and sample inputs used by the statements below *)

(** Number of non-overlapping whole-word occurrences of a keyword. *)
Definition occurrences (keyword : string) (code : str) : nat :=
  length (Re.findall false (keyword_pattern keyword) code).

(** The count that "each occurrence increments": the occurrences of all
    the control keywords together. *)
Definition total_keyword_occurrences (code : str) : nat :=
  sum_nat (map (fun keyword => occurrences keyword code) complexity_keywords).

(** The literal words of [groupby_patterns]. *)
Definition groupby_keywords : list string := ["group by"; "by"].

Definition all_patterns : list string :=
  ["^import\s+|^from\s+.*\s+import"; "#.*"]
  ++ map keyword_pattern complexity_keywords
  ++ flat_map snd dangerous_patterns
  ++ map fst loop_patterns
  ++ flat_map snd pandas_ops
  ++ flat_map snd space_indicators
  ++ column_patterns ++ [list_pattern; quoted_pattern]
  ++ flat_map question_patterns nl_patterns
  ++ flat_map code_patterns nl_patterns
  ++ flat_map question_patterns stat_patterns
  ++ flat_map code_patterns stat_patterns
  ++ [filter_ops_pattern] ++ groupby_patterns
  ++ [groupby_call_pattern; "\.groupby\("; sort_call_pattern; join_call_pattern].

Definition compiles (p : string) : bool :=
  match Re.compile p with Some _ => true | None => false end.

Definition nl : string := String Re.newline EmptyString.

(** A world in which every snippet parses and the dataset has the columns
    [Region] and [Sales]. *)
Definition sample_env : env :=
  Env (fun _ => ParseOk) "2025-11-30T10:00:00"
      (fun _ => Some [py "Region"; py "Sales"])
      (fun _ => Some 2048).

(** The same world later, with a larger file. *)
Definition later_env : env :=
  Env (fun _ => ParseOk) "2025-11-30T10:05:00"
      (fun _ => Some [py "Region"; py "Sales"])
      (fun _ => Some 4096).

(** A world whose parser rejects every snippet. *)
Definition rejecting_env : env :=
  Env (fun _ => RaisesSyntaxError (Some 1%Z) "invalid syntax" None)
      "2025-11-30T10:00:00" (fun _ => None) (fun _ => None).

Definition ok_result : execution_result := ExecutionResult (Some (py "table")) None.

Definition error_result : execution_result :=
  ExecutionResult (Some (py "error")) (Some (py "KeyError: 'Sale'")).

Definition two_for_loops : string :=
  "for i in a:" ++ nl ++ "    pass" ++ nl ++ "for j in b:" ++ nl ++ "    pass".

Definition two_loops_and_merge : string :=
  "for i in a:" ++ nl ++ "    for j in b:" ++ nl ++ "        x = left.merge(right)".

Definition stats_question : string :=
  "Where sales are positive, what are the average, total, max, min and count of sales by region?".

Definition stats_code : string :=
  "s = df['sales']" ++ nl ++ "r = df['region']" ++ nl ++
  "result = [s.mean(), s.sum(), s.max(), s.min(), s.count(), df.groupby('region').size()]".

(** A request for several statistics at once, and code that computes
    every one of them. *)
Definition many_stats_question : string :=
  "Show only the top 5, first 3, bottom 2 sales, plot the average, total, max, min, count".

Definition many_stats_code : string :=
  "import matplotlib.pyplot as plt" ++ nl ++
  "s = df['sales']" ++ nl ++
  "a = [s.average(), s.agg('sum'), s.max(), s.min(), len(s)]" ++ nl ++
  "b = [s.nlargest(5), s.head(3), s.nsmallest(2)]" ++ nl ++
  "plt.show()".

Definition many_stats_metrics : metrics :=
  calculate_evaluation_metrics sample_env many_stats_question many_stats_code
    ok_result (Some (py "data.csv")) (py "gpt-4") (Some 0.05) (Some []).

Definition plain_question : string := "Show the data".

Definition plain_code : string := "result = df".

Definition successful_attempt : recovery_attempt :=
  RecoveryAttempt 1 (Some (py "result = df['Sales']")) None true (Some 0.02).

Definition failed_attempt : recovery_attempt :=
  RecoveryAttempt 1 (Some (py "result = df['Sale']"))
                  (Some (py "KeyError: 'Sale'")) false (Some 0.02).

(** A session of three turns: one failure that was not repaired, and two
    successes. *)
Definition sample_log : list metrics :=
  [ calculate_evaluation_metrics sample_env plain_question "result = df['Sale']"
      error_result (Some (py "data.csv")) "gpt-4" None (Some []);
    calculate_evaluation_metrics sample_env plain_question plain_code
      ok_result (Some (py "data.csv")) "gpt-4" (Some 0.05) (Some []);
    calculate_evaluation_metrics sample_env plain_question plain_code
      ok_result (Some (py "data.csv")) "gpt-4" (Some 0.05) (Some []) ].

(** ** Patterns made of literal characters *)

(** The pattern that reads the characters of [l] one after the other, as
    [Re.compile] builds it. *)
Fixpoint lits (l : list ascii) : Re.regex :=
  match l with
  | [] => Re.Eps
  | c :: l' =>
      match l' with
      | [] => Re.Chr (Re.CLit c)
      | _ :: _ => Re.Seq (Re.Chr (Re.CLit c)) (lits l')
      end
  end.

(** The dangerous patterns that are plain text: the text, its category and
    the pattern as the table writes it. *)
Definition dangerous_texts : list (string * string * string) :=
  [ (".to_csv(", "file_write", "\.to_csv\(");
    (".to_excel(", "file_write", "\.to_excel\(");
    (".write(", "file_write", "\.write\(");
    ("pd.read_", "file_read", "pd\.read_");
    ("requests.", "network", "requests\.");
    ("urllib.", "network", "urllib\.");
    ("http.", "network", "http\.");
    ("os.system", "system", "os\.system");
    ("subprocess.", "system", "subprocess\.");
    ("exec(", "system", "exec\(");
    ("eval(", "system", "eval\(") ].

(** ** Records and logs that the program itself produces *)

(** A record that [calculate_evaluation_metrics] returns on some inputs. *)
Definition computed (m : metrics) : Prop :=
  exists (e : env) (question generated_code : str) (r : execution_result)
         (csv_file : option str) (model : str) (execution_time : option Q)
         (attempts : option (list recovery_attempt)),
    m = calculate_evaluation_metrics e question generated_code r csv_file
          model execution_time attempts.


(** [x] lies between [lo] and [hi]. *)
Definition within (lo hi x : Q) : Prop := lo <= x /\ x <= hi.


(** ** The chat handler (frontend.py)

    The part of [send_message] that produces metrics records: code
    generation, execution, the recovery loop and the two calls of
    [calculate_evaluation_metrics]. The language model and the execution
    of generated code are oracles of the world; each is indexed by the
    number of the call within the turn (0 for the first code, 1 and 2 for
    the recovery attempts), since a repeated call may answer differently. *)

(** [s.endswith(p)] *)
Definition ends_with (p s : str) : bool := PyStr.starts_with (rev p) (rev s).

(** The clean-up of the provider's reply in [generate_pandas_code]. *)
Definition strip_code_fences (code : str) : str :=
  let code := if PyStr.starts_with "```python" code then skipn 9 code else code in
  let code := if PyStr.starts_with "```" code then skipn 3 code else code in
  let code := if ends_with "```" code
              then firstn (length code - 3) code else code in
  PyStr.strip code.

Inductive provider_type : Type := openai | openrouter.

Definition AVAILABLE_MODELS : list (string * (provider_type * string)) :=
  [ ("gpt-4", (openai, "gpt-4"));
    ("llama-3.3-70b", (openrouter, "meta-llama/llama-3.3-70b-instruct"));
    ("gemini-2.0", (openrouter, "google/gemini-2.0-flash-lite-001"));
    ("qwen-2.5-72b", (openrouter, "qwen/qwen-2.5-72b-instruct")) ].

(** [AVAILABLE_MODELS.get(model, AVAILABLE_MODELS["gpt-4"])] *)
Definition model_config (model : str) : provider_type * string :=
  match find (fun entry : string * (provider_type * string) =>
                PyStr.eqb model (fst entry)) AVAILABLE_MODELS with
  | Some entry => snd entry
  | None => (openai, "gpt-4")
  end.

(** One chat completion: the content of the reply, or the text of the
    exception that the call raises. *)
Definition completion : Type := nat -> str -> str -> str + str.

Record chat_world : Type := ChatWorld {
  w_env : env;
  (* pd.read_csv(csv_file) at the start of the turn: the text of its
     exception, if it raises *)
  read_csv_error : str -> option str;
  (* the providers, [None] without an API key *)
  openai_provider : option completion;
  openrouter_provider : option completion;
  (* execute_code_safely(code, csv_file): the result and its entry
     'execution_time', if present *)
  execute_code_safely : nat -> str -> str -> execution_result * option Q;
  (* the exception raised after the metrics were saved, while the answer
     is recorded and returned, if any *)
  response_error : option str
}.

(** [provider.generate_code(...)] *)
Definition provider_generate_code (api : completion) (call : nat)
    (model_id : string) (user_prompt : str) : str + str :=
  match api call model_id user_prompt with
  | inl content => inl (PyStr.strip content)
  | inr e =>
      inr (list_ascii_of_string "Error generating code with " ++ model_id
           ++ list_ascii_of_string ": " ++ e)
  end.

(** [generate_pandas_code(question, csv_info, model)]: the code, or the
    text of the exception it raises. *)
Definition generate_pandas_code (w : chat_world) (call : nat)
    (question model : str) : str + str :=
  let '(provider, model_id) := model_config model in
  let reply :=
    match provider with
    | openai =>
        match openai_provider w with
        | None =>
            inr (list_ascii_of_string
                   "OpenAI API key not configured. Please set OPENAI_API_KEY in .env file.")
        | Some api => provider_generate_code api call model_id question
        end
    | openrouter =>
        match openrouter_provider w with
        | None =>
            inr (list_ascii_of_string
                   "OpenRouter API key not configured. Please set OPENROUTER_API_KEY in .env file.")
        | Some api => provider_generate_code api call model_id question
        end
    end in
  match reply with
  | inl code => inl (strip_code_fences code)
  | inr e => inr (list_ascii_of_string "Error generating code: " ++ e)
  end.

(** The variables of [send_message] that the metrics read. *)
Record turn_state : Type := TurnState {
  ts_generated_code : str;
  ts_execution_result : execution_result;
  ts_execution_time : option Q;
  ts_recovery_attempts : list recovery_attempt
}.

Definition max_recovery_attempts : nat := 2.

Definition recovery_prompt (error_message question generated_code : str) : str :=
  list_ascii_of_string "The previous code failed with error: " ++ error_message
  ++ list_ascii_of_string (nl ++ nl ++ "Original question: ") ++ question
  ++ list_ascii_of_string (nl ++ "Original code:" ++ nl ++ "```python" ++ nl)
  ++ generated_code
  ++ list_ascii_of_string
       (nl ++ "```" ++ nl ++ nl ++
        "Please fix the code to resolve the error. Return only the corrected Python code.").

(** The loop [for attempt_num in range(max_recovery_attempts)], from
    [attempt_num] on with [remaining] rounds to go. The prompt is built
    from the first error and the first code in every round. *)
Fixpoint recovery_loop (w : chat_world) (csv_file model prompt : str)
    (remaining attempt_num : nat) (st : turn_state) : turn_state :=
  match remaining with
  | O => st
  | S remaining' =>
      match generate_pandas_code w (attempt_num + 1) prompt model with
      | inl fixed_code =>
          let '(fixed_result, fixed_execution_time) :=
            execute_code_safely w (attempt_num + 1) fixed_code csv_file in
          let recovery_attempt :=
            RecoveryAttempt (attempt_num + 1) (Some fixed_code)
              (if is_error fixed_result then r_data fixed_result else None)
              (negb (is_error fixed_result))
              fixed_execution_time in
          let attempts := ts_recovery_attempts st ++ [recovery_attempt] in
          if a_success recovery_attempt
          then TurnState fixed_code fixed_result fixed_execution_time attempts
          else recovery_loop w csv_file model prompt remaining' (attempt_num + 1)
                 (TurnState (ts_generated_code st) (ts_execution_result st)
                            (ts_execution_time st) attempts)
      | inr e =>
          recovery_loop w csv_file model prompt remaining' (attempt_num + 1)
            (TurnState (ts_generated_code st) (ts_execution_result st)
               (ts_execution_time st)
               (ts_recovery_attempts st ++
                [RecoveryAttempt (attempt_num + 1) None
                   (Some (list_ascii_of_string "Recovery attempt failed: " ++ e))
                   false None]))
      end
  end.

Definition initial_state : turn_state :=
  TurnState [] (ExecutionResult (Some (py "error")) (Some (py "Code generation failed")))
            None [].

(** The body of the [try] up to the metrics: the state when the metrics
    are computed, or the text of the exception with the state it leaves. *)
Definition generate_and_execute (w : chat_world) (question csv_file model : str)
    : turn_state + (str * turn_state) :=
  match read_csv_error w csv_file with
  | Some e => inr (e, initial_state)
  | None =>
      match generate_pandas_code w 0 question model with
      | inr e => inr (e, initial_state)
      | inl generated_code =>
          let '(execution_result, execution_time) :=
            execute_code_safely w 0 generated_code csv_file in
          let st := TurnState generated_code execution_result execution_time [] in
          if is_error execution_result && (0 <? max_recovery_attempts)%nat
          then
            let error_message :=
              match r_data execution_result with Some d => d | None => [] end in
            inl (recovery_loop w csv_file model
                   (recovery_prompt error_message question generated_code)
                   max_recovery_attempts 0 st)
          else inl st
      end
  end.

(** The record of the main path. *)
Definition main_record (w : chat_world) (question csv_file model : str)
    (st : turn_state) : metrics :=
  calculate_evaluation_metrics (w_env w) question (ts_generated_code st)
    (ts_execution_result st) (Some csv_file) model (ts_execution_time st)
    (Some (ts_recovery_attempts st)).

(** The record of the [except] branch, for the exception text [e]. *)
Definition failure_record (w : chat_world) (question csv_file model : str)
    (e : str) (st : turn_state) : metrics :=
  calculate_evaluation_metrics (w_env w) question (ts_generated_code st)
    (ExecutionResult (Some (py "error"))
       (Some (list_ascii_of_string "Error processing request: " ++ e)))
    (Some csv_file) model (ts_execution_time st)
    (Some (ts_recovery_attempts st)).

(** The records that one turn appends to the metrics log of its session:
    none without a dataset, else the record of the main path, followed by
    the record of the [except] branch when the turn fails. *)
Definition turn_records (w : chat_world) (question : str)
    (csv_file : option str) (selected_model : str) : list metrics :=
  match truthy csv_file with
  | None => []
  | Some f =>
      match generate_and_execute w question f selected_model with
      | inr (e, st) => [failure_record w question f selected_model e st]
      | inl st =>
          main_record w question f selected_model st ::
          match response_error w with
          | None => []
          | Some e => [failure_record w question f selected_model e st]
          end
      end
  end.

(** [send_message]: the metrics log after the turn and its last summary. *)
Definition send_message (w : chat_world) (log : list metrics) (question : str)
    (csv_file : option str) (selected_model : str) : list metrics :=
  fold_left (fun log m => fst (save_evaluation_metrics log m))
            (turn_records w question csv_file selected_model) log.

(** A turn with its question, dataset and model. *)
Record turn : Type := Turn {
  t_world : chat_world;
  t_question : str;
  t_csv_file : option str;
  t_model : str
}.

(** The metrics log of a session after its turns. *)
Definition session_log (turns : list turn) : list metrics :=
  fold_left (fun log t =>
    send_message (t_world t) log (t_question t) (t_csv_file t) (t_model t))
    turns [].

(** An attempt that did not succeed. *)
Definition failed (a : recovery_attempt) : Prop := a_success a = false.


(** ** Splitting a dataset (split_dataset)

    A dataset file holds a list of rows; reading a file may fail and so
    may writing one. *)

(** [s.replace(old, new)] for a non-empty [old]: every occurrence from
    left to right, none overlapping. [skip] characters of an occurrence
    just replaced are still to be passed over. *)
Fixpoint replace_from (old new : str) (skip : nat) (s : str) : str :=
  match s with
  | [] => []
  | c :: s' =>
      match skip with
      | S k => replace_from old new k s'
      | O =>
          if PyStr.starts_with old s
          then new ++ replace_from old new (length old - 1) s'
          else c :: replace_from old new 0 s'
      end
  end.

Definition replace (old new s : str) : str := replace_from old new 0 s.

Section SplitDataset.

Variable row : Type.

Definition files : Type := str -> option (list row).

Record file_world : Type := FileWorld {
  read_csv : files;            (* pd.read_csv: the rows, [None] when it raises *)
  can_write : str -> bool      (* whether to_csv succeeds on this path *)
}.

(** The files after [to_csv(path)] of [rows]. *)
Definition write (fs : files) (path : str) (rows : list row) : files :=
  fun p => if PyStr.eqb p path then Some rows else fs p.

(** [df.iloc[start:end]] for indices that are not negative. *)
Definition iloc (df : list row) (start_idx end_idx : Z) : list row :=
  firstn (Z.to_nat end_idx - Z.to_nat start_idx) (skipn (Z.to_nat start_idx) df).

Definition split_end (total_rows num_splits split_size : Z) (i : nat) : Z :=
  if (Z.of_nat i =? num_splits - 1)%Z then total_rows
  else ((Z.of_nat i + 1) * split_size)%Z.

(** The rows of split number [i] (from 0). *)
Definition split_rows (df : list row) (num_splits : Z) (i : nat) : list row :=
  let total_rows := Z.of_nat (length df) in
  let split_size := (total_rows / num_splits)%Z in
  iloc df (Z.of_nat i * split_size)%Z
       (split_end total_rows num_splits split_size i).

(** The name of split number [i] (from 0). *)
Definition split_filepath (csv_filepath : str) (i : nat) : str :=
  replace ".csv"
    (list_ascii_of_string "_split_" ++ list_ascii_of_string (str_of_nat (i + 1))
     ++ list_ascii_of_string ".csv")
    csv_filepath.

(** The loop over the splits [indices]: the paths so far and the files,
    or [None] with the files as they are when a write fails. *)
Fixpoint write_splits (can_write : str -> bool) (csv_filepath : str)
    (df : list row) (num_splits : Z) (indices : list nat)
    (splits : list str) (fs : files) : option (list str) * files :=
  match indices with
  | [] => (Some splits, fs)
  | i :: indices' =>
      let split_df := split_rows df num_splits i in
      let path := split_filepath csv_filepath i in
      if can_write path
      then write_splits can_write csv_filepath df num_splits indices'
             (splits ++ [path]) (write fs path split_df)
      else (None, fs)
  end.

(** [split_dataset(csv_filepath, num_splits)]: the list it returns and the
    files it leaves. Every exception, the division by zero included, ends
    in the list of the original path alone. *)
Definition split_dataset (fw : file_world) (csv_filepath : str)
    (num_splits : Z) : list str * files :=
  match read_csv fw csv_filepath with
  | None => ([csv_filepath], read_csv fw)
  | Some df =>
      let total_rows := Z.of_nat (length df) in
      if (total_rows <? num_splits)%Z then ([csv_filepath], read_csv fw)
      else if (num_splits =? 0)%Z then ([csv_filepath], read_csv fw)
      else
        match write_splits (can_write fw) csv_filepath df num_splits
                (seq 0 (Z.to_nat num_splits)) [] (read_csv fw) with
        | (Some splits, fs) => (splits, fs)
        | (None, fs) => ([csv_filepath], fs)
        end
  end.

End SplitDataset.


(** ** Sample code, worlds and turns used by the statements below *)

Definition unsafe_code : string := "result = eval(expr)".

Definition right_code : string := "result = df['Sales']".

Definition wrong_code : string := "result = df['Sale']".

(** A provider whose first reply misspells a column and whose later
    replies are right. *)
Definition learning_provider : completion :=
  fun call _ _ =>
    inl (list_ascii_of_string (if (call =? 0)%nat then wrong_code else right_code)).

(** A provider that misspells the column every time. *)
Definition stubborn_provider : completion :=
  fun _ _ _ => inl (list_ascii_of_string wrong_code).

(** Execution succeeds on the right code only. *)
Definition sample_executor (call : nat) (code csv_file : str)
    : execution_result * option Q :=
  if PyStr.eqb code right_code then (ok_result, Some 0.02)
  else (error_result, None).

Definition learning_world : chat_world :=
  ChatWorld sample_env (fun _ => None) (Some learning_provider) None
            sample_executor None.

Definition stubborn_world : chat_world :=
  ChatWorld sample_env (fun _ => None) (Some stubborn_provider) None
            sample_executor None.

(** A world without API keys. *)
Definition keyless_world : chat_world :=
  ChatWorld sample_env (fun _ => None) None None sample_executor None.

Definition sample_turns : list turn :=
  [ Turn learning_world plain_question (Some (py "data.csv")) "gpt-4";
    Turn stubborn_world plain_question (Some (py "data.csv")) "gpt-4" ].

(** Files that all hold the same seven rows and can all be written. *)
Definition sample_files : file_world nat :=
  FileWorld (fun _ => Some [1; 2; 3; 4; 5; 6; 7]%nat) (fun _ => true).

(** * Properties *)

(** Every pattern of the program lies in the fragment that [Re.compile]
    reads, so that [Re.re] never falls back to the empty pattern. *)
Lemma patterns_compile : forallb compiles all_patterns = true.
Proof. vm_compute. reflexivity. Qed.

(** ** The weighted overall score *)

(** C2. The overall score of the record is 0.25 x correctness + 0.20 x
    quality + 0.15 x performance + 0.15 x understanding + 0.15 x coverage +
    0.10 x recovery, whatever the inputs; the six weights are non-negative
    and sum to 1. *)
Theorem overall_score_is_weighted_sum :
  forall (e : env) (question generated_code : str) (r : execution_result)
         (csv_file : option str) (model : str) (execution_time : option Q)
         (attempts : option (list recovery_attempt)),
    let m := calculate_evaluation_metrics e question generated_code r
               csv_file model execution_time attempts in
    overall_score m ==
      0.25 * correctness_score (m_code_correctness m) +
      0.20 * quality_score (m_code_quality m) +
      0.15 * performance_score (m_performance m) +
      0.15 * understanding_score (m_prompt_understanding m) +
      0.15 * coverage_score (m_requirement_coverage m) +
      0.10 * recovery_score (m_error_recovery m)
    /\ 0.25 + 0.20 + 0.15 + 0.15 + 0.15 + 0.10 == 1
    /\ Forall (fun w => 0 <= w) [0.25; 0.20; 0.15; 0.15; 0.15; 0.10].
Proof.
  intros e question generated_code r csv model t attempts m.
  split; [| split].
  - subst m. unfold calculate_evaluation_metrics.
    cbn [overall_score m_code_correctness m_code_quality m_performance
         m_prompt_understanding m_requirement_coverage m_error_recovery
         correctness_score quality_score performance_score].
    ring.
  - reflexivity.
  - repeat constructor; discriminate.
Qed.

(** ** Syntax check *)

Lemma check_syntax_valid_iff :
  forall (e : env) (code : str),
    syntax_valid (check_syntax_correctness e code) = true <->
    ast_parse e code = ParseOk.
Proof.
  intros e code. unfold check_syntax_correctness.
  destruct (ast_parse e code); simpl; split; congruence.
Qed.

Lemma score_correctness_values :
  forall v s : bool,
    score_correctness v s == (if v then 0.5 else 0) + (if s then 0.5 else 0).
Proof. intros [|] [|]; reflexivity. Qed.

(** C7. When parsing fails (with [SyntaxError] or with any other
    exception), the syntax check still returns a result: it is marked
    invalid, its error list is not empty, and the correctness score of the
    record built from it is at most 0.5. *)
Theorem invalid_syntax_is_reported :
  forall (e : env) (question generated_code : str) (r : execution_result)
         (csv_file : option str) (model : str) (execution_time : option Q)
         (attempts : option (list recovery_attempt)),
    ast_parse e generated_code <> ParseOk ->
    let c := check_syntax_correctness e generated_code in
    let m := calculate_evaluation_metrics e question generated_code r
               csv_file model execution_time attempts in
    syntax_valid c = false /\
    syntax_errors c <> [] /\
    c_syntax_valid (m_code_correctness m) = false /\
    c_syntax_errors (m_code_correctness m) <> [] /\
    correctness_score (m_code_correctness m) <= 0.5.
Proof.
  intros e question code r csv model t attempts Hparse c m.
  subst c m. unfold calculate_evaluation_metrics.
  cbn [m_code_correctness c_syntax_valid c_syntax_errors correctness_score].
  unfold check_syntax_correctness.
  destruct (ast_parse e code) as [| l msg txt | msg]; [congruence | |];
    cbn [syntax_valid syntax_errors];
    (repeat split; try discriminate;
     destruct (negb (is_error r)); vm_compute; discriminate).
Qed.

Lemma invalid_syntax_is_reported_witness :
  let c := check_syntax_correctness rejecting_env two_for_loops in
  let m := calculate_evaluation_metrics rejecting_env plain_question
             two_for_loops ok_result None (py "gpt-4") None None in
  syntax_valid c = false /\
  syntax_errors c <> [] /\
  c_syntax_valid (m_code_correctness m) = false /\
  c_syntax_errors (m_code_correctness m) <> [] /\
  correctness_score (m_code_correctness m) <= 0.5.
Proof.
  apply (invalid_syntax_is_reported rejecting_env plain_question two_for_loops
           ok_result None (py "gpt-4") None None).
  simpl. discriminate.
Defined.

(** ** Determinism *)

Lemma load_columns_ext :
  forall (e1 e2 : env) (csv_file : option str),
    (forall f, read_csv_columns e1 f = read_csv_columns e2 f) ->
    load_columns e1 csv_file = load_columns e2 csv_file.
Proof.
  intros e1 e2 csv H. unfold load_columns.
  destruct (truthy csv); [rewrite H |]; reflexivity.
Qed.

Lemma understanding_ext :
  forall (e1 e2 : env) (question generated_code : str) (csv_file : option str),
    (forall f, read_csv_columns e1 f = read_csv_columns e2 f) ->
    analyze_prompt_understanding e1 question generated_code csv_file =
    analyze_prompt_understanding e2 question generated_code csv_file.
Proof.
  intros e1 e2 q code csv H. unfold analyze_prompt_understanding.
  rewrite (load_columns_ext e1 e2 csv H). reflexivity.
Qed.

(** C8. Two calls on the same question, code, outcome, dataset reference,
    model, execution time and recovery attempts, in two worlds that agree
    on the parser and on the dataset's columns, return the same seven
    scores; the worlds may differ in their clock (and even in the size of
    the dataset file, which only the memory estimate reads). *)
Theorem scores_are_deterministic :
  forall (e1 e2 : env) (question generated_code : str) (r : execution_result)
         (csv_file : option str) (model : str) (execution_time : option Q)
         (attempts : option (list recovery_attempt)),
    (forall code, ast_parse e1 code = ast_parse e2 code) ->
    (forall f, read_csv_columns e1 f = read_csv_columns e2 f) ->
    scores_of (calculate_evaluation_metrics e1 question generated_code r
                 csv_file model execution_time attempts) =
    scores_of (calculate_evaluation_metrics e2 question generated_code r
                 csv_file model execution_time attempts).
Proof.
  intros e1 e2 q code r csv model t attempts Hparse Hcols.
  unfold scores_of, calculate_evaluation_metrics.
  cbn [overall_score m_code_correctness m_code_quality m_performance
       m_prompt_understanding m_requirement_coverage m_error_recovery
       correctness_score quality_score performance_score].
  unfold check_syntax_correctness. rewrite (Hparse code).
  rewrite (understanding_ext e1 e2 q code csv Hcols).
  reflexivity.
Qed.

Lemma scores_are_deterministic_witness :
  scores_of (calculate_evaluation_metrics sample_env stats_question stats_code
               ok_result (Some (py "data.csv")) (py "gpt-4") (Some 0.05) None) =
  scores_of (calculate_evaluation_metrics later_env stats_question stats_code
               ok_result (Some (py "data.csv")) (py "gpt-4") (Some 0.05) None).
Proof.
  apply (scores_are_deterministic sample_env later_env stats_question stats_code
           ok_result (Some (py "data.csv")) (py "gpt-4") (Some 0.05) None).
  - intro code. reflexivity.
  - intro f. reflexivity.
Defined.

(** ** Arithmetic helpers *)

Lemma Qltb_lt : forall a b : Q, Qltb a b = true <-> a < b.
Proof.
  intros a b. unfold Qltb. rewrite negb_true_iff.
  split; intro H.
  - apply Qnot_le_lt. intro Hle. apply Qle_bool_iff in Hle. congruence.
  - destruct (Qle_bool b a) eqn:E; [| reflexivity].
    apply Qle_bool_iff in E. exfalso. exact (Qlt_not_le _ _ H E).
Qed.

Lemma Qltb_ge : forall a b : Q, Qltb a b = false <-> b <= a.
Proof.
  intros a b. unfold Qltb. rewrite negb_false_iff. apply Qle_bool_iff.
Qed.

Lemma Qmin_compat :
  forall a a' b b' : Q, a == a' -> b == b' -> Qmin a b == Qmin a' b'.
Proof.
  intros a a' b b' Ha Hb. unfold Qmin.
  destruct (Qle_bool a b) eqn:E, (Qle_bool a' b') eqn:E'; try assumption.
  - apply Qle_bool_iff in E. rewrite Ha, Hb in E.
    apply Qle_bool_iff in E. congruence.
  - apply Qle_bool_iff in E'. rewrite <- Ha, <- Hb in E'.
    apply Qle_bool_iff in E'. congruence.
Qed.

Lemma Qmin_le_r : forall a b : Q, Qmin a b <= b.
Proof.
  intros a b. unfold Qmin. destruct (Qle_bool a b) eqn:E.
  - apply Qle_bool_iff. exact E.
  - apply Qle_refl.
Qed.

Lemma Qmin_glb : forall a b c : Q, c <= a -> c <= b -> c <= Qmin a b.
Proof. intros a b c Ha Hb. unfold Qmin. destruct (Qle_bool a b); assumption. Qed.

Lemma qn_nonneg : forall n : nat, 0 <= qn n.
Proof.
  intro n. unfold qn, Qle. simpl. lia.
Qed.

Lemma qn_pos : forall n : nat, (0 < n)%nat -> 0 < qn n.
Proof.
  intros n H. unfold qn, Qlt. simpl. lia.
Qed.

Lemma qn_le : forall n m : nat, (n <= m)%nat -> qn n <= qn m.
Proof.
  intros n m H. unfold qn, Qle. simpl. lia.
Qed.

Lemma qn_lt : forall n m : nat, (n < m)%nat -> qn n < qn m.
Proof.
  intros n m H. unfold qn, Qlt. simpl. lia.
Qed.

(** A share [n / m] with [n <= m] lies between 0 and 1. *)
Lemma share_bounds :
  forall n m : nat, (0 < m)%nat -> (n <= m)%nat ->
    0 <= qn n / qn m /\ qn n / qn m <= 1.
Proof.
  intros n m Hm Hle.
  pose proof (qn_pos Hm) as Hpos. pose proof (qn_nonneg n) as Hn.
  pose proof (qn_le Hle) as Hnm.
  split.
  - apply Qle_shift_div_l; [exact Hpos |]. rewrite Qmult_0_l. exact Hn.
  - apply Qle_shift_div_r; [exact Hpos |]. rewrite Qmult_1_l. exact Hnm.
Qed.

Lemma share_lt_1 :
  forall n m : nat, (n < m)%nat -> qn n / qn m < 1.
Proof.
  intros n m Hlt.
  assert (Hpos : 0 < qn m) by (apply qn_pos; lia).
  apply Qlt_shift_div_r; [exact Hpos |]. rewrite Qmult_1_l.
  apply qn_lt. exact Hlt.
Qed.

Lemma share_eq_1 :
  forall n : nat, (0 < n)%nat -> qn n / qn n == 1.
Proof.
  intros n H. pose proof (qn_pos H) as Hpos.
  field. intro E. rewrite E in Hpos. exact (Qlt_irrefl _ Hpos).
Qed.

Lemma count_if_le : forall (X : Type) (test : X -> bool) (l : list X),
    (count_if test l <= length l)%nat.
Proof. intros X test l. unfold count_if. apply filter_length_le. Qed.

(** ** Recovery score *)

Lemma analyze_error_recovery_attempts :
  forall (r : execution_result) (a : recovery_attempt) (l : list recovery_attempt),
    is_error r = true ->
    let attempts := a :: l in
    let message := Some (match r_data r with Some d => d | None => [] end) in
    let rate := qn (count_if a_success attempts) / qn (length attempts) in
    let quality :=
      Qsum (map (fix_quality message) attempts)
      / qn (length (map (fix_quality message) attempts)) in
    analyze_error_recovery r (Some attempts) =
    RecoveryMetrics true message (length attempts)
      (0 <? count_if a_success attempts)%nat rate quality
      (details_from message O attempts)
      (rate * 0.5 + quality * 0.3 + Qmin (qn (length attempts) / 3.0) 1.0 * 0.2).
Proof.
  intros r a l H. unfold analyze_error_recovery. rewrite H. reflexivity.
Qed.

Lemma analyze_error_recovery_no_attempts :
  forall (r : execution_result),
    is_error r = true ->
    analyze_error_recovery r (Some []) = analyze_error_recovery r None /\
    recovery_score (analyze_error_recovery r None) = 0.0.
Proof.
  intros r H. unfold analyze_error_recovery. rewrite H. split; reflexivity.
Qed.

(** C5. On an outcome of type error: with n > 0 repair attempts the
    recovery score is 0.5 x success rate + 0.3 x mean fix quality +
    0.2 x min(n/3, 1), the success rate being the share of successful
    attempts and the fix quality the mean of the per-attempt values; with
    no attempt it is 0; with one attempt that succeeds the success rate is
    1 and the score is 0.5 + 0.3 + 0.2 x (1/3) = 13/15, about 0.867. *)
Theorem recovery_score_formula :
  forall (r : execution_result),
    is_error r = true ->
    (forall attempts : list recovery_attempt,
       attempts <> [] ->
       let m := analyze_error_recovery r (Some attempts) in
       let n := qn (length attempts) in
       recovery_success_rate m == qn (count_if a_success attempts) / n /\
       error_fix_quality m ==
         Qsum (map (fix_quality (error_message m)) attempts) / n /\
       recovery_score m ==
         0.5 * recovery_success_rate m + 0.3 * error_fix_quality m +
         0.2 * Qmin (n / 3) 1.0) /\
    recovery_score (analyze_error_recovery r (Some [])) == 0.0 /\
    recovery_score (analyze_error_recovery r None) == 0.0 /\
    (forall a : recovery_attempt,
       a_success a = true ->
       let m := analyze_error_recovery r (Some [a]) in
       recovery_success_rate m == 1.0 /\
       recovery_score m == 0.5 + 0.3 + 0.2 * (1 / 3) /\
       recovery_score m == 13 # 15 /\
       0.866 < recovery_score m /\ recovery_score m < 0.868).
Proof.
  intros r H. split; [| split; [| split]].
  - intros [| a l] Hne m n; [congruence |].
    subst m n. rewrite (analyze_error_recovery_attempts r a l H).
    cbn [recovery_success_rate error_fix_quality recovery_score error_message].
    rewrite length_map. split; [reflexivity | split; [reflexivity |]].
    rewrite (@Qmin_compat (qn (length (a :: l)) / 3.0) (qn (length (a :: l)) / 3)
               1.0 1.0); [ring | | reflexivity].
    apply Qmult_comp; reflexivity.
  - destruct (analyze_error_recovery_no_attempts r H) as [-> ->]. reflexivity.
  - destruct (analyze_error_recovery_no_attempts r H) as [_ ->]. reflexivity.
  - intros a Ha m. subst m.
    rewrite (analyze_error_recovery_attempts r a [] H).
    cbn [recovery_success_rate recovery_score].
    unfold count_if, fix_quality. simpl filter. simpl map. rewrite Ha.
    repeat split; vm_compute; reflexivity.
Qed.

Lemma recovery_score_formula_witness :
  recovery_score (analyze_error_recovery error_result (Some [])) == 0.0 /\
  recovery_score (analyze_error_recovery error_result (Some [successful_attempt]))
    == 13 # 15 /\
  recovery_score
    (analyze_error_recovery error_result (Some [failed_attempt; successful_attempt]))
    == 0.5 * (1 # 2) + 0.3 * (11 # 20) + 0.2 * (2 # 3).
Proof.
  destruct (recovery_score_formula error_result eq_refl)
    as (Hmany & Hnil & _ & Hone).
  split; [exact Hnil | split].
  - destruct (Hone successful_attempt eq_refl) as (_ & _ & H & _). exact H.
  - destruct (Hmany [failed_attempt; successful_attempt]) as (Hr & Hq & Hs).
    + discriminate.
    + rewrite Hs, Hr, Hq. vm_compute. reflexivity.
Defined.

(** ** Time complexity *)

Section ScanOps.

Variable order : list complexity.
Variable code : str.

Lemma raise_cases :
  forall (c acc : complexity) (p : string),
    raise order code c acc p = acc \/
    (raise order code c acc p = c /\ Re.matches true p code = true).
Proof.
  intros c acc p. unfold raise.
  destruct (Re.matches true p code); [| left; reflexivity].
  destruct (index order acc <? index order c)%nat; [right | left]; auto.
Qed.

Lemma raise_ge :
  forall (c acc : complexity) (p : string),
    (index order acc <= index order (raise order code c acc p))%nat.
Proof.
  intros c acc p. unfold raise.
  destruct (Re.matches true p code); [| lia].
  destruct (index order acc <? index order c)%nat eqn:E; [| lia].
  apply Nat.ltb_lt in E. lia.
Qed.

Lemma raise_found :
  forall (c acc : complexity) (p : string),
    Re.matches true p code = true ->
    (index order c <= index order (raise order code c acc p))%nat.
Proof.
  intros c acc p H. unfold raise. rewrite H.
  destruct (index order acc <? index order c)%nat eqn:E; [lia |].
  apply Nat.ltb_ge in E. exact E.
Qed.

Lemma fold_raise_ge :
  forall (c : complexity) (ps : list string) (acc : complexity),
    (index order acc <= index order (fold_left (raise order code c) ps acc))%nat.
Proof.
  intros c ps. induction ps as [| p ps IH]; intro acc; simpl; [lia |].
  pose proof (raise_ge c acc p). specialize (IH (raise order code c acc p)). lia.
Qed.

Lemma fold_raise_cases :
  forall (c : complexity) (ps : list string) (acc : complexity),
    fold_left (raise order code c) ps acc = acc \/
    fold_left (raise order code c) ps acc = c.
Proof.
  intros c ps. induction ps as [| p ps IH]; intro acc; simpl; [left; reflexivity |].
  destruct (IH (raise order code c acc p)) as [-> | ->]; [| right; reflexivity].
  destruct (raise_cases c acc p) as [-> | [-> _]]; auto.
Qed.

Lemma fold_raise_found :
  forall (c : complexity) (ps : list string) (acc : complexity) (p : string),
    In p ps -> Re.matches true p code = true ->
    (index order c <= index order (fold_left (raise order code c) ps acc))%nat.
Proof.
  intros c ps. induction ps as [| p' ps IH]; intros acc p Hin Hm; [contradiction |].
  simpl. destruct Hin as [-> | Hin].
  - pose proof (raise_found c acc p Hm).
    pose proof (fold_raise_ge c ps (raise order code c acc p)). lia.
  - exact (IH _ p Hin Hm).
Qed.

Lemma fold_scan_ge :
  forall (table : list (complexity * list string)) (acc : complexity),
    (index order acc <= index order (fold_left (scan_entry order code) table acc))%nat.
Proof.
  intro table. induction table as [| [c ps] table IH]; intro acc; simpl; [lia |].
  pose proof (fold_raise_ge c ps acc).
  specialize (IH (fold_left (raise order code c) ps acc)). lia.
Qed.

Lemma fold_scan_cases :
  forall (table : list (complexity * list string)) (acc : complexity),
    fold_left (scan_entry order code) table acc = acc \/
    In (fold_left (scan_entry order code) table acc) (map fst table).
Proof.
  intro table. induction table as [| [c ps] table IH]; intro acc; simpl;
    [left; reflexivity |].
  destruct (IH (fold_left (raise order code c) ps acc)) as [E | Hin].
  - rewrite E. destruct (fold_raise_cases c ps acc) as [-> | ->]; auto.
  - right. right. exact Hin.
Qed.

Lemma fold_scan_found :
  forall (table : list (complexity * list string)) (acc c : complexity)
         (ps : list string) (p : string),
    In (c, ps) table -> In p ps -> Re.matches true p code = true ->
    (index order c <= index order (fold_left (scan_entry order code) table acc))%nat.
Proof.
  intro table. induction table as [| [c' ps'] table IH];
    intros acc c ps p Hin Hp Hm; [contradiction |].
  simpl. destruct Hin as [E | Hin].
  - injection E as -> ->.
    pose proof (fold_raise_found c ps acc p Hp Hm).
    pose proof (fold_scan_ge table (fold_left (raise order code c) ps acc)). lia.
  - exact (IH _ c ps p Hin Hp Hm).
Qed.

End ScanOps.

(** The base class is one of the four classes of the data-operation table. *)
Lemma base_time_complexity_cases :
  forall code : str,
    In (base_time_complexity code) [O_1; O_n; O_n_log_n; O_n2].
Proof.
  intro code. unfold base_time_complexity, scan_ops.
  destruct (fold_scan_cases time_complexity_order code pandas_ops O_1) as [-> | H].
  - cbn [In]. auto.
  - cbn [In map fst pandas_ops] in H. cbn [In]. tauto.
Qed.

(** A merge, join or column-wise concat makes the base class quadratic. *)
Lemma base_time_complexity_quadratic :
  forall (code : str) (p : string),
    In p ["\.merge\("; "\.join\("; "\.concat\(.*axis=1"] ->
    Re.matches true p code = true ->
    base_time_complexity code = O_n2.
Proof.
  intros code p Hp Hm.
  assert (Hge : (index time_complexity_order O_n2 <=
                 index time_complexity_order (base_time_complexity code))%nat).
  { unfold base_time_complexity, scan_ops.
    apply (@fold_scan_found time_complexity_order code pandas_ops O_1 O_n2
             ["\.merge\("; "\.join\("; "\.concat\(.*axis=1"] p);
      [unfold pandas_ops; cbn [In]; auto | exact Hp | exact Hm]. }
  destruct (base_time_complexity_cases code) as [E | [E | [E | [E | []]]]];
    rewrite <- E in Hge |- *; cbn in Hge; try lia; reflexivity.
Qed.

(** C4. The notation is the base class of the data-operation ladder,
    escalated by the number of detected loops: one loop takes O(1) to O(n)
    and O(n) to O(n^2); two or more loops take O(1) and O(n) to O(n^2) and
    every base ranked above O(n) to O(n^3). Hence code with at least two
    loop matches and a merge is classified O(n^3). *)
Theorem loops_escalate_the_base :
  (forall code : str,
     t_notation (analyze_time_complexity code) =
     adjust_for_loops (count_loops code) (base_time_complexity code)) /\
  adjust_for_loops 1 O_1 = O_n /\
  adjust_for_loops 1 O_n = O_n2 /\
  (forall n : nat, (2 <= n)%nat ->
     adjust_for_loops n O_1 = O_n2 /\
     adjust_for_loops n O_n = O_n2 /\
     (forall base : complexity,
        (index time_complexity_order O_n < index time_complexity_order base)%nat ->
        adjust_for_loops n base = O_n3)) /\
  (forall code : str,
     (2 <= count_loops code)%nat ->
     Re.matches true "\.merge\(" code = true ->
     t_notation (analyze_time_complexity code) = O_n3).
Proof.
  assert (Htwo : forall n base, (2 <= n)%nat ->
            adjust_for_loops n base =
            match base with O_1 | O_n => O_n2 | _ => O_n3 end).
  { intros n base Hn. unfold adjust_for_loops.
    destruct (0 <? n)%nat eqn:E0; [| apply Nat.ltb_ge in E0; lia].
    destruct (n =? 1)%nat eqn:E1; [apply Nat.eqb_eq in E1; lia |].
    destruct (2 <=? n)%nat eqn:E2; [reflexivity | apply Nat.leb_gt in E2; lia]. }
  split; [| split; [| split; [| split]]].
  - intro code. reflexivity.
  - reflexivity.
  - reflexivity.
  - intros n Hn. split; [| split].
    + apply Htwo. exact Hn.
    + apply Htwo. exact Hn.
    + intros base Hbase. rewrite (Htwo n base Hn).
      destruct base; simpl in Hbase; try lia; reflexivity.
  - intros code Hloops Hmerge.
    unfold analyze_time_complexity. cbn [t_notation].
    rewrite (@base_time_complexity_quadratic code "\.merge\(");
      [| cbn [In]; auto | exact Hmerge].
    apply Htwo. exact Hloops.
Qed.

Lemma loops_escalate_the_base_witness :
  t_notation (analyze_time_complexity two_loops_and_merge) = O_n3.
Proof.
  destruct loops_escalate_the_base as (_ & _ & _ & _ & H).
  apply (H two_loops_and_merge).
  - vm_compute. lia.
  - vm_compute. reflexivity.
Defined.

(** ** Session summary *)

Lemma no_error_is_a_recovery_success :
  forall (r : execution_result) (attempts : option (list recovery_attempt)),
    is_error r = false ->
    recovery_success (analyze_error_recovery r attempts) = true /\
    has_error (analyze_error_recovery r attempts) = false.
Proof.
  intros r attempts H. unfold analyze_error_recovery. rewrite H.
  split; reflexivity.
Qed.

(** C9. The summary counts as a successful recovery every record whose
    [recovery_success] flag is set, and the recovery analysis sets that
    flag on every outcome that is not an error, while only error records
    count as errors. So the rate successful_recoveries / errors_encountered
    can exceed 1: in the sample session (one failure without repair
    attempts, two successes) it is 2. *)
Theorem recovery_success_rate_can_exceed_one :
  (forall log : list metrics,
     successful_recoveries (summarize log) =
       count_if (fun m => recovery_success (m_error_recovery m)) log /\
     errors_encountered (summarize log) =
       count_if (fun m => has_error (m_error_recovery m)) log /\
     summary_recovery_success_rate (summarize log) ==
       (if (0 <? errors_encountered (summarize log))%nat
        then qn (successful_recoveries (summarize log)) /
             qn (errors_encountered (summarize log))
        else 0)) /\
  (forall (e : env) (question generated_code : str) (r : execution_result)
          (csv_file : option str) (model : str) (execution_time : option Q)
          (attempts : option (list recovery_attempt)),
     is_error r = false ->
     let m := calculate_evaluation_metrics e question generated_code r
                csv_file model execution_time attempts in
     recovery_success (m_error_recovery m) = true /\
     has_error (m_error_recovery m) = false) /\
  errors_encountered (summarize sample_log) = 1%nat /\
  total_recovery_attempts (summarize sample_log) = 0%nat /\
  successful_recoveries (summarize sample_log) = 2%nat /\
  summary_recovery_success_rate (summarize sample_log) == 2 /\
  1 < summary_recovery_success_rate (summarize sample_log) /\
  update_metrics_summary sample_log = Some (summarize sample_log).
Proof.
  split; [| split].
  - intro log. unfold summarize.
    cbn [successful_recoveries errors_encountered summary_recovery_success_rate].
    split; [reflexivity | split; [reflexivity |]].
    destruct (0 <? _)%nat; reflexivity.
  - intros e q code r csv model t attempts H m. subst m.
    unfold calculate_evaluation_metrics. cbn [m_error_recovery].
    apply no_error_is_a_recovery_success. exact H.
  - repeat split; vm_compute; reflexivity.
Qed.

Lemma recovery_success_rate_can_exceed_one_witness :
  recovery_success
    (m_error_recovery
       (calculate_evaluation_metrics sample_env plain_question plain_code
          ok_result (Some (py "data.csv")) (py "gpt-4") (Some 0.05) (Some [])))
  = true /\
  1 < summary_recovery_success_rate (summarize sample_log).
Proof.
  destruct recovery_success_rate_can_exceed_one as (_ & Hok & _ & _ & _ & _ & Hgt & _).
  split; [| exact Hgt].
  destruct (Hok sample_env plain_question plain_code ok_result
              (Some (py "data.csv")) (py "gpt-4") (Some 0.05) (Some []))
    as [H _]; [reflexivity | exact H].
Defined.

(** ** Facts about the matcher *)

Section MatcherFacts.

Variable ic : bool.

(** [re.search] finds a match exactly when [re.findall] returns one. *)
Lemma scan_nil_iff :
  forall (r : Re.regex) (s : str) (p : option ascii) (fuel : nat),
    (length s < fuel)%nat ->
    (Re.scan fuel ic r p s = [] <-> Re.search_from ic r p s = None).
Proof.
  intros r s. induction s as [| c s IH]; intros p fuel Hfuel;
    (destruct fuel as [| f]; [lia |]); simpl.
  - destruct (Re.match_at ic r (Re.MState p [] None)); split; congruence.
  - destruct (Re.match_at ic r (Re.MState p (c :: s) None)).
    + split; congruence.
    + apply IH. simpl in Hfuel. lia.
Qed.

Lemma matches_iff_findall :
  forall (p : str) (s : str),
    Re.matches ic p s = true <-> Re.findall ic p s <> [].
Proof.
  intros p s. unfold Re.matches, Re.findall, Re.finditer, Re.search.
  pose proof (@scan_nil_iff (Re.re p) s None (S (length s)) (Nat.lt_succ_diag_r _))
    as H.
  destruct (Re.search_from ic (Re.re p) None s) eqn:E.
  - split; [intros _ Hnil | reflexivity].
    apply map_eq_nil in Hnil. apply H in Hnil. discriminate.
  - split; [discriminate | intro Hne]. exfalso. apply Hne.
    destruct H as [_ H]. rewrite (H eq_refl). reflexivity.
Qed.

End MatcherFacts.

(** ** Complexity score of the quality check *)

Lemma count_if_as_sum :
  forall (X : Type) (test : X -> bool) (l : list X),
    count_if test l = sum_nat (map (fun x => if test x then 1 else 0)%nat l).
Proof.
  intros X test l. unfold count_if.
  induction l as [| x l IH]; simpl; [reflexivity |].
  destruct (test x); simpl; rewrite IH; reflexivity.
Qed.

Lemma sum_nat_map_le :
  forall (X : Type) (f g : X -> nat) (l : list X),
    (forall x, f x <= g x)%nat ->
    (sum_nat (map f l) <= sum_nat (map g l))%nat.
Proof.
  intros X f g l H. induction l as [| x l IH]; simpl; [lia |].
  specialize (H x). lia.
Qed.

Lemma sum_nat_map_ext :
  forall (X : Type) (f g : X -> nat) (l : list X),
    (forall x, f x = g x) -> sum_nat (map f l) = sum_nat (map g l).
Proof.
  intros X f g l H. induction l as [| x l IH]; simpl; [reflexivity |].
  rewrite H, IH. reflexivity.
Qed.

Lemma keyword_present_once :
  forall (keyword : string) (code : str),
    (if Re.matches false (keyword_pattern keyword) code then 1 else 0)%nat =
    Nat.min 1 (occurrences keyword code).
Proof.
  intros keyword code. unfold occurrences.
  pose proof (matches_iff_findall false (keyword_pattern keyword) code) as H.
  destruct (Re.matches false (keyword_pattern keyword) code).
  - destruct (Re.findall false (keyword_pattern keyword) code) as [| x l].
    + exfalso. apply (proj1 H); reflexivity.
    + reflexivity.
  - destruct (Re.findall false (keyword_pattern keyword) code) as [| x l].
    + reflexivity.
    + destruct H as [_ H]. discriminate H. discriminate.
Qed.

Lemma complexity_score_unfold :
  forall code : str,
    complexity_score (check_code_quality code) =
    count_if (fun keyword : string =>
                Re.matches false (keyword_pattern keyword) code)
             complexity_keywords.
Proof. intro code. reflexivity. Qed.

(** C3, as stated, fails: two separate for-loops contribute 1 to the
    complexity score, not 2, although the keyword occurs twice. *)
Lemma complexity_score_is_not_the_occurrence_count :
  complexity_score (check_code_quality two_for_loops) = 1%nat /\
  occurrences "for" two_for_loops = 2%nat /\
  total_keyword_occurrences two_for_loops = 2%nat /\
  complexity_score (check_code_quality two_for_loops) <>
    total_keyword_occurrences two_for_loops.
Proof.
  repeat split; try (vm_compute; reflexivity).
  vm_compute. discriminate.
Qed.

(** C3, amended. The complexity score is the number of keywords of the
    vocabulary if, elif, else, for, while, try, except, with that occur in
    the code as a whole word at least once: a keyword contributes 1 however
    often it occurs. The score is therefore at most 8 and at most the total
    number of occurrences. *)
Theorem complexity_score_counts_distinct_keywords :
  forall code : str,
    complexity_score (check_code_quality code) =
      sum_nat (map (fun keyword => Nat.min 1 (occurrences keyword code))
                   complexity_keywords) /\
    (complexity_score (check_code_quality code) <= 8)%nat /\
    (complexity_score (check_code_quality code) <=
       total_keyword_occurrences code)%nat.
Proof.
  intro code. rewrite complexity_score_unfold.
  assert (E : count_if (fun keyword : string =>
                Re.matches false (keyword_pattern keyword) code)
                complexity_keywords =
              sum_nat (map (fun keyword => Nat.min 1 (occurrences keyword code))
                           complexity_keywords)).
  { rewrite count_if_as_sum. apply sum_nat_map_ext.
    intro keyword. apply keyword_present_once. }
  split; [exact E | split].
  - apply (count_if_le _ complexity_keywords).
  - rewrite E. unfold total_keyword_occurrences.
    apply sum_nat_map_le. intro keyword. apply Nat.le_min_r.
Qed.

(** ** Where a match can lie *)

(** [s'] is what is left of [s] after some prefix. *)
Definition suffix (s' s : str) : Prop := exists pre : str, s = pre ++ s'.

Lemma suffix_refl : forall s : str, suffix s s.
Proof. intro s. exists []. reflexivity. Qed.

Lemma suffix_trans :
  forall s1 s2 s3 : str, suffix s1 s2 -> suffix s2 s3 -> suffix s1 s3.
Proof.
  intros s1 s2 s3 [p1 ->] [p2 ->]. exists (p2 ++ p1). apply app_assoc.
Qed.

Lemma suffix_cons : forall (c : ascii) (s : str), suffix s (c :: s).
Proof. intros c s. exists [c]. reflexivity. Qed.

Lemma contains_suffix :
  forall (p s' s : str),
    suffix s' s -> PyStr.starts_with p s' = true -> PyStr.contains p s = true.
Proof.
  intros p s' s [pre ->] H. induction pre as [| c pre IH]; simpl.
  - destruct s'; simpl; rewrite H; reflexivity.
  - rewrite IH. apply orb_true_r.
Qed.

Section RunFacts.

Variable ic : bool.
Variable A : Type.

Definition reaches (st : Re.mstate) (k : Re.mstate -> option A) (a : A) : Prop :=
  exists st' : Re.mstate,
    suffix (Re.rest st') (Re.rest st) /\ k st' = Some a.

Lemma reaches_trans :
  forall (st st1 : Re.mstate) (k : Re.mstate -> option A) (a : A),
    suffix (Re.rest st1) (Re.rest st) -> reaches st1 k a -> reaches st k a.
Proof.
  intros st st1 k a Hs (st' & Hs' & Hk). exists st'. split; [| exact Hk].
  exact (suffix_trans Hs' Hs).
Qed.

Lemma iter_reaches :
  forall step : Re.mstate -> (Re.mstate -> option A) -> option A,
    (forall st k a, step st k = Some a -> reaches st k a) ->
    forall (fuel : nat) (st : Re.mstate) (k : Re.mstate -> option A) (a : A),
      Re.iter fuel step st k = Some a -> reaches st k a.
Proof.
  intros step Hstep fuel. induction fuel as [| f IH]; intros st k a H; simpl in H.
  - exists st. split; [apply suffix_refl | exact H].
  - destruct (step st _) as [a' |] eqn:E.
    + injection H as ->.
      apply Hstep in E. destruct E as (st1 & Hs1 & Hk1).
      destruct (length (Re.rest st1) <? length (Re.rest st))%nat; [| discriminate].
      apply (@reaches_trans st st1 k a Hs1). apply IH. exact Hk1.
    + exists st. split; [apply suffix_refl | exact H].
Qed.

(** A successful run hands a position further right to its continuation. *)
Lemma run_reaches :
  forall (r : Re.regex) (st : Re.mstate) (k : Re.mstate -> option A) (a : A),
    Re.run ic r st k = Some a -> reaches st k a.
Proof.
  intro r. induction r as [| c | r1 IH1 r2 IH2 | r1 IH1 r2 IH2 | r1 IH1
                           | r1 IH1 | r1 IH1 | | | r1 IH1];
    intros st k a H; simpl in H.
  - exists st. split; [apply suffix_refl | exact H].
  - destruct (Re.rest st) as [| x s'] eqn:E; [discriminate |].
    destruct (Re.class_match ic c x); [| discriminate].
    exists (Re.MState (Some x) s' (Re.cap st)). split; [| exact H].
    simpl. rewrite E. apply suffix_cons.
  - apply IH1 in H. destruct H as (st1 & Hs1 & H).
    apply (@reaches_trans st st1 k a Hs1). apply IH2. exact H.
  - destruct (Re.run ic r1 st k) as [a' |] eqn:E.
    + injection H as ->. apply IH1. exact E.
    + apply IH2. exact H.
  - exact (@iter_reaches (Re.run ic r1) IH1 _ st k a H).
  - apply IH1 in H. destruct H as (st1 & Hs1 & H).
    apply (@reaches_trans st st1 k a Hs1).
    exact (@iter_reaches (Re.run ic r1) IH1 _ st1 k a H).
  - destruct (Re.run ic r1 st k) as [a' |] eqn:E.
    + injection H as ->. apply IH1. exact E.
    + exists st. split; [apply suffix_refl | exact H].
  - destruct (Re.at_boundary st); [| discriminate].
    exists st. split; [apply suffix_refl | exact H].
  - destruct (Re.at_line_start st); [| discriminate].
    exists st. split; [apply suffix_refl | exact H].
  - apply IH1 in H. destruct H as (st1 & Hs1 & H).
    eexists. split; [| exact H]. exact Hs1.
Qed.

(** A run of [r1] followed by [r2] starts a run of [r2] further right. *)
Lemma run_seq_reaches :
  forall (r1 r2 : Re.regex) (st : Re.mstate) (k : Re.mstate -> option A) (a : A),
    Re.run ic (Re.Seq r1 r2) st k = Some a ->
    exists st' : Re.mstate,
      suffix (Re.rest st') (Re.rest st) /\ Re.run ic r2 st' k = Some a.
Proof.
  intros r1 r2 st k a H. simpl in H. apply run_reaches in H. exact H.
Qed.

End RunFacts.

(** A pattern that matches nowhere in [s] is not found by [re.findall]. *)
Lemma scan_no_match :
  forall (ic : bool) (r : Re.regex) (fuel : nat) (p : option ascii) (s : str),
    (forall (p' : option ascii) (s' : str),
       suffix s' s -> Re.match_at ic r (Re.MState p' s' None) = None) ->
    Re.scan fuel ic r p s = [].
Proof.
  intros ic r fuel. induction fuel as [| f IH]; intros p s H; simpl; [reflexivity |].
  rewrite (H p s (suffix_refl s)).
  destruct s as [| c s']; [reflexivity |].
  apply IH. intros p' s'' Hs. apply H.
  exact (suffix_trans Hs (suffix_cons c s')).
Qed.

Lemma contains_of_suffix :
  forall (p s' s : str),
    suffix s' s -> PyStr.contains p s' = true -> PyStr.contains p s = true.
Proof.
  intros p s' s [pre ->] H. induction pre as [| c pre IH]; [exact H |].
  simpl. rewrite IH. apply orb_true_r.
Qed.

Lemma run_lit_seq :
  forall (A : Type) (c : ascii) (r2 : Re.regex) (st : Re.mstate)
         (k : Re.mstate -> option A) (a : A),
    Re.run false (Re.Seq (Re.Chr (Re.CLit c)) r2) st k = Some a ->
    exists s' : str,
      Re.rest st = c :: s' /\
      Re.run false r2 (Re.MState (Some c) s' (Re.cap st)) k = Some a.
Proof.
  intros A c r2 st k a H. simpl in H.
  destruct (Re.rest st) as [| x s'] eqn:E; [discriminate |].
  unfold Re.same_char in H.
  destruct (Ascii.eqb c x) eqn:Ex; [| discriminate].
  apply Ascii.eqb_eq in Ex. subst x. exists s'. split; [reflexivity | exact H].
Qed.

(** A run of [by...] starts on the letters b, y. *)
Lemma run_by :
  forall (A : Type) (r : Re.regex) (st : Re.mstate)
         (k : Re.mstate -> option A) (a : A),
    Re.run false (Re.Seq (Re.Chr (Re.CLit "b")) (Re.Seq (Re.Chr (Re.CLit "y")) r))
           st k = Some a ->
    PyStr.starts_with "by" (Re.rest st) = true.
Proof.
  intros A r st k a H.
  apply run_lit_seq in H. destruct H as (s1 & E1 & H).
  apply run_lit_seq in H. destruct H as (s2 & E2 & H).
  simpl in E2. rewrite E1, E2. reflexivity.
Qed.

Ltac compile_pattern H :=
  match type of H with
  | context [Re.re ?p] =>
      let r := eval vm_compute in (Re.re p) in
      change (Re.re p) with r in H
  end.

(** Both phrasings of a grouping list contain the word [by]. *)
Lemma groupby_patterns_need_by :
  forall p : string,
    In p groupby_patterns ->
    forall (prev : option ascii) (s : str) (st' : Re.mstate),
      Re.match_at false (Re.re p) (Re.MState prev s None) = Some st' ->
      PyStr.contains "by" s = true.
Proof.
  intros p [<- | [<- | []]] prev s st' H; unfold Re.match_at in H;
    compile_pattern H;
    pose proof (suffix_refl (Re.rest (Re.MState prev s None))) as Hs.
  - do 6 (let st1 := fresh "st" in
          let Hs1 := fresh "Hs" in
          apply run_seq_reaches in H; destruct H as (st1 & Hs1 & H);
          pose proof (suffix_trans Hs1 Hs) as Hs'; clear Hs; rename Hs' into Hs).
    apply run_by in H. exact (@contains_suffix _ _ _ Hs H).
  - apply run_by in H. exact (@contains_suffix _ _ _ Hs H).
Qed.

Lemma no_by_no_groupby_columns :
  forall question_lower : str,
    PyStr.contains "by" question_lower = false ->
    groupby_columns_mentioned question_lower = [].
Proof.
  intros q H.
  assert (Hnone : forall p : string, In p groupby_patterns ->
                    Re.findall_group false p q = []).
  { intros p Hp. unfold Re.findall_group, Re.finditer.
    rewrite scan_no_match; [reflexivity |].
    intros p' s' Hs.
    destruct (Re.match_at false (Re.re p) (Re.MState p' s' None)) as [st' |] eqn:E;
      [| reflexivity].
    apply (@groupby_patterns_need_by p Hp) in E.
    rewrite (@contains_of_suffix _ s' q Hs E) in H. discriminate. }
  unfold groupby_columns_mentioned.
  induction groupby_patterns as [| p ps IH]; simpl; [reflexivity |].
  rewrite (Hnone p (or_introl eq_refl)). simpl.
  apply IH. intros p' Hp'. apply Hnone. right. exact Hp'.
Qed.

(** ** Requirement coverage *)

Lemma mentions_app :
  forall (k1 k2 : list string) (q : str),
    mentions (k1 ++ k2) q = mentions k1 q || mentions k2 q.
Proof. intros k1 k2 q. unfold mentions, any. apply existsb_app. Qed.

Lemma not_mentioned_count :
  forall (keywords : list string) (q : str),
    mentions keywords q = false ->
    count_if (fun keyword : string => PyStr.contains keyword q) keywords = O.
Proof.
  intros keywords q. unfold mentions, any, count_if.
  induction keywords as [| k ks IH]; simpl; [reflexivity |].
  destruct (PyStr.contains k q); simpl; [discriminate | exact IH].
Qed.

Lemma check_groupby_not_mentioned :
  forall question_lower generated_code : str,
    groupby_columns_mentioned question_lower = [] ->
    check_groupby question_lower generated_code = (1.0, 0.3, []).
Proof.
  intros q code H. unfold check_groupby. rewrite H.
  destruct (Re.matches true "\.groupby\(" code); reflexivity.
Qed.

(** With no groupby list in the question the coverage is complete as soon
    as no filter, sort or join keyword occurs, whatever the code is. *)
Lemma full_coverage_by_default :
  forall question generated_code : str,
    mentions filter_keywords (PyStr.lower question) = false ->
    groupby_columns_mentioned (PyStr.lower question) = [] ->
    mentions sort_keywords (PyStr.lower question) = false ->
    mentions join_keywords (PyStr.lower question) = false ->
    analyze_requirement_coverage question generated_code =
    RequirementCoverage ((0.0 + 0.3 + 0.3 + 0.2 + 0.2) / (0.0 + 0.3 + 0.3 + 0.2 + 0.2))
                        (CoverageDetails 1.0 1.0 1.0 1.0 []).
Proof.
  intros q code Hf Hg Hs Hj. unfold analyze_requirement_coverage.
  unfold check_filters, filter_count.
  rewrite (@not_mentioned_count _ _ Hf).
  rewrite (@check_groupby_not_mentioned _ code Hg).
  unfold check_sorting, check_join. rewrite Hs, Hj. reflexivity.
Qed.

(** C6. When the question contains none of the filter, groupby, sort and
    join keywords, every sub-check keeps its full credit and the coverage
    score is exactly 1, with no missing requirement recorded; this holds
    for every code string, in particular for code with none of the
    corresponding constructs. *)
Theorem coverage_is_full_without_requirements :
  forall question generated_code : str,
    mentions (filter_keywords ++ groupby_keywords ++ sort_keywords ++ join_keywords)
             (PyStr.lower question) = false ->
    let c := analyze_requirement_coverage question generated_code in
    coverage_score c == 1.0 /\
    filter_conditions_coverage (c_details c) == 1.0 /\
    groupby_columns_coverage (c_details c) == 1.0 /\
    sorting_coverage (c_details c) == 1.0 /\
    join_conditions_coverage (c_details c) == 1.0 /\
    missing_requirements (c_details c) = [].
Proof.
  intros q code H c. subst c.
  rewrite !mentions_app in H.
  apply orb_false_iff in H. destruct H as [Hf H].
  apply orb_false_iff in H. destruct H as [Hg H].
  apply orb_false_iff in H. destruct H as [Hs Hj].
  assert (Hby : PyStr.contains "by" (PyStr.lower q) = false).
  { unfold mentions, any, groupby_keywords in Hg. simpl in Hg.
    apply orb_false_iff in Hg. destruct Hg as [_ Hg].
    apply orb_false_iff in Hg. destruct Hg as [Hg _]. exact Hg. }
  rewrite (@full_coverage_by_default q code Hf
             (@no_by_no_groupby_columns _ Hby) Hs Hj).
  cbn [coverage_score c_details filter_conditions_coverage
       groupby_columns_coverage sorting_coverage join_conditions_coverage
       missing_requirements].
  repeat split; reflexivity.
Qed.

Lemma coverage_is_full_without_requirements_witness :
  coverage_score (analyze_requirement_coverage plain_question plain_code) == 1.0 /\
  missing_requirements
    (c_details (analyze_requirement_coverage plain_question plain_code)) = [].
Proof.
  destruct (coverage_is_full_without_requirements plain_question plain_code)
    as (H & _ & _ & _ & _ & Hm).
  - vm_compute. reflexivity.
  - split; [exact H | exact Hm].
Defined.

(** What each sub-check guarantees about its coverage [cov], the amount
    [added] to the score under the weight [w], and its [notes]. *)
Definition sound_check (w : Q) (res : Q * Q * list str) : Prop :=
  let '(cov, added, notes) := res in
  0 <= cov /\ cov <= 1 /\ added == cov * w /\ (notes = [] <-> cov == 1).

Lemma sound_full : forall w : Q, sound_check w (1.0, 1.0 * w, []).
Proof.
  intro w. unfold sound_check.
  split; [discriminate | split; [discriminate | split; [reflexivity |]]].
  split; reflexivity.
Qed.

Lemma sound_default : forall w : Q, sound_check w (1.0, w, []).
Proof.
  intro w. unfold sound_check.
  split; [discriminate | split; [discriminate | split; [ring |]]].
  split; reflexivity.
Qed.

Lemma sound_missing :
  forall (w : Q) (note : str), sound_check w (0.0, 0.0 * w, [note]).
Proof.
  intros w note. unfold sound_check.
  split; [discriminate | split; [discriminate | split; [reflexivity |]]].
  split; discriminate.
Qed.

Lemma check_filters_sound :
  forall question_lower generated_code : str,
    sound_check 0.3 (check_filters question_lower generated_code).
Proof.
  intros q code. unfold check_filters.
  destruct (1 <? filter_count q)%nat eqn:E1; [| apply sound_default].
  destruct (filter_count q <=? filter_ops code)%nat eqn:E2; [apply sound_full |].
  apply Nat.ltb_lt in E1. apply Nat.leb_gt in E2.
  assert (Hpos : (0 < filter_count q)%nat) by lia.
  destruct (@share_bounds (filter_ops code) (filter_count q) Hpos) as [H0 H1];
    [lia |].
  pose proof (@share_lt_1 (filter_ops code) (filter_count q) E2) as Hlt.
  unfold sound_check.
  split; [exact H0 | split; [exact H1 | split; [reflexivity |]]].
  split; [discriminate |].
  intro E. rewrite E in Hlt. discriminate.
Qed.

Lemma check_groupby_sound :
  forall question_lower generated_code : str,
    sound_check 0.3 (check_groupby question_lower generated_code).
Proof.
  intros q code. unfold check_groupby.
  destruct (groupby_columns_mentioned q) as [| col cols] eqn:Em.
  - destruct (Re.matches true "\.groupby\(" code); apply sound_default.
  - destruct (Re.search true groupby_call_pattern code) as [gm |];
      [| apply sound_missing].
    set (mentioned := col :: cols).
    set (matched := count_if _ mentioned).
    assert (Hle : (matched <= length mentioned)%nat) by apply count_if_le.
    assert (Hpos : (0 < length mentioned)%nat) by (simpl; lia).
    destruct (@share_bounds matched (length mentioned) Hpos Hle) as [H0 H1].
    unfold sound_check.
    split; [exact H0 | split; [exact H1 | split; [reflexivity |]]].
    destruct (Qltb (qn matched / qn (length mentioned)) 1.0) eqn:E.
    + apply Qltb_lt in E. split; [discriminate |].
      intro E1. rewrite E1 in E. discriminate.
    + apply Qltb_ge in E. split; [intros _ | reflexivity].
      apply Qle_antisym; [exact H1 |].
      apply (Qle_trans _ 1.0); [discriminate | exact E].
Qed.

Lemma check_sorting_sound :
  forall question_lower generated_code : str,
    sound_check 0.2 (check_sorting question_lower generated_code).
Proof.
  intros q code. unfold check_sorting.
  destruct (mentions sort_keywords q); [| apply sound_default].
  destruct (Re.matches true sort_call_pattern code);
    [apply sound_full | apply sound_missing].
Qed.

Lemma check_join_sound :
  forall question_lower generated_code : str,
    sound_check 0.2 (check_join question_lower generated_code).
Proof.
  intros q code. unfold check_join.
  destruct (mentions join_keywords q); [| apply sound_default].
  destruct (Re.matches true join_call_pattern code);
    [apply sound_full | apply sound_missing].
Qed.

(** The normalisation by the constant maximum leaves the sum as it is. *)
Lemma normalised_by_max :
  forall a1 a2 a3 a4 : Q,
    (if Qltb 0 (0.0 + 0.3 + 0.3 + 0.2 + 0.2)
     then (0.0 + a1 + a2 + a3 + a4) / (0.0 + 0.3 + 0.3 + 0.2 + 0.2)
     else 1.0) == a1 + a2 + a3 + a4.
Proof.
  intros a1 a2 a3 a4.
  change (Qltb 0 (0.0 + 0.3 + 0.3 + 0.2 + 0.2)) with true. cbv iota.
  assert (E : 0.0 + 0.3 + 0.3 + 0.2 + 0.2 == 1) by reflexivity.
  rewrite E. field.
Qed.

(** The coverage score is the weighted sum of the four coverages. *)
Lemma coverage_score_weighted :
  forall question generated_code : str,
    let c := analyze_requirement_coverage question generated_code in
    let d := c_details c in
    coverage_score c ==
      0.3 * filter_conditions_coverage d + 0.3 * groupby_columns_coverage d +
      0.2 * sorting_coverage d + 0.2 * join_conditions_coverage d /\
    0 <= filter_conditions_coverage d <= 1 /\
    0 <= groupby_columns_coverage d <= 1 /\
    0 <= sorting_coverage d <= 1 /\
    0 <= join_conditions_coverage d <= 1 /\
    (missing_requirements d = [] <->
       filter_conditions_coverage d == 1 /\ groupby_columns_coverage d == 1 /\
       sorting_coverage d == 1 /\ join_conditions_coverage d == 1).
Proof.
  intros q code c d. subst d c. unfold analyze_requirement_coverage.
  pose proof (check_filters_sound (PyStr.lower q) code) as H1.
  pose proof (check_groupby_sound (PyStr.lower q) code) as H2.
  pose proof (check_sorting_sound (PyStr.lower q) code) as H3.
  pose proof (check_join_sound (PyStr.lower q) code) as H4.
  destruct (check_filters (PyStr.lower q) code) as [[c1 a1] n1].
  destruct (check_groupby (PyStr.lower q) code) as [[c2 a2] n2].
  destruct (check_sorting (PyStr.lower q) code) as [[c3 a3] n3].
  destruct (check_join (PyStr.lower q) code) as [[c4 a4] n4].
  cbn [coverage_score c_details filter_conditions_coverage
       groupby_columns_coverage sorting_coverage join_conditions_coverage
       missing_requirements].
  unfold sound_check in H1, H2, H3, H4.
  destruct H1 as (L1 & U1 & E1 & N1). destruct H2 as (L2 & U2 & E2 & N2).
  destruct H3 as (L3 & U3 & E3 & N3). destruct H4 as (L4 & U4 & E4 & N4).
  split; [rewrite normalised_by_max; rewrite E1, E2, E3, E4; ring |].
  split; [split; assumption |]. split; [split; assumption |].
  split; [split; assumption |]. split; [split; assumption |].
  split.
  - intro H.
    apply app_eq_nil in H. destruct H as [F1 H].
    apply app_eq_nil in H. destruct H as [F2 H].
    apply app_eq_nil in H. destruct H as [F3 F4].
    split; [apply N1; exact F1 |]. split; [apply N2; exact F2 |].
    split; [apply N3; exact F3 | apply N4; exact F4].
  - intros (F1 & F2 & F3 & F4).
    apply N1 in F1. apply N2 in F2. apply N3 in F3. apply N4 in F4.
    subst. reflexivity.
Qed.

(** C10. The list of missing requirements is empty exactly when the
    coverage score is 1: a note is recorded exactly when one of the four
    sub-checks (filters, groupby columns, sorting, join) earns less than
    its full credit. *)
Theorem missing_requirements_iff_coverage_below_one :
  forall question generated_code : str,
    let c := analyze_requirement_coverage question generated_code in
    let d := c_details c in
    (missing_requirements d = [] <-> coverage_score c == 1.0) /\
    (missing_requirements d <> [] <->
       filter_conditions_coverage d < 1.0 \/ groupby_columns_coverage d < 1.0 \/
       sorting_coverage d < 1.0 \/ join_conditions_coverage d < 1.0).
Proof.
  intros q code c d.
  destruct (coverage_score_weighted q code)
    as (Hs & [L1 U1] & [L2 U2] & [L3 U3] & [L4 U4] & Hn).
  fold c in Hs, L1, U1, L2, U2, L3, U3, L4, U4, Hn.
  fold d in Hs, L1, U1, L2, U2, L3, U3, L4, U4, Hn.
  set (f := filter_conditions_coverage d) in *.
  set (g := groupby_columns_coverage d) in *.
  set (s := sorting_coverage d) in *.
  set (j := join_conditions_coverage d) in *.
  assert (Hall : (f == 1 /\ g == 1 /\ s == 1 /\ j == 1) <-> coverage_score c == 1.0).
  { rewrite Hs. split.
    - intros (F & G & S & J). lra.
    - intro H. repeat split; lra. }
  split.
  - rewrite Hn. exact Hall.
  - split.
    + intro Hne.
      destruct (Qlt_le_dec f 1.0) as [|F]; [auto |].
      destruct (Qlt_le_dec g 1.0) as [|G]; [auto |].
      destruct (Qlt_le_dec s 1.0) as [|S]; [auto |].
      destruct (Qlt_le_dec j 1.0) as [|J]; [auto |].
      exfalso. apply Hne. apply Hn. repeat split; lra.
    + intros Hlt Hnil. apply Hn in Hnil. destruct Hnil as (F & G & S & J).
      destruct Hlt as [H | [H | [H | H]]]; lra.
Qed.

(** ** Range of the scores *)

(** C1 fails on the code. The statistical table holds six operations of
    weight 0.1 although its share of the maximum is 0.3, so a question
    that asks for five statistics, answered by code that computes them,
    earns 0.4 + 0.3 + 0.5 out of 1.0: the understanding score is 1.2, and
    with every other score at 1 the overall score is 1.03. *)
Theorem understanding_score_exceeds_one :
  let m := many_stats_metrics in
  let u := m_prompt_understanding m in
  column_extraction_score (u_details u) == 0.4 /\
  nl_parsing_score (u_details u) == 0.3 /\
  statistical_understanding_score (u_details u) == 0.5 /\
  understanding_score u == 1.2 /\
  1 < understanding_score u /\
  overall_score m == 1.03 /\
  1 < overall_score m.
Proof.
  intros m u.
  split; [vm_compute; reflexivity |]. split; [vm_compute; reflexivity |].
  split; [vm_compute; reflexivity |]. split; [vm_compute; reflexivity |].
  split; [vm_compute; reflexivity |]. split; vm_compute; reflexivity.
Qed.

(** The remaining scores do stay in the unit interval; the lemmas below
    bound each of them, and the understanding score by 1.3. *)

Lemma Qmax_bounds :
  forall x : Q, x <= 1 -> 0 <= Qmax 0 x /\ Qmax 0 x <= 1.
Proof.
  intros x H. unfold Qmax. destruct (Qle_bool 0 x) eqn:E.
  - apply Qle_bool_iff in E. split; assumption.
  - split; [apply Qle_refl | discriminate].
Qed.

Lemma score_correctness_bounds :
  forall v s : bool,
    0 <= score_correctness v s /\ score_correctness v s <= 1.
Proof. intros [|] [|]; split; discriminate. Qed.

Lemma safety_score_bounds :
  forall code : str,
    0 <= safety_score (check_code_safety code) /\
    safety_score (check_code_safety code) <= 1.
Proof.
  intro code. unfold check_code_safety. cbn [safety_score].
  destruct (length (find_safety_issues code) =? 0)%nat.
  - split; discriminate.
  - apply Qmax_bounds.
    pose proof (qn_nonneg (length (find_safety_issues code))). lra.
Qed.

Lemma readability_score_bounds :
  forall code : str,
    (0 <= readability_score (check_code_quality code) <= 10)%Z.
Proof.
  intro code. unfold check_code_quality. cbn [readability_score].
  destruct (Qltb _ _); destruct (negb _ && _); destruct (5 <? _)%nat; lia.
Qed.

Lemma inject_Z_bounds :
  forall z : Z, (0 <= z <= 10)%Z -> 0 <= inject_Z z /\ inject_Z z <= 10.
Proof.
  intros z [H0 H1]. split.
  - change 0 with (inject_Z 0). rewrite <- Zle_Qle. exact H0.
  - change 10 with (inject_Z 10). rewrite <- Zle_Qle. exact H1.
Qed.

Lemma score_quality_bounds :
  forall (v : bool) (code : str),
    0 <= score_quality v (check_code_quality code) (check_code_safety code) /\
    score_quality v (check_code_quality code) (check_code_safety code) <= 1.
Proof.
  intros v code. unfold score_quality.
  destruct (safety_score_bounds code) as [S0 S1].
  destruct (inject_Z_bounds (readability_score_bounds code)) as [R0 R1].
  set (ss := safety_score (check_code_safety code)) in *.
  set (r := inject_Z (readability_score (check_code_quality code))) in *.
  assert (E : r / 10 == r * 0.1) by (field).
  destruct v; destruct (has_imports _ && _); rewrite E; split; lra.
Qed.

Lemma complexity_scores_bounds :
  forall c : complexity, 0 <= complexity_scores c /\ complexity_scores c <= 1.
Proof. intros []; split; discriminate. Qed.

Lemma space_scores_bounds :
  forall c : complexity, 0 <= space_scores c /\ space_scores c <= 1.
Proof. intros []; split; discriminate. Qed.

Lemma score_performance_bounds :
  forall (e : env) (t : option Q) (code : str) (csv_file : option str) (ok : bool),
    let p := score_performance t (length code) (analyze_time_complexity code)
               (analyze_space_complexity e code csv_file) ok in
    0 <= p /\ p <= 1.
Proof.
  intros e t code csv ok p. subst p. unfold score_performance.
  unfold analyze_time_complexity, analyze_space_complexity. cbn [t_score s_score].
  destruct (complexity_scores_bounds
              (adjust_for_loops (count_loops code) (base_time_complexity code)))
    as [T0 T1].
  destruct (space_scores_bounds
              (scan_ops space_complexity_order space_indicators code))
    as [S0 S1].
  set (ts := complexity_scores _) in *. set (ss := space_scores _) in *.
  destruct t as [t |];
    [destruct (Qltb t 0.1); [| destruct (Qltb t 1.0); [| destruct (Qltb t 5.0)]] |];
    destruct (length code <? 500)%nat; destruct (length code <? 1000)%nat;
    destruct ok; split; lra.
Qed.

Lemma coverage_score_bounds :
  forall question generated_code : str,
    0 <= coverage_score (analyze_requirement_coverage question generated_code) /\
    coverage_score (analyze_requirement_coverage question generated_code) <= 1.
Proof.
  intros q code.
  destruct (coverage_score_weighted q code)
    as (Hs & [L1 U1] & [L2 U2] & [L3 U3] & [L4 U4] & _).
  rewrite Hs. split; lra.
Qed.

Lemma fix_quality_bounds :
  forall (message : option str) (a : recovery_attempt),
    0 <= fix_quality message a /\ fix_quality message a <= 1.
Proof.
  intros message a. unfold fix_quality.
  destruct (a_success a); [split; discriminate |].
  destruct (negb _); split; discriminate.
Qed.

Lemma Qsum_bounds :
  forall l : list Q,
    (forall x, In x l -> 0 <= x /\ x <= 1) ->
    0 <= Qsum l /\ Qsum l <= qn (length l).
Proof.
  intro l. induction l as [| x l IH]; intro H.
  - split; discriminate.
  - destruct (H x (or_introl eq_refl)) as [X0 X1].
    destruct IH as [S0 S1]; [intros y Hy; apply H; right; exact Hy |].
    assert (E : qn (length (x :: l)) == 1 + qn (length l)).
    { unfold qn. cbn [length]. rewrite Nat2Z.inj_succ, <- Z.add_1_l.
      rewrite inject_Z_plus. reflexivity. }
    cbn [Qsum]. rewrite E. split; lra.
Qed.

(** The mean of values of the unit interval lies in it. *)
Lemma mean_bounds :
  forall l : list Q,
    l <> [] ->
    (forall x, In x l -> 0 <= x /\ x <= 1) ->
    0 <= Qsum l / qn (length l) /\ Qsum l / qn (length l) <= 1.
Proof.
  intros l Hne H. destruct (@Qsum_bounds l H) as [S0 S1].
  assert (Hpos : 0 < qn (length l)).
  { apply qn_pos. destruct l; [congruence | simpl; lia]. }
  split.
  - apply Qle_shift_div_l; [exact Hpos |]. rewrite Qmult_0_l. exact S0.
  - apply Qle_shift_div_r; [exact Hpos |]. rewrite Qmult_1_l. exact S1.
Qed.

Lemma recovery_score_bounds :
  forall (r : execution_result) (attempts : option (list recovery_attempt)),
    0 <= recovery_score (analyze_error_recovery r attempts) /\
    recovery_score (analyze_error_recovery r attempts) <= 1.
Proof.
  intros r attempts. unfold analyze_error_recovery.
  destruct (is_error r); cbn [negb]; [| split; discriminate].
  destruct (match attempts with Some l => l | None => [] end) as [| a l] eqn:E;
    cbn [recovery_score]; [split; discriminate |].
  set (as_ := a :: l).
  set (message := Some _).
  destruct (@share_bounds (count_if a_success as_) (length as_)) as [R0 R1];
    [simpl; lia | apply count_if_le |].
  destruct (@mean_bounds (map (fix_quality message) as_)) as [M0 M1].
  { discriminate. }
  { intros x Hx. apply in_map_iff in Hx. destruct Hx as (b & <- & _).
    apply fix_quality_bounds. }
  pose proof (Qmin_le_r (qn (length as_) / 3.0) 1.0) as N1.
  assert (N0 : 0 <= Qmin (qn (length as_) / 3.0) 1.0).
  { apply Qmin_glb; [| discriminate].
    apply Qle_shift_div_l; [reflexivity |]. rewrite Qmult_0_l. apply qn_nonneg. }
  set (rate := qn (count_if a_success as_) / qn (length as_)) in *.
  set (quality := Qsum _ / qn _) in *.
  set (effort := Qmin _ _) in *.
  assert (U1 : 1.0 == 1) by reflexivity.
  split; lra.
Qed.

Lemma score_column_extraction_bounds :
  forall mentioned extracted : list str,
    0 <= score_column_extraction mentioned extracted /\
    score_column_extraction mentioned extracted <= 0.4.
Proof.
  intros mentioned extracted. unfold score_column_extraction.
  destruct mentioned as [| m ms]; destruct extracted as [| x xs];
    try (split; discriminate).
  set (l := m :: ms). set (ex := x :: xs).
  destruct (@share_bounds (count_if (fun col => mem col ex) l) (length l))
    as [H0 H1]; [simpl; lia | apply count_if_le |].
  split; lra.
Qed.

(** A pattern table earns at most the sum of its weights. *)
Lemma fold_table_bounds :
  forall (partial : Q) (q code : str) (table : list pattern_info) (acc : Q),
    0 <= partial -> partial <= 1 ->
    (forall info, In info table -> 0 <= weight info) ->
    let total :=
      fold_left (fun score info =>
        if question_matches q info then
          if code_matches code info
          then score + weight info
          else score + weight info * partial
        else score) table acc in
    acc <= total /\ total <= acc + Qsum (map weight table).
Proof.
  intros partial q code table.
  induction table as [| info table IH]; intros acc P0 P1 Hw; cbn zeta.
  - cbn [fold_left map Qsum]. split; lra.
  - cbn [fold_left map Qsum].
    assert (W : 0 <= weight info) by (apply Hw; left; reflexivity).
    assert (Hw' : forall i, In i table -> 0 <= weight i)
      by (intros i Hi; apply Hw; right; exact Hi).
    assert (WP : 0 <= weight info * partial /\ weight info * partial <= weight info)
      by (split; nra).
    destruct WP as [WP0 WP1].
    destruct (question_matches q info); [destruct (code_matches code info) |].
    + destruct (IH (acc + weight info) P0 P1 Hw') as [A B]. split; lra.
    + destruct (IH (acc + weight info * partial) P0 P1 Hw') as [A B]. split; lra.
    + destruct (IH acc P0 P1 Hw') as [A B]. split; lra.
Qed.

Lemma nl_score_bounds :
  forall q code : str,
    0 <= table_score 0.3 nl_patterns q code /\
    table_score 0.3 nl_patterns q code <= 0.3.
Proof.
  intros q code. unfold table_score.
  destruct (@fold_table_bounds 0.3 q code nl_patterns 0.0) as [A B];
    try discriminate.
  - intros info Hin. cbn [nl_patterns In] in Hin.
    repeat (destruct Hin as [<- | Hin]; [discriminate |]). contradiction.
  - assert (E : Qsum (map weight nl_patterns) == 0.3) by reflexivity.
    rewrite E in B. split; lra.
Qed.

Lemma stat_score_bounds :
  forall q code : str,
    0 <= table_score 0.2 stat_patterns q code /\
    table_score 0.2 stat_patterns q code <= 0.6.
Proof.
  intros q code. unfold table_score.
  destruct (@fold_table_bounds 0.2 q code stat_patterns 0.0) as [A B];
    try discriminate.
  - intros info Hin. cbn [stat_patterns In] in Hin.
    repeat (destruct Hin as [<- | Hin]; [discriminate |]). contradiction.
  - assert (E : Qsum (map weight stat_patterns) == 0.6) by reflexivity.
    rewrite E in B. split; lra.
Qed.

Lemma understanding_score_bounds :
  forall (e : env) (question generated_code : str) (csv_file : option str),
    let u := understanding_score
               (analyze_prompt_understanding e question generated_code csv_file) in
    0 <= u /\ u <= 1.3.
Proof.
  intros e q code csv u. subst u. unfold analyze_prompt_understanding.
  cbn [understanding_score].
  destruct (score_column_extraction_bounds
              (mentioned_in (PyStr.lower q) (load_columns e csv))
              (extract_columns code)) as [C0 C1].
  destruct (nl_score_bounds (PyStr.lower q) code) as [N0 N1].
  destruct (stat_score_bounds (PyStr.lower q) code) as [S0 S1].
  set (c := score_column_extraction _ _) in *.
  set (n := table_score 0.3 _ _ _) in *.
  set (s := table_score 0.2 _ _ _) in *.
  change (Qltb 0 (0.0 + 0.4 + 0.3 + 0.3)) with true. cbv iota.
  assert (E : (0.0 + c + n + s) / (0.0 + 0.4 + 0.3 + 0.3) == c + n + s).
  { assert (D : 0.0 + 0.4 + 0.3 + 0.3 == 1) by reflexivity.
    rewrite D. field. }
  rewrite E. split; lra.
Qed.

(** X1. Every score but the understanding score lies in [0, 1], on all inputs;
    the understanding score lies in [0, 1.3] and the overall score in
    [0, 1.045]. *)
Lemma scores_ranges :
  forall (e : env) (question generated_code : str) (r : execution_result)
         (csv_file : option str) (model : str) (execution_time : option Q)
         (attempts : option (list recovery_attempt)),
    let s := scores_of (calculate_evaluation_metrics e question generated_code r
                          csv_file model execution_time attempts) in
    (0 <= sc_correctness s /\ sc_correctness s <= 1) /\
    (0 <= sc_quality s /\ sc_quality s <= 1) /\
    (0 <= sc_performance s /\ sc_performance s <= 1) /\
    (0 <= sc_understanding s /\ sc_understanding s <= 1.3) /\
    (0 <= sc_coverage s /\ sc_coverage s <= 1) /\
    (0 <= sc_recovery s /\ sc_recovery s <= 1) /\
    (0 <= sc_overall s /\ sc_overall s <= 1.045).
Proof.
  intros e q code r csv model t attempts s. subst s.
  unfold scores_of, calculate_evaluation_metrics.
  cbn [sc_correctness sc_quality sc_performance sc_understanding sc_coverage
       sc_recovery sc_overall overall_score m_code_correctness m_code_quality
       m_performance m_prompt_understanding m_requirement_coverage
       m_error_recovery correctness_score quality_score performance_score].
  pose proof (score_correctness_bounds
                (syntax_valid (check_syntax_correctness e code))
                (negb (is_error r))) as [A0 A1].
  pose proof (score_quality_bounds
                (syntax_valid (check_syntax_correctness e code)) code) as [B0 B1].
  pose proof (score_performance_bounds e t code csv (negb (is_error r))) as [C0 C1].
  pose proof (understanding_score_bounds e q code csv) as [D0 D1].
  pose proof (coverage_score_bounds q code) as [E0 E1].
  pose proof (recovery_score_bounds r attempts) as [F0 F1].
  cbv zeta in C0, C1, D0, D1.
  set (a := score_correctness _ _) in *.
  set (b := score_quality _ _ _) in *.
  set (c := score_performance _ _ _ _ _) in *.
  set (d := understanding_score _) in *.
  set (f := coverage_score _) in *.
  set (g := recovery_score _) in *.
  repeat (split; [lra |]). lra.
Qed.

(** * Further properties of the code *)

Unset Implicit Arguments.

(** ** Finding a literal text *)

Lemma same_char_refl : forall (ic : bool) (a : ascii), Re.same_char ic a a = true.
Proof. intros [|] a; unfold Re.same_char; apply Ascii.eqb_refl. Qed.

Lemma starts_with_cons :
  forall (c : ascii) (l s : str),
    PyStr.starts_with (c :: l) s = true ->
    exists s' : str, s = c :: s' /\ PyStr.starts_with l s' = true.
Proof.
  intros c l [| x s'] H; simpl in H; [discriminate |].
  apply andb_true_iff in H. destruct H as [Hc Hl].
  apply Ascii.eqb_eq in Hc. subst x. exists s'. split; [reflexivity | exact Hl].
Qed.

(** Text that starts with [l] is read by [lits l], whatever follows. *)
Lemma run_lits :
  forall (ic : bool) (A : Type) (l : list ascii) (st : Re.mstate)
         (k : Re.mstate -> option A),
    PyStr.starts_with l (Re.rest st) = true ->
    exists st' : Re.mstate, Re.run ic (lits l) st k = k st'.
Proof.
  intros ic A l. induction l as [| c l IH]; intros st k H.
  - exists st. reflexivity.
  - apply starts_with_cons in H. destruct H as (s' & E & H).
    destruct l as [| c' l'].
    + exists (Re.MState (Some c) s' (Re.cap st)).
      simpl. rewrite E. simpl. rewrite same_char_refl. reflexivity.
    + destruct (IH (Re.MState (Some c) s' (Re.cap st)) k H) as (st' & E').
      exists st'. rewrite <- E'.
      change (lits (c :: c' :: l'))
        with (Re.Seq (Re.Chr (Re.CLit c)) (lits (c' :: l'))).
      cbn [Re.run]. rewrite E. cbn [Re.class_match].
      rewrite same_char_refl. reflexivity.
Qed.

Lemma contains_inv :
  forall (p s : str),
    PyStr.contains p s = true ->
    exists s' : str, suffix s' s /\ PyStr.starts_with p s' = true.
Proof.
  intros p s. induction s as [| c s IH]; intro H.
  - exists []. split; [apply suffix_refl |].
    simpl in H. rewrite orb_false_r in H. exact H.
  - simpl in H. apply orb_true_iff in H. destruct H as [H | H].
    + exists (c :: s). split; [apply suffix_refl | exact H].
    + destruct (IH H) as (s' & Hs & Hp). exists s'. split; [| exact Hp].
      exact (suffix_trans Hs (suffix_cons c s)).
Qed.

(** A pattern that matches at some position is found by [re.search]. *)
Lemma search_from_found :
  forall (ic : bool) (r : Re.regex) (s' : str),
    (forall p' : option ascii,
       Re.match_at ic r (Re.MState p' s' None) <> None) ->
    forall (pre : str) (p : option ascii),
      Re.search_from ic r p (pre ++ s') <> None.
Proof.
  intros ic r s' Hm pre. induction pre as [| c pre IH]; intro p.
  - specialize (Hm p). destruct s'; simpl;
      destruct (Re.match_at ic r _); congruence.
  - simpl. destruct (Re.match_at ic r _); [discriminate | apply IH].
Qed.

Lemma matches_of_match :
  forall (ic : bool) (pat s s' : str),
    suffix s' s ->
    (forall p' : option ascii,
       Re.match_at ic (Re.re pat) (Re.MState p' s' None) <> None) ->
    Re.matches ic pat s = true.
Proof.
  intros ic pat s s' [pre ->] Hm. unfold Re.matches, Re.search.
  pose proof (@search_from_found ic (Re.re pat) s' Hm pre None) as H.
  destruct (Re.search_from ic (Re.re pat) None (pre ++ s')); congruence.
Qed.

(** A pattern without special characters is found wherever its text occurs. *)
Lemma literal_found :
  forall (ic : bool) (pat : str) (text : str) (s : str),
    Re.re pat = lits text ->
    PyStr.contains text s = true ->
    Re.matches ic pat s = true.
Proof.
  intros ic pat text s E H.
  destruct (contains_inv _ _ H) as (s' & Hs & Hp).
  apply (@matches_of_match ic pat s s' Hs).
  intro p'. unfold Re.match_at. rewrite E.
  destruct (@run_lits ic Re.mstate text (Re.MState p' s' None)
              (fun st' => Some st') Hp) as (st' & ->).
  discriminate.
Qed.

(** Conversely, a pattern that matches nowhere is not found. *)
Lemma matches_false_of_no_match :
  forall (ic : bool) (pat s : str),
    (forall (p' : option ascii) (s' : str),
       suffix s' s -> Re.match_at ic (Re.re pat) (Re.MState p' s' None) = None) ->
    Re.matches ic pat s = false.
Proof.
  intros ic pat s H.
  destruct (Re.matches ic pat s) eqn:E; [| reflexivity].
  apply matches_iff_findall in E. exfalso. apply E.
  unfold Re.findall, Re.finditer. rewrite scan_no_match; [reflexivity | exact H].
Qed.

(** ** Safety check *)

Lemma issue_found :
  forall (code : str) (cat : string) (pats : list string) (pat : string),
    In (cat, pats) dangerous_patterns -> In pat pats ->
    Re.matches true pat code = true ->
    In (SafetyIssue cat pat (severity_of cat)) (find_safety_issues code).
Proof.
  intros code cat pats pat Hc Hp Hm. unfold find_safety_issues.
  apply in_flat_map. exists (cat, pats). split; [exact Hc |].
  apply in_flat_map. exists pat. split; [exact Hp |].
  rewrite Hm. left. reflexivity.
Qed.

Lemma issue_inv :
  forall (code : str) (i : safety_issue),
    In i (find_safety_issues code) ->
    exists (cat : string) (pats : list string) (pat : string),
      In (cat, pats) dangerous_patterns /\ In pat pats /\
      Re.matches true pat code = true /\
      i = SafetyIssue cat pat (severity_of cat).
Proof.
  intros code i H. unfold find_safety_issues in H.
  apply in_flat_map in H. destruct H as ([cat pats] & Hc & H).
  apply in_flat_map in H. destruct H as (pat & Hp & H).
  destruct (Re.matches true pat code) eqn:Hm; [| contradiction].
  destruct H as [<- | []].
  exists cat, pats, pat. repeat split; assumption.
Qed.

Lemma flagged_length :
  forall (X Y : Type) (test : X -> bool) (make : X -> Y) (l : list X),
    (length (flat_map (fun x => if test x then [make x] else []) l)
     <= length l)%nat.
Proof.
  intros X Y test make l. induction l as [| x l IH]; simpl; [lia |].
  destruct (test x); simpl; lia.
Qed.

Lemma issues_length :
  forall (code : str) (table : list (string * list string)),
    (length
       (flat_map (fun entry : string * list string =>
          let '(category, patterns) := entry in
          flat_map (fun pattern : string =>
            if Re.matches true pattern code
            then [SafetyIssue category pattern (severity_of category)]
            else []) patterns) table)
     <= sum_nat (map (fun entry => length (snd entry)) table))%nat.
Proof.
  intros code table. induction table as [| [cat pats] table IH];
    cbn [flat_map map sum_nat fold_right snd]; [cbn; lia |].
  rewrite length_app.
  pose proof (@flagged_length string safety_issue
                (fun pattern : string => Re.matches true pattern code)
                (fun pattern : string => SafetyIssue cat pattern (severity_of cat))
                pats) as H.
  unfold sum_nat in IH. lia.
Qed.

Lemma issues_at_most_16 :
  forall code : str, (length (find_safety_issues code) <= 16)%nat.
Proof.
  intro code. unfold find_safety_issues.
  exact (issues_length code dangerous_patterns).
Qed.

Lemma severity_of_cases :
  forall cat : string,
    (severity_of cat = "high"%string /\ (cat = "system" \/ cat = "network")%string) \/
    (severity_of cat = "medium"%string /\ cat <> "system"%string /\ cat <> "network"%string).
Proof.
  intro cat. unfold severity_of. cbn [existsb].
  destruct (String.eqb cat "system") eqn:E1.
  - apply String.eqb_eq in E1. left. split; [reflexivity | left; exact E1].
  - destruct (String.eqb cat "network") eqn:E2.
    + apply String.eqb_eq in E2. left. split; [reflexivity | right; exact E2].
    + apply String.eqb_neq in E1. apply String.eqb_neq in E2.
      right. split; [reflexivity | split; assumption].
Qed.

Lemma safety_record_is_consistent_aux :
  forall code : str,
    is_safe (check_code_safety code) = false ->
    safety_score (check_code_safety code) <= 0.8.
Proof.
  intros code E. unfold check_code_safety in *.
  cbn [is_safe safety_score] in *. rewrite E. apply Nat.eqb_neq in E.
  assert (H1 : 1 <= qn (length (find_safety_issues code))).
  { change 1 with (qn 1). apply qn_le. lia. }
  unfold Qmax. destruct (Qle_bool 0 _) eqn:E0; [lra | discriminate].
Qed.

(** X2. The safety record is consistent: the code is safe exactly when no
    issue is listed and exactly when the safety score is 1; an unsafe
    snippet scores at most 0.8 and one with five issues or more scores 0;
    at most 16 issues are listed, and an issue is of high severity exactly
    when its category is system or network (medium otherwise). *)
Theorem safety_record_is_consistent :
  forall code : str,
    let s := check_code_safety code in
    (is_safe s = true <-> safety_issues s = []) /\
    (is_safe s = true <-> safety_score s == 1) /\
    (is_safe s = false -> safety_score s <= 0.8) /\
    ((5 <= length (safety_issues s))%nat -> safety_score s == 0) /\
    (length (safety_issues s) <= 16)%nat /\
    (forall i : safety_issue,
       In i (safety_issues s) ->
       (severity i = "high"%string <->
          (category i = "system" \/ category i = "network")%string) /\
       (severity i = "high" \/ severity i = "medium")%string).
Proof.
  intros code s. subst s. unfold check_code_safety.
  cbn [is_safe safety_issues safety_score].
  set (issues := find_safety_issues code).
  assert (Hn : 0 <= qn (length issues)) by apply qn_nonneg.
  split; [| split; [| split; [| split; [| split]]]].
  - destruct issues; simpl; split; congruence.
  - destruct (length issues =? 0)%nat eqn:E.
    + split; reflexivity.
    + split; [discriminate |]. intro H. exfalso.
      apply Nat.eqb_neq in E.
      assert (H1 : 1 <= qn (length issues)).
      { change 1 with (qn 1). apply qn_le. lia. }
      unfold Qmax in H. destruct (Qle_bool 0 _) eqn:E0.
      * lra.
      * discriminate H.
  - intro E. rewrite E. apply Nat.eqb_neq in E.
    assert (H1 : 1 <= qn (length issues)).
    { change 1 with (qn 1). apply qn_le. lia. }
    unfold Qmax. destruct (Qle_bool 0 _) eqn:E0; [lra | discriminate].
  - intro H5.
    assert (H : 5 <= qn (length issues)).
    { change 5 with (qn 5). apply qn_le. exact H5. }
    destruct (length issues =? 0)%nat eqn:E; [apply Nat.eqb_eq in E; lia |].
    unfold Qmax. destruct (Qle_bool 0 _) eqn:E0; [| reflexivity].
    apply Qle_bool_iff in E0. lra.
  - apply issues_at_most_16.
  - intros i Hi. apply issue_inv in Hi.
    destruct Hi as (cat & pats & pat & _ & _ & _ & ->).
    cbn [severity category].
    destruct (severity_of_cases cat) as [[E Hc] | [E [N1 N2]]]; rewrite E.
    + split; [| left; reflexivity]. split; [intros _; exact Hc | reflexivity].
    + split; [| right; reflexivity].
      split; [discriminate | intros [H | H]; contradiction].
Qed.

Lemma dangerous_texts_compile :
  forall (text cat pat : string),
    In (text, cat, pat) dangerous_texts ->
    Re.re pat = lits text /\
    exists pats : list string, In (cat, pats) dangerous_patterns /\ In pat pats.
Proof.
  intros text cat pat H. unfold dangerous_texts in H. cbn [In] in H.
  repeat (destruct H as [E | H];
          [injection E as <- <- <-; split; [vm_compute; reflexivity |];
           eexists; split; [unfold dangerous_patterns; cbn [In]; eauto 8 |
                            cbn [In]; eauto 8] |]).
  contradiction.
Qed.

(** X3. Code that contains one of the plain dangerous texts (a file write
    such as .to_csv(, a read pd.read_, a network name such as requests.,
    or os.system, subprocess., exec(, eval() is never reported safe: the
    matching issue is listed with its category and severity, the safety
    score is at most 0.8 and the quality score of the record at most 0.94. *)
Theorem dangerous_text_is_flagged :
  forall (e : env) (question code : str) (r : execution_result)
         (csv_file : option str) (model : str) (execution_time : option Q)
         (attempts : option (list recovery_attempt))
         (text cat pat : string),
    In (text, cat, pat) dangerous_texts ->
    PyStr.contains text code = true ->
    let s := check_code_safety code in
    In (SafetyIssue cat pat (severity_of cat)) (safety_issues s) /\
    is_safe s = false /\
    safety_score s <= 0.8 /\
    quality_score
      (m_code_quality
         (calculate_evaluation_metrics e question code r csv_file model
            execution_time attempts)) <= 0.94.
Proof.
  intros e q code r csv model t attempts text cat pat Hin Hc s.
  destruct (dangerous_texts_compile _ _ _ Hin) as (Ere & pats & Hcat & Hpat).
  assert (Hm : Re.matches true pat code = true)
    by exact (@literal_found true pat text code Ere Hc).
  assert (Hissue : In (SafetyIssue cat pat (severity_of cat)) (safety_issues s))
    by exact (@issue_found code cat pats pat Hcat Hpat Hm).
  assert (Hunsafe : is_safe s = false).
  { subst s. unfold check_code_safety in *. cbn [is_safe safety_issues] in *.
    destruct (find_safety_issues code); [contradiction | reflexivity]. }
  pose proof (@safety_record_is_consistent_aux code Hunsafe) as Hs.
  split; [exact Hissue | split; [exact Hunsafe | split; [exact Hs |]]].
  unfold calculate_evaluation_metrics. cbn [m_code_quality quality_score].
  unfold score_quality.
  destruct (inject_Z_bounds (readability_score_bounds code)) as [R0 R1].
  subst s. set (ss := safety_score (check_code_safety code)) in *.
  set (rd := inject_Z (readability_score (check_code_quality code))) in *.
  assert (E : rd / 10 == rd * 0.1) by field.
  destruct (syntax_valid _); destruct (has_imports _ && _); rewrite E; lra.
Qed.

(** ** Quality check *)

(** A repetition cannot fail when what follows it cannot. *)
Lemma iter_succeeds :
  forall (A : Type) (step : Re.mstate -> (Re.mstate -> option A) -> option A)
         (k : Re.mstate -> option A),
    (forall st, k st <> None) ->
    forall (fuel : nat) (st : Re.mstate), Re.iter fuel step st k <> None.
Proof.
  intros A step k Hk fuel. induction fuel as [| f IH]; intro st; simpl.
  - apply Hk.
  - destruct (step st _); [discriminate | apply Hk].
Qed.

Lemma hash_pattern : Re.re "#.*" = Re.Seq (Re.Chr (Re.CLit "#")) (Re.Star (Re.Chr Re.CDot)).
Proof. vm_compute. reflexivity. Qed.

(** X5. The quality check reports comments exactly when the code contains
    the character #, wherever it stands (a # inside a string literal
    counts as a comment). *)
Theorem has_comments_iff_hash :
  forall code : str,
    has_comments (check_code_quality code) = true <->
    PyStr.contains "#" code = true.
Proof.
  intro code. unfold check_code_quality. cbn [has_comments].
  split; intro H.
  - destruct (PyStr.contains "#" code) eqn:E; [reflexivity |].
    rewrite matches_false_of_no_match in H; [discriminate |].
    intros p' s' Hs. rewrite hash_pattern. unfold Re.match_at.
    destruct (Re.run false _ _ _) as [st' |] eqn:R; [| reflexivity].
    apply run_lit_seq in R. destruct R as (s1 & E1 & _). cbn [Re.rest] in E1.
    assert (Hc : PyStr.contains "#" s' = true) by (rewrite E1; reflexivity).
    rewrite (@contains_of_suffix _ _ _ Hs Hc) in E. discriminate.
  - destruct (contains_inv _ _ H) as (s' & Hs & Hp).
    apply (matches_of_match false _ code s' Hs).
    intro p'. rewrite hash_pattern. unfold Re.match_at.
    apply starts_with_cons in Hp. destruct Hp as (s1 & -> & _).
    cbn [Re.run Re.rest Re.class_match]. rewrite same_char_refl.
    apply iter_succeeds. discriminate.
Qed.

(** X4. The readability score always lies between 6 and 10, so its floor
    at 0 never applies; the count of non-blank lines is at most the number
    of lines; the quality score of a record is at least 0.12, and at most
    0.8 when the code has no import line. *)
Theorem quality_metrics_ranges :
  forall (e : env) (question code : str) (r : execution_result)
         (csv_file : option str) (model : str) (execution_time : option Q)
         (attempts : option (list recovery_attempt)),
    let q := check_code_quality code in
    let m := calculate_evaluation_metrics e question code r csv_file model
               execution_time attempts in
    (6 <= readability_score q <= 10)%Z /\
    (line_count q <= length (PyStr.split Re.newline code))%nat /\
    0.12 <= quality_score (m_code_quality m) /\
    (has_imports q = false -> quality_score (m_code_quality m) <= 0.8).
Proof.
  intros e question code r csv model t attempts q m.
  assert (HR : (6 <= readability_score q <= 10)%Z).
  { subst q. unfold check_code_quality. cbn [readability_score].
    destruct (Qltb _ _); destruct (negb _ && _); destruct (5 <? _)%nat; lia. }
  split; [exact HR | split].
  - subst q. unfold check_code_quality. cbn [line_count]. apply count_if_le.
  - subst m. unfold calculate_evaluation_metrics.
    cbn [m_code_quality quality_score]. unfold score_quality.
    destruct (safety_score_bounds code) as [S0 S1].
    fold q.
    assert (R0 : 6 <= inject_Z (readability_score q)).
    { change 6 with (inject_Z 6). rewrite <- Zle_Qle. lia. }
    assert (R1 : inject_Z (readability_score q) <= 10).
    { change 10 with (inject_Z 10). rewrite <- Zle_Qle. lia. }
    set (ss := safety_score (check_code_safety code)) in *.
    set (rd := inject_Z (readability_score q)) in *.
    assert (E : rd / 10 == rd * 0.1) by field.
    split.
    + destruct (syntax_valid _); destruct (has_imports q && _); rewrite E; lra.
    + intro Hi. rewrite Hi. cbn [andb].
      destruct (syntax_valid _); rewrite E; lra.
Qed.

(** ** Complexity estimates *)

Lemma adjust_for_loops_cases :
  forall (n : nat) (base : complexity),
    (n = 0%nat /\ adjust_for_loops n base = base) \/
    (n = 1%nat /\
     adjust_for_loops n base =
       match base with O_1 => O_n | O_n => O_n2 | _ => base end) \/
    ((2 <= n)%nat /\
     adjust_for_loops n base =
       match base with O_1 | O_n => O_n2 | _ => O_n3 end).
Proof.
  intros n base. unfold adjust_for_loops.
  destruct n as [| [| n]]; [left | right; left | right; right];
    (split; [lia || reflexivity | reflexivity]).
Qed.

(** X6. Detected loops never lower the estimate: the notation ranks at
    least as high on the ladder as the base class of the data operations,
    and the time score is at most the score of the base class; without a
    detected loop the notation is the base class. The notation is never
    O(log n), so the time score is one of 1.0, 0.7, 0.5, 0.3, 0.1, and the
    estimated number of operations is the number of loop matches plus one. *)
Theorem loops_never_lower_the_estimate :
  forall code : str,
    let t := analyze_time_complexity code in
    let base := base_time_complexity code in
    (index time_complexity_order base <=
       index time_complexity_order (t_notation t))%nat /\
    t_score t <= complexity_scores base /\
    (nested_loops t = 0%nat -> t_notation t = base) /\
    t_notation t <> O_log_n /\
    In (t_score t) [1.0; 0.7; 0.5; 0.3; 0.1] /\
    estimated_operations t = (nested_loops t + 1)%nat.
Proof.
  intros code t base. subst t. unfold analyze_time_complexity.
  cbn [t_notation t_score nested_loops estimated_operations]. fold base.
  pose proof (base_time_complexity_cases code) as Hb. fold base in Hb.
  cbn [In] in Hb.
  destruct (adjust_for_loops_cases (count_loops code) base)
    as [[Hn ->] | [[Hn ->] | [Hn ->]]];
    destruct Hb as [<- | [<- | [<- | [<- | []]]]];
    (split; [cbn; lia |
     split; [cbn [complexity_scores]; discriminate |
     split; [intro H0; try reflexivity; lia |
     split; [discriminate |
     split; [cbn [complexity_scores In]; tauto | reflexivity]]]]]).
Qed.

Lemma space_notation_cases :
  forall code : str,
    In (scan_ops space_complexity_order space_indicators code) [O_1; O_n; O_n2].
Proof.
  intro code. unfold scan_ops.
  destruct (@fold_scan_cases space_complexity_order code space_indicators O_1)
    as [-> | H].
  - cbn [In]. auto.
  - cbn [In map fst space_indicators] in H. cbn [In]. tauto.
Qed.

(** X7. The space estimate is O(1), O(n) or O(n^2). The memory estimate is
    0 when no dataset file is named or its size cannot be read; otherwise
    it is the file size in megabytes times 1, 2 or 4 according to the
    class, hence between one and four times the file size. *)
Theorem space_estimate_bounds :
  forall (e : env) (code : str) (csv_file : option str),
    let sp := analyze_space_complexity e code csv_file in
    In (s_notation sp) [O_1; O_n; O_n2] /\
    In (s_score sp) [1.0; 0.6; 0.2] /\
    (truthy csv_file = None -> estimated_memory_mb sp = 0) /\
    (forall f : str,
       truthy csv_file = Some f -> getsize e f = None ->
       estimated_memory_mb sp = 0) /\
    (forall (f : str) (bytes : Q),
       truthy csv_file = Some f -> getsize e f = Some bytes ->
       estimated_memory_mb sp ==
         bytes / (1024 * 1024) * multipliers (s_notation sp) /\
       (0 <= bytes ->
        bytes / (1024 * 1024) <= estimated_memory_mb sp /\
        estimated_memory_mb sp <= 4 * (bytes / (1024 * 1024)))).
Proof.
  intros e code csv sp. subst sp. unfold analyze_space_complexity.
  cbn [s_notation s_score estimated_memory_mb].
  pose proof (space_notation_cases code) as Hc.
  set (c := scan_ops space_complexity_order space_indicators code) in *.
  split; [exact Hc |].
  split; [cbn [In] in Hc |- *;
          destruct Hc as [<- | [<- | [<- | []]]]; cbn [space_scores]; tauto |].
  split; [intros ->; reflexivity |].
  split; [intros f -> ->; reflexivity |].
  intros f bytes -> ->. split; [reflexivity |].
  intro Hb.
  assert (Hmb : 0 <= bytes / (1024 * 1024)).
  { apply Qle_shift_div_l; [reflexivity | lra]. }
  set (mb := bytes / (1024 * 1024)) in *.
  cbn [In] in Hc.
  destruct Hc as [<- | [<- | [<- | []]]]; cbn [multipliers]; split; lra.
Qed.

(** Blanks followed by a character that the continuation accepts are read
    by [\s*]. *)
Lemma iter_spaces :
  forall (ic : bool) (A : Type) (k : Re.mstate -> option A) (c : ascii) (tail : str),
    PyStr.is_space c = false ->
    (forall (p : option ascii) (g : option str),
       k (Re.MState p (c :: tail) g) <> None) ->
    forall (ws : str) (p : option ascii) (g : option str),
      forallb PyStr.is_space ws = true ->
      Re.iter (length (ws ++ c :: tail)) (Re.run ic (Re.Chr Re.CSpace))
              (Re.MState p (ws ++ c :: tail) g) k <> None.
Proof.
  intros ic A k c tail Hc Hk ws. induction ws as [| w ws IH]; intros p g Hws.
  - cbn [app length Re.iter Re.run Re.rest Re.class_match]. rewrite Hc.
    apply Hk.
  - cbn [forallb] in Hws. apply andb_true_iff in Hws. destruct Hws as [Hw Hws].
    cbn [app length Re.iter Re.run Re.rest Re.class_match Re.cap]. rewrite Hw.
    assert (E : (length (ws ++ c :: tail) <? S (length (ws ++ c :: tail)))%nat = true)
      by (apply Nat.ltb_lt; lia).
    rewrite E.
    destruct (Re.iter _ _ _ k) eqn:R; [discriminate |].
    exfalso. exact (IH (Some w) g Hws R).
Qed.

Lemma result_pattern :
  Re.re "result\s*=" =
  Re.Seq (Re.Chr (Re.CLit "r")) (Re.Seq (Re.Chr (Re.CLit "e"))
    (Re.Seq (Re.Chr (Re.CLit "s")) (Re.Seq (Re.Chr (Re.CLit "u"))
      (Re.Seq (Re.Chr (Re.CLit "l")) (Re.Seq (Re.Chr (Re.CLit "t"))
        (Re.Seq (Re.Star (Re.Chr Re.CSpace)) (Re.Chr (Re.CLit "=")))))))).
Proof. vm_compute. reflexivity. Qed.

Lemma starts_with_app :
  forall (l1 l2 s : str),
    PyStr.starts_with (l1 ++ l2) s = true ->
    exists s2 : str, s = l1 ++ s2 /\ PyStr.starts_with l2 s2 = true.
Proof.
  intros l1. induction l1 as [| c l1 IH]; intros l2 s H.
  - exists s. split; [reflexivity | exact H].
  - apply starts_with_cons in H. destruct H as (s' & -> & H).
    destruct (IH l2 s' H) as (s2 & -> & H2). exists s2. split; [reflexivity | exact H2].
Qed.

Lemma result_assignment_found :
  forall (ws code : str),
    forallb PyStr.is_space ws = true ->
    PyStr.contains ("result" ++ ws ++ "=") code = true ->
    Re.matches true "result\s*=" code = true.
Proof.
  intros ws code Hws H.
  destruct (contains_inv _ _ H) as (s' & Hs & Hp).
  apply (matches_of_match true _ code s' Hs).
  intro p'. rewrite result_pattern. unfold Re.match_at.
  change (list_ascii_of_string "result" ++ ws ++ list_ascii_of_string "=")
    with ("r"%char :: "e"%char :: "s"%char :: "u"%char :: "l"%char :: "t"%char
            :: (ws ++ ["="%char])) in Hp.
  do 6 (apply starts_with_cons in Hp; destruct Hp as (? & -> & Hp)).
  apply starts_with_app in Hp. destruct Hp as (s2 & -> & Hp).
  apply starts_with_cons in Hp. destruct Hp as (tail & -> & _).
  cbn [Re.run Re.rest Re.class_match Re.cap]. rewrite !same_char_refl.
  apply (iter_spaces true Re.mstate
           (fun st' => Re.run true (Re.Chr (Re.CLit "=")) st' (fun st2 => Some st2))
           "="%char tail); [reflexivity | | exact Hws].
  intros p g. cbn [Re.run Re.rest Re.class_match]. rewrite same_char_refl.
  discriminate.
Qed.

(** X8. Code that assigns to a variable named result (the text result,
    blanks if any, then =) is classified at least O(n) in space: its space
    score is at most 0.6 and the performance score of its record at most
    0.92. *)
Theorem result_assignment_costs_space :
  forall (e : env) (question code : str) (r : execution_result)
         (csv_file : option str) (model : str) (execution_time : option Q)
         (attempts : option (list recovery_attempt)) (ws : str),
    forallb PyStr.is_space ws = true ->
    PyStr.contains ("result" ++ ws ++ "=") code = true ->
    let m := calculate_evaluation_metrics e question code r csv_file model
               execution_time attempts in
    let sp := p_space_complexity (m_performance m) in
    s_notation sp <> O_1 /\
    s_score sp <= 0.6 /\
    performance_score (m_performance m) <= 0.92.
Proof.
  intros e question code r csv model t attempts ws Hws Hc m sp.
  pose proof (result_assignment_found ws code Hws Hc) as Hm.
  subst sp m. unfold calculate_evaluation_metrics.
  cbn [m_performance p_space_complexity performance_score].
  unfold score_performance, analyze_space_complexity, analyze_time_complexity.
  cbn [s_notation s_score t_score].
  assert (Hge : (index space_complexity_order O_n <=
                 index space_complexity_order
                   (scan_ops space_complexity_order space_indicators code))%nat).
  { unfold scan_ops.
    apply (@fold_scan_found space_complexity_order code space_indicators O_1 O_n
             ["\.copy\("; "\.drop\("; "\.dropna\("; "\.fillna\("; "\.assign\(";
              "result\s*="; "df_new\s*="; "df_filtered\s*="]%string
             "result\s*="%string);
      [unfold space_indicators; cbn [In]; auto | cbn [In]; auto 10 | exact Hm]. }
  pose proof (space_notation_cases code) as Hcases.
  destruct (complexity_scores_bounds
              (adjust_for_loops (count_loops code) (base_time_complexity code)))
    as [T0 T1].
  set (ts := complexity_scores _) in *.
  set (c := scan_ops space_complexity_order space_indicators code) in *.
  cbn [In] in Hcases.
  destruct Hcases as [E | [E | [E | []]]]; rewrite <- E in Hge |- *;
    [cbn in Hge; lia | |];
    (split; [discriminate |]; split; [cbn [space_scores]; discriminate |];
     cbn [space_scores];
     destruct t as [t |];
     [destruct (Qltb t 0.1); [| destruct (Qltb t 1.0); [| destruct (Qltb t 5.0)]] |];
     destruct (length code <? 500)%nat; destruct (length code <? 1000)%nat;
     destruct (negb (is_error r)); lra).
Qed.

(** ** Recovery analysis *)

Lemma error_class_eqb_eq :
  forall a b : error_class, error_class_eqb a b = true <-> a = b.
Proof. intros [] []; simpl; split; intro H; congruence. Qed.

Lemma classify_nonempty :
  forall (c : ascii) (l : str), _classify_error (Some (c :: l)) <> unknown.
Proof.
  intros c l. unfold _classify_error.
  repeat match goal with
         | |- context [if ?b then _ else _] => destruct b
         end; discriminate.
Qed.

(** X9. An error message is classified as unknown exactly when it is
    missing or empty. A failed repair attempt earns fix quality 0.1 when
    its error message falls in the class of the original message (in
    particular when it repeats it) and 0.5 otherwise; so an attempt that
    fails without any message earns 0.5 exactly when the original error
    had one. *)
Theorem failed_attempt_fix_quality :
  forall (message : option str) (a : recovery_attempt),
    (_classify_error message = unknown <-> (message = None \/ message = Some [])) /\
    (a_success a = false ->
     (_classify_error (a_error a) = _classify_error message ->
        fix_quality message a = 0.1) /\
     (_classify_error (a_error a) <> _classify_error message ->
        fix_quality message a = 0.5) /\
     (a_error a = message -> fix_quality message a = 0.1) /\
     ((a_error a = None \/ a_error a = Some []) ->
        (fix_quality message a = 0.5 <->
           (message <> None /\ message <> Some [])))).
Proof.
  intros message a.
  assert (Hunk : forall m : option str,
            _classify_error m = unknown <-> (m = None \/ m = Some [])).
  { intros [[| c l] |].
    - split; [right; reflexivity | reflexivity].
    - split; [intro H; exfalso; exact (classify_nonempty c l H) |].
      intros [H | H]; discriminate.
    - split; [left; reflexivity | reflexivity]. }
  split; [apply Hunk |].
  intro Hfail. unfold fix_quality. rewrite Hfail.
  assert (Hsame : _classify_error (a_error a) = _classify_error message ->
                  (if negb (error_class_eqb (_classify_error message)
                                            (_classify_error (a_error a)))
                   then 0.5 else 0.1) = 0.1).
  { intro E. rewrite E.
    rewrite (proj2 (error_class_eqb_eq _ _) eq_refl). reflexivity. }
  assert (Hdiff : _classify_error (a_error a) <> _classify_error message ->
                  (if negb (error_class_eqb (_classify_error message)
                                            (_classify_error (a_error a)))
                   then 0.5 else 0.1) = 0.5).
  { intro N. destruct (error_class_eqb _ _) eqn:E; [| reflexivity].
    apply error_class_eqb_eq in E. congruence. }
  split; [exact Hsame | split; [exact Hdiff | split]].
  - intro E. apply Hsame. rewrite E. reflexivity.
  - intro Hnone. apply Hunk in Hnone. split.
    + intro H5.
      assert (N : _classify_error message <> unknown).
      { intro E. rewrite Hsame in H5 by congruence. discriminate. }
      split; intro E; apply N; apply Hunk; [left | right]; exact E.
    + intros [N1 N2]. apply Hdiff. rewrite Hnone. intro E. symmetry in E.
      apply Hunk in E. destruct E; contradiction.
Qed.

Lemma details_from_length :
  forall (message : option str) (attempts : list recovery_attempt) (n : nat),
    length (details_from message n attempts) = length attempts.
Proof.
  intros message attempts. induction attempts as [| a l IH]; intro n; simpl;
    [reflexivity | rewrite IH; reflexivity].
Qed.

Lemma details_from_nth :
  forall (message : option str) (attempts : list recovery_attempt) (n i : nat)
         (a : recovery_attempt),
    nth_error attempts i = Some a ->
    nth_error (details_from message n attempts) i =
    Some (RecoveryDetail (n + i + 1) (a_success a) (a_error a)
                         (fix_quality message a)).
Proof.
  intros message attempts. induction attempts as [| b l IH]; intros n i a H.
  - destruct i; discriminate.
  - destruct i as [| i]; simpl in H |- *.
    + injection H as ->. rewrite Nat.add_0_r. reflexivity.
    + rewrite (IH (n + 1)%nat i a H). do 2 f_equal. lia.
Qed.

Lemma count_if_pos :
  forall (X : Type) (test : X -> bool) (l : list X),
    (0 < count_if test l)%nat <-> exists x, In x l /\ test x = true.
Proof.
  intros X test l. unfold count_if. split.
  - intro H. destruct (filter test l) as [| x f] eqn:E; [simpl in H; lia |].
    assert (Hin : In x (filter test l)) by (rewrite E; left; reflexivity).
    apply filter_In in Hin. exists x. exact Hin.
  - intros (x & Hin & Ht).
    assert (Hf : In x (filter test l)) by (apply filter_In; split; assumption).
    destruct (filter test l); [contradiction | simpl; lia].
Qed.

(** X10. On an error outcome the recovery record keeps one detail per
    attempt, in order: the i-th detail is numbered i (by its position,
    whatever number the attempt carries) and repeats the attempt's success
    flag, its error and its fix quality; the attempt count is the length
    of the list, and the recovery counts as a success exactly when some
    attempt succeeded. On an outcome that is not an error the attempts are
    counted but no detail is kept. *)
Theorem recovery_details_mirror_attempts :
  forall (r : execution_result) (attempts : list recovery_attempt),
    let m := analyze_error_recovery r (Some attempts) in
    recovery_attempts_count m = length attempts /\
    (is_error r = false -> recovery_details m = []) /\
    (is_error r = true ->
     length (recovery_details m) = length attempts /\
     (forall (i : nat) (a : recovery_attempt),
        nth_error attempts i = Some a ->
        nth_error (recovery_details m) i =
        Some (RecoveryDetail (i + 1) (a_success a) (a_error a)
                             (fix_quality (error_message m) a))) /\
     (recovery_success m = true <->
        exists a, In a attempts /\ a_success a = true)).
Proof.
  intros r attempts m. subst m. unfold analyze_error_recovery.
  destruct (is_error r) eqn:E; cbn [negb].
  - destruct attempts as [| a l].
    + cbn [recovery_attempts_count recovery_details recovery_success length].
      split; [reflexivity | split; [discriminate |]]. intros _.
      split; [reflexivity | split].
      * intros i a H. destruct i; discriminate.
      * split; [discriminate | intros (a & [] & _)].
    + cbn [recovery_attempts_count recovery_details recovery_success
           error_message].
      split; [reflexivity | split; [discriminate |]]. intros _.
      split; [apply details_from_length | split].
      * intros i b H. rewrite (details_from_nth _ _ 0 i b H). reflexivity.
      * rewrite Nat.ltb_lt. apply count_if_pos.
  - cbn [recovery_attempts_count recovery_details].
    split; [reflexivity | split; [reflexivity | discriminate]].
Qed.

(** ** Session summary *)

Lemma complexity_eqb_eq :
  forall a b : complexity, complexity_eqb a b = true <-> a = b.
Proof. intros [] []; simpl; split; intro H; congruence. Qed.

Section Distinct.

Variable X : Type.
Variable eqb : X -> X -> bool.
Hypothesis eqb_eq : forall a b : X, eqb a b = true <-> a = b.

Let step (acc : list X) (x : X) : list X :=
  if existsb (eqb x) acc then acc else acc ++ [x].

Lemma existsb_eqb_In :
  forall (x : X) (l : list X), existsb (eqb x) l = true <-> In x l.
Proof.
  intros x l. rewrite existsb_exists. split.
  - intros (y & Hy & E). apply eqb_eq in E. subst y. exact Hy.
  - intro H. exists x. split; [exact H | apply eqb_eq; reflexivity].
Qed.

Lemma fold_step_spec :
  forall (xs acc : list X),
    NoDup acc ->
    NoDup (fold_left step xs acc) /\
    (forall y, In y (fold_left step xs acc) <-> In y acc \/ In y xs).
Proof.
  intro xs. induction xs as [| x xs IH]; intros acc Hnd; cbn [fold_left].
  - split; [exact Hnd | intro y; cbn [In]; tauto].
  - assert (Hnd' : NoDup (step acc x)).
    { unfold step. destruct (existsb (eqb x) acc) eqn:E; [exact Hnd |].
      apply NoDup_app; [exact Hnd | repeat constructor; intros [] |].
      intros y Hy [<- | []].
      apply existsb_eqb_In in Hy. congruence. }
    destruct (IH (step acc x) Hnd') as [H1 H2]. split; [exact H1 |].
    intro y. rewrite H2. unfold step.
    destruct (existsb (eqb x) acc) eqn:E.
    + apply existsb_eqb_In in E. cbn [In]. split; [tauto |].
      intros [H | [<- | H]]; auto.
    + rewrite in_app_iff. cbn [In]. tauto.
Qed.

(** [distinct] keeps every value once. *)
Lemma distinct_spec :
  forall xs : list X,
    NoDup (distinct eqb xs) /\ (forall y, In y (distinct eqb xs) <-> In y xs).
Proof.
  intro xs. unfold distinct.
  destruct (fold_step_spec xs [] (NoDup_nil X)) as [H1 H2].
  split; [exact H1 |]. intro y. destruct (H2 y) as [A B].
  split; intro H.
  - destruct (A H) as [[] | H']. exact H'.
  - apply B. right. exact H.
Qed.

Lemma indicator_sum :
  forall (ds : list X) (x : X),
    NoDup ds -> In x ds ->
    sum_nat (map (fun c => if eqb c x then 1 else 0)%nat ds) = 1%nat.
Proof.
  intros ds x Hnd. induction Hnd as [| d ds Hd Hnd IH]; intro Hin; [contradiction |].
  cbn [map sum_nat fold_right]. fold (sum_nat (map (fun c => if eqb c x then 1 else 0)%nat ds)).
  destruct Hin as [-> | Hin].
  - rewrite (proj2 (eqb_eq x x) eq_refl).
    assert (E : sum_nat (map (fun c => if eqb c x then 1 else 0)%nat ds) = 0%nat).
    { clear IH Hnd. induction ds as [| c ds IHds]; [reflexivity |].
      cbn [map sum_nat fold_right].
      fold (sum_nat (map (fun c => if eqb c x then 1 else 0)%nat ds)).
      destruct (eqb c x) eqn:E.
      - apply eqb_eq in E. subst c. exfalso. apply Hd. left. reflexivity.
      - rewrite IHds; [reflexivity |]. intro H. apply Hd. right. exact H. }
    rewrite E. reflexivity.
  - destruct (eqb d x) eqn:E.
    + apply eqb_eq in E. subst d. contradiction.
    + rewrite (IH Hin). reflexivity.
Qed.

(** The counts of the distinct values add up to the number of values. *)
Lemma counts_sum :
  forall (ds xs : list X),
    NoDup ds -> (forall x, In x xs -> In x ds) ->
    sum_nat (map (fun c => count_if (eqb c) xs) ds) = length xs.
Proof.
  intros ds xs Hnd. induction xs as [| x xs IH]; intro Hsub.
  - unfold count_if. cbn [filter length]. clear Hnd Hsub.
    induction ds as [| d ds IHds]; [reflexivity |].
    cbn [map sum_nat fold_right].
    fold (sum_nat (map (fun _ : X => 0%nat) ds)).
    rewrite IHds. reflexivity.
  - assert (E : forall l : list X,
              sum_nat (map (fun c => count_if (eqb c) (x :: xs)) l) =
              (sum_nat (map (fun c => if eqb c x then 1 else 0)%nat l) +
               sum_nat (map (fun c => count_if (eqb c) xs) l))%nat).
    { intro l. induction l as [| c l IHl]; [reflexivity |].
      cbn [map sum_nat fold_right].
      fold (sum_nat (map (fun c => count_if (eqb c) (x :: xs)) l)).
      fold (sum_nat (map (fun c => if eqb c x then 1 else 0)%nat l)).
      fold (sum_nat (map (fun c => count_if (eqb c) xs) l)).
      rewrite IHl. unfold count_if. cbn [filter].
      destruct (eqb c x); cbn [length]; lia. }
    rewrite E, IH; [| intros y Hy; apply Hsub; right; exact Hy].
    rewrite (indicator_sum ds x Hnd); [reflexivity |].
    apply Hsub. left. reflexivity.
Qed.

End Distinct.

Lemma distribution_spec :
  forall xs : list complexity,
    NoDup (map fst (distribution xs)) /\
    sum_nat (map snd (distribution xs)) = length xs /\
    (forall (c : complexity) (n : nat),
       In (c, n) (distribution xs) ->
       In c xs /\ n = count_if (complexity_eqb c) xs /\ (1 <= n)%nat).
Proof.
  intro xs. unfold distribution.
  destruct (distinct_spec complexity complexity_eqb complexity_eqb_eq xs)
    as [Hnd Hin].
  rewrite !map_map. cbn [fst snd]. rewrite map_id.
  split; [exact Hnd | split].
  - apply (counts_sum complexity complexity_eqb complexity_eqb_eq);
      [exact Hnd | intros x Hx; apply Hin; exact Hx].
  - intros c n H. apply in_map_iff in H. destruct H as (c' & E & Hc).
    injection E as -> <-. apply Hin in Hc.
    split; [exact Hc | split; [reflexivity |]].
    apply (proj2 (@count_if_pos complexity (complexity_eqb c) xs)).
    exists c. split; [exact Hc | apply complexity_eqb_eq; reflexivity].
Qed.

Lemma starts_with_same_length :
  forall s t : str,
    length s = length t -> PyStr.starts_with s t = true -> s = t.
Proof.
  intro s. induction s as [| a s IH]; intros [| b t] Hl H; simpl in *;
    try discriminate; [reflexivity |].
  apply andb_true_iff in H. destruct H as [Hab H].
  apply Ascii.eqb_eq in Hab. subst b. f_equal. apply IH; [lia | exact H].
Qed.

Lemma starts_with_refl : forall s : str, PyStr.starts_with s s = true.
Proof.
  intro s. induction s as [| a s IH]; simpl; [reflexivity |].
  rewrite Ascii.eqb_refl. exact IH.
Qed.

Lemma pystr_eqb_eq : forall s t : str, PyStr.eqb s t = true <-> s = t.
Proof.
  intros s t. unfold PyStr.eqb. split.
  - intro H. apply andb_true_iff in H. destruct H as [Hl H].
    apply Nat.eqb_eq in Hl. apply starts_with_same_length; assumption.
  - intros ->. rewrite Nat.eqb_refl, starts_with_refl. reflexivity.
Qed.

(** X11. The summary of any log is consistent with it: the number of
    questions is the length of the log; errors, successful executions and
    successful recoveries are each at most that number; both complexity
    histograms list every class once, with a count of at least 1, and
    their counts add up to the number of records; the models used are
    listed once each and are exactly the models of the records; and
    without any error the recovery success rate is 0. *)
Theorem summary_is_consistent_with_log :
  forall log : list metrics,
    let s := summarize log in
    total_questions s = length log /\
    (errors_encountered s <= length log)%nat /\
    (successful_executions s <= length log)%nat /\
    (successful_recoveries s <= length log)%nat /\
    NoDup (map fst (time_complexity_distribution s)) /\
    NoDup (map fst (space_complexity_distribution s)) /\
    sum_nat (map snd (time_complexity_distribution s)) = length log /\
    sum_nat (map snd (space_complexity_distribution s)) = length log /\
    (forall (c : complexity) (n : nat),
       In (c, n) (time_complexity_distribution s) \/
       In (c, n) (space_complexity_distribution s) -> (1 <= n)%nat) /\
    NoDup (models_used s) /\
    (forall name : str,
       In name (models_used s) <-> exists m, In m log /\ model m = name) /\
    (errors_encountered s = 0%nat -> summary_recovery_success_rate s = 0.0) /\
    0 <= summary_recovery_success_rate s.
Proof.
  intros log s. subst s. unfold summarize.
  cbn [total_questions errors_encountered successful_executions
       successful_recoveries time_complexity_distribution
       space_complexity_distribution models_used summary_recovery_success_rate].
  destruct (distribution_spec
              (map (fun m => t_notation (p_time_complexity (m_performance m))) log))
    as (T1 & T2 & T3).
  destruct (distribution_spec
              (map (fun m => s_notation (p_space_complexity (m_performance m))) log))
    as (S1 & S2 & S3).
  rewrite length_map in T2, S2.
  destruct (distinct_spec str PyStr.eqb pystr_eqb_eq (map model log)) as [M1 M2].
  split; [reflexivity |].
  split; [apply (@count_if_le metrics) |].
  split; [apply (@count_if_le metrics) |].
  split; [apply (@count_if_le metrics) |].
  split; [exact T1 |]. split; [exact S1 |].
  split; [exact T2 |]. split; [exact S2 |].
  split.
  { intros c n [H | H]; [apply T3 in H | apply S3 in H]; tauto. }
  split; [exact M1 |].
  split.
  { intro name. rewrite M2. rewrite in_map_iff. split.
    - intros (m & E & Hm). exists m. split; assumption.
    - intros (m & Hm & E). exists m. split; assumption. }
  split.
  { intros ->. reflexivity. }
  destruct (0 <? _)%nat eqn:E; [| discriminate].
  apply Nat.ltb_lt in E.
  apply Qle_shift_div_l; [apply (@qn_pos _ E) |].
  rewrite Qmult_0_l. apply qn_nonneg.
Qed.

Lemma Qsum_scaled_bounds :
  forall (b : Q) (l : list Q),
    0 <= b ->
    (forall x, In x l -> within 0 b x) ->
    0 <= Qsum l /\ Qsum l <= b * qn (length l).
Proof.
  intros b l Hb. induction l as [| x l IH]; intro H.
  - cbn [Qsum length]. change (qn 0) with 0. split; lra.
  - destruct (H x (or_introl eq_refl)) as [X0 X1].
    destruct IH as [S0 S1]; [intros y Hy; apply H; right; exact Hy |].
    assert (E : qn (length (x :: l)) == 1 + qn (length l)).
    { unfold qn. cbn [length]. rewrite Nat2Z.inj_succ, <- Z.add_1_l.
      rewrite inject_Z_plus. reflexivity. }
    cbn [Qsum]. rewrite E. split; lra.
Qed.

(** An average of values between 0 and [b] lies between 0 and [b]. *)
Lemma average_within :
  forall (b : Q) (l : list Q),
    0 <= b ->
    (forall x, In x l -> within 0 b x) ->
    within 0 b (average l).
Proof.
  intros b l Hb H. unfold average, within.
  destruct l as [| x l]; [split; [apply Qle_refl | exact Hb] |].
  destruct (Qsum_scaled_bounds b (x :: l) Hb H) as [S0 S1].
  assert (Hpos : 0 < qn (length (x :: l))) by (apply qn_pos; simpl; lia).
  split.
  - apply Qle_shift_div_l; [exact Hpos |]. rewrite Qmult_0_l. exact S0.
  - apply Qle_shift_div_r; [exact Hpos | exact S1].
Qed.

Lemma average_map_within :
  forall (b : Q) (f : metrics -> Q) (log : list metrics),
    0 <= b ->
    (forall m, In m log -> within 0 b (f m)) ->
    within 0 b (average (map f log)).
Proof.
  intros b f log Hb H. apply average_within; [exact Hb |].
  intros x Hx. apply in_map_iff in Hx. destruct Hx as (m & <- & Hm).
  apply H. exact Hm.
Qed.

(** What holds of every record that the program computes. *)
Lemma computed_record :
  forall m : metrics,
    computed m ->
    execution_success (m_code_correctness m) =
      negb (has_error (m_error_recovery m)) /\
    (has_error (m_error_recovery m) = false ->
     recovery_success (m_error_recovery m) = true) /\
    within 0 1 (correctness_score (m_code_correctness m)) /\
    within 0 1 (quality_score (m_code_quality m)) /\
    within 0 1 (performance_score (m_performance m)) /\
    within 0 1.3 (understanding_score (m_prompt_understanding m)) /\
    within 0 1 (coverage_score (m_requirement_coverage m)) /\
    within 0 1 (recovery_score (m_error_recovery m)).
Proof.
  intros m (e & q & code & r & csv & mdl & t & a & ->).
  unfold calculate_evaluation_metrics, within.
  cbn [m_code_correctness m_error_recovery m_code_quality m_performance
       m_prompt_understanding m_requirement_coverage execution_success
       correctness_score quality_score performance_score].
  assert (Herr : has_error (analyze_error_recovery r a) = is_error r).
  { unfold analyze_error_recovery. destruct (is_error r); cbn [negb];
      [destruct (match a with Some l => l | None => [] end) |]; reflexivity. }
  split; [rewrite Herr; reflexivity |].
  split.
  { rewrite Herr. intro E.
    exact (proj1 (@no_error_is_a_recovery_success r a E)). }
  split; [apply score_correctness_bounds |].
  split; [apply score_quality_bounds |].
  split; [apply (score_performance_bounds e t code csv (negb (is_error r))) |].
  split; [apply (understanding_score_bounds e q code csv) |].
  split; [apply coverage_score_bounds | apply recovery_score_bounds].
Qed.

Lemma count_if_split :
  forall (X : Type) (f g : X -> bool) (l : list X),
    (forall x, In x l -> f x = negb (g x)) ->
    (count_if f l + count_if g l = length l)%nat.
Proof.
  intros X f g l. unfold count_if. induction l as [| x l IH]; intro H;
    [reflexivity |].
  cbn [filter]. rewrite (H x (or_introl eq_refl)).
  assert (IH' := IH (fun y Hy => H y (or_intror Hy))).
  destruct (g x); cbn [negb length]; lia.
Qed.

Lemma count_if_mono :
  forall (X : Type) (f g : X -> bool) (l : list X),
    (forall x, In x l -> f x = true -> g x = true) ->
    (count_if f l <= count_if g l)%nat.
Proof.
  intros X f g l. unfold count_if. induction l as [| x l IH]; intro H;
    [cbn; lia |].
  cbn [filter].
  assert (IH' := IH (fun y Hy => H y (or_intror Hy))).
  pose proof (H x (or_introl eq_refl)) as Hx.
  destruct (f x); [rewrite (Hx eq_refl) |]; destruct (g x); cbn [length]; lia.
Qed.

(** X12. In the summary of a log of records that the program computed,
    every record is either a successful execution or an error; every
    successful execution is also counted as a successful recovery, so the
    recovery success rate is at least successes / errors when there is an
    error; and the average correctness, quality, performance, coverage and
    recovery scores lie in [0, 1], the average understanding score in
    [0, 1.3]. *)
Theorem summary_of_computed_log :
  forall log : list metrics,
    (forall m, In m log -> computed m) ->
    let s := summarize log in
    (successful_executions s + errors_encountered s = length log)%nat /\
    (successful_executions s <= successful_recoveries s)%nat /\
    ((0 < errors_encountered s)%nat ->
     qn (successful_executions s) / qn (errors_encountered s)
       <= summary_recovery_success_rate s) /\
    within 0 1 (average_correctness_score s) /\
    within 0 1 (average_quality_score s) /\
    within 0 1 (average_performance_score s) /\
    within 0 1.3 (average_understanding_score s) /\
    within 0 1 (average_coverage_score s) /\
    within 0 1 (average_recovery_score s).
Proof.
  intros log Hlog s. subst s. unfold summarize.
  cbn [successful_executions errors_encountered successful_recoveries
       summary_recovery_success_rate average_correctness_score
       average_quality_score average_performance_score
       average_understanding_score average_coverage_score
       average_recovery_score].
  assert (Hrec := fun m Hm => computed_record m (Hlog m Hm)).
  split.
  { apply count_if_split. intros m Hm. apply (Hrec m Hm). }
  assert (Hle : (count_if (fun m => execution_success (m_code_correctness m)) log
                 <= count_if (fun m => recovery_success (m_error_recovery m)) log)%nat).
  { apply count_if_mono. intros m Hm E.
    destruct (Hrec m Hm) as (H1 & H2 & _). apply H2.
    rewrite H1 in E. apply negb_true_iff in E. exact E. }
  split; [exact Hle |].
  split.
  { intro Hpos. rewrite (proj2 (Nat.ltb_lt _ _) Hpos).
    pose proof (@qn_pos _ Hpos) as Hq.
    apply Qle_shift_div_l; [exact Hq |].
    assert (E : forall a b : Q, ~ b == 0 -> a / b * b == a)
      by (intros a b Hb; field; exact Hb).
    rewrite E; [apply (@qn_le _ _ Hle) |].
    intro E0. rewrite E0 in Hq. discriminate. }
  split; [apply average_map_within; [discriminate |]; intros m Hm; apply (Hrec m Hm) |].
  split; [apply average_map_within; [discriminate |]; intros m Hm; apply (Hrec m Hm) |].
  split; [apply average_map_within; [discriminate |]; intros m Hm; apply (Hrec m Hm) |].
  split; [apply average_map_within; [discriminate |]; intros m Hm; apply (Hrec m Hm) |].
  split; [apply average_map_within; [discriminate |]; intros m Hm; apply (Hrec m Hm) |].
  apply average_map_within; [discriminate |]; intros m Hm; apply (Hrec m Hm).
Qed.

(** ** The recovery loop of the chat handler *)

(** What the loop adds to the attempts of [st]: either it runs out of
    rounds with failures only and leaves code and result as they were, or
    it stops at the first success and adopts its code, result and time. *)
Lemma recovery_loop_spec :
  forall (w : chat_world) (csv_file model prompt : str)
         (remaining attempt_num : nat) (st : turn_state),
    let st' := recovery_loop w csv_file model prompt remaining attempt_num st in
    exists new : list recovery_attempt,
      ts_recovery_attempts st' = ts_recovery_attempts st ++ new /\
      (forall (i : nat) (a : recovery_attempt),
         nth_error new i = Some a ->
         a_attempt_number a = (attempt_num + i + 1)%nat) /\
      ((length new = remaining /\ Forall failed new /\
        ts_generated_code st' = ts_generated_code st /\
        ts_execution_result st' = ts_execution_result st /\
        ts_execution_time st' = ts_execution_time st)
       \/
       (exists (pre : list recovery_attempt) (a : recovery_attempt),
          new = pre ++ [a] /\ (length new <= remaining)%nat /\
          Forall failed pre /\ a_success a = true /\
          a_code a = Some (ts_generated_code st') /\
          a_execution_time a = ts_execution_time st' /\
          is_error (ts_execution_result st') = false)).
Proof.
  intros w csv model prompt remaining.
  induction remaining as [| n IH]; intros k st; cbn [recovery_loop].
  - exists []. split; [rewrite app_nil_r; reflexivity |].
    split; [intros i a H; destruct i; discriminate |].
    left. repeat split. constructor.
  - destruct (generate_pandas_code w (k + 1) prompt model) as [code | e].
    + destruct (execute_code_safely w (k + 1) code csv) as [res time] eqn:Ex.
      cbn [a_success].
      destruct (is_error res) eqn:Er; cbn [negb].
      * set (a := RecoveryAttempt (k + 1) (Some code) (r_data res) false time).
        destruct (IH (k + 1)%nat
                    (TurnState (ts_generated_code st) (ts_execution_result st)
                       (ts_execution_time st) (ts_recovery_attempts st ++ [a])))
          as (new & Hnew & Hnum & Hcase).
        cbn [ts_recovery_attempts ts_generated_code ts_execution_result
             ts_execution_time] in Hnew, Hcase.
        exists (a :: new). split; [rewrite Hnew, <- app_assoc; reflexivity |].
        split.
        { intros i b H. destruct i as [| i]; cbn in H.
          - injection H as <-. cbn. lia.
          - rewrite (Hnum i b H). lia. }
        destruct Hcase as [(Hl & Hf & Hc & Hr & Ht) |
                           (pre & b & -> & Hl & Hf & Hb & Hc & Ht & He)].
        -- left. cbn [length]. rewrite Hl, Hc, Hr, Ht.
           repeat split. constructor; [reflexivity | exact Hf].
        -- right. exists (a :: pre), b.
           split; [reflexivity |]. split; [cbn [length] in *; lia |].
           split; [constructor; [reflexivity | exact Hf] |].
           repeat split; assumption.
      * set (a := RecoveryAttempt (k + 1) (Some code) None true time).
        exists [a]. cbn [ts_recovery_attempts].
        split; [reflexivity |].
        split.
        { intros i b H. destruct i as [| i]; cbn in H.
          - injection H as <-. cbn. lia.
          - destruct i; discriminate. }
        right. exists [], a. cbn [length app ts_generated_code
                                   ts_execution_result ts_execution_time].
        split; [reflexivity |]. split; [lia |].
        split; [constructor |]. repeat split; first [reflexivity | exact Er].
    + set (a := RecoveryAttempt (k + 1) None _ false None).
      destruct (IH (k + 1)%nat
                  (TurnState (ts_generated_code st) (ts_execution_result st)
                     (ts_execution_time st) (ts_recovery_attempts st ++ [a])))
        as (new & Hnew & Hnum & Hcase).
      cbn [ts_recovery_attempts ts_generated_code ts_execution_result
           ts_execution_time] in Hnew, Hcase.
      exists (a :: new). split; [rewrite Hnew, <- app_assoc; reflexivity |].
      split.
      { intros i b H. destruct i as [| i]; cbn in H.
        - injection H as <-. cbn. lia.
        - rewrite (Hnum i b H). lia. }
      destruct Hcase as [(Hl & Hf & Hc & Hr & Ht) |
                         (pre & b & -> & Hl & Hf & Hb & Hc & Ht & He)].
      * left. cbn [length]. rewrite Hl, Hc, Hr, Ht.
        repeat split. constructor; [reflexivity | exact Hf].
      * right. exists (a :: pre), b.
        split; [reflexivity |]. split; [cbn [length] in *; lia |].
        split; [constructor; [reflexivity | exact Hf] |].
        repeat split; assumption.
Qed.

Lemma inl_inj :
  forall (A B : Type) (x y : A), @inl A B x = inl y -> x = y.
Proof. intros A B x y H. congruence. Qed.

(** The attempts that a turn hands to the metrics. *)
Lemma recovery_attempts_of_a_turn_aux :
  forall (w : chat_world) (question csv_file model : str) (st : turn_state),
    generate_and_execute w question csv_file model = inl st ->
    (length (ts_recovery_attempts st) <= 2)%nat /\
    (is_error (ts_execution_result st) = true ->
     length (ts_recovery_attempts st) = 2%nat /\
     Forall failed (ts_recovery_attempts st)).
Proof.
  intros w question csv model st H.
  unfold generate_and_execute in H.
  destruct (read_csv_error w csv); [discriminate |].
  destruct (generate_pandas_code w 0 question model) as [code | e];
    [| discriminate].
  destruct (execute_code_safely w 0 code csv) as [res time].
  destruct (is_error res) eqn:Er; cbn [andb] in H.
  - change (0 <? max_recovery_attempts)%nat with true in H. cbv iota in H.
    apply inl_inj in H. subst st.
    destruct (recovery_loop_spec w csv model
                (recovery_prompt
                   (match r_data res with Some d => d | None => [] end)
                   question code)
                max_recovery_attempts 0 (TurnState code res time []))
      as (new & Hnew & _ & Hcase).
    cbn [ts_recovery_attempts app ts_generated_code ts_execution_result
         ts_execution_time] in Hnew, Hcase.
    rewrite Hnew.
    destruct Hcase as [(Hl & Hf & _ & Hr & _) |
                       (pre & a & -> & Hl & _ & _ & _ & _ & He)].
    + split; [rewrite Hl; unfold max_recovery_attempts; lia |].
      intros _. split; [exact Hl | exact Hf].
    + split; [exact Hl |]. rewrite He. discriminate.
  - apply inl_inj in H. subst st. cbn [ts_recovery_attempts ts_execution_result length].
    split; [lia |]. rewrite Er. discriminate.
Qed.

(** X13. When a turn reaches the metrics, at most two recovery attempts
    were recorded, numbered 1 and 2 in order. If its outcome is still an
    error, exactly two attempts were made and both failed; if its outcome
    is not an error, either no attempt was made or the attempts end with
    the only successful one, whose code and execution time are the ones
    the turn reports. *)
Theorem recovery_attempts_of_a_turn :
  forall (w : chat_world) (question csv_file model : str) (st : turn_state),
    generate_and_execute w question csv_file model = inl st ->
    let attempts := ts_recovery_attempts st in
    (length attempts <= 2)%nat /\
    (forall (i : nat) (a : recovery_attempt),
       nth_error attempts i = Some a -> a_attempt_number a = (i + 1)%nat) /\
    (is_error (ts_execution_result st) = true ->
     length attempts = 2%nat /\ Forall failed attempts) /\
    (is_error (ts_execution_result st) = false ->
     attempts = [] \/
     exists (pre : list recovery_attempt) (a : recovery_attempt),
       attempts = pre ++ [a] /\ Forall failed pre /\ a_success a = true /\
       a_code a = Some (ts_generated_code st) /\
       a_execution_time a = ts_execution_time st).
Proof.
  intros w question csv model st H attempts. subst attempts.
  unfold generate_and_execute in H.
  destruct (read_csv_error w csv); [discriminate |].
  destruct (generate_pandas_code w 0 question model) as [code | e];
    [| discriminate].
  destruct (execute_code_safely w 0 code csv) as [res time].
  destruct (is_error res) eqn:Er; cbn [andb] in H.
  - change (0 <? max_recovery_attempts)%nat with true in H. cbv iota in H.
    apply inl_inj in H. subst st.
    set (st0 := TurnState code res time []).
    destruct (recovery_loop_spec w csv model
                (recovery_prompt
                   (match r_data res with Some d => d | None => [] end)
                   question code)
                max_recovery_attempts 0 st0)
      as (new & Hnew & Hnum & Hcase).
    cbn [st0 ts_recovery_attempts app ts_generated_code ts_execution_result
         ts_execution_time] in Hnew, Hcase.
    rewrite Hnew.
    destruct Hcase as [(Hl & Hf & Hc & Hr & Ht) |
                       (pre & a & -> & Hl & Hf & Ha & Hc & Ht & He)].
    + split; [rewrite Hl; unfold max_recovery_attempts; lia |].
      split; [intros i a Hi; rewrite (Hnum i a Hi); reflexivity |].
      split; [intros _; split; [exact Hl | exact Hf] |].
      rewrite Hr, Er. discriminate.
    + split; [unfold max_recovery_attempts in Hl; exact Hl |].
      split; [intros i b Hi; rewrite (Hnum i b Hi); reflexivity |].
      split; [rewrite He; discriminate |].
      intros _. right. exists pre, a. repeat split; assumption.
  - apply inl_inj in H. subst st. cbn [ts_recovery_attempts ts_execution_result length].
    split; [lia |].
    split; [intros i a Hi; destruct i; discriminate |].
    split; [rewrite Er; discriminate |].
    intros _. left. reflexivity.
Qed.

Lemma fix_quality_failed :
  forall (message : option str) (a : recovery_attempt),
    failed a -> within 0.1 0.5 (fix_quality message a).
Proof.
  intros message a H. unfold failed in H. unfold fix_quality, within.
  rewrite H. destruct (negb _); split; discriminate.
Qed.

(** The recovery analysis of an error outcome after two failed attempts. *)
Lemma two_failed_attempts :
  forall (r : execution_result) (a1 a2 : recovery_attempt),
    is_error r = true -> failed a1 -> failed a2 ->
    let m := analyze_error_recovery r (Some [a1; a2]) in
    has_error m = true /\
    recovery_attempts_count m = 2%nat /\
    recovery_success m = false /\
    recovery_success_rate m == 0 /\
    within (49 # 300) (17 # 60) (recovery_score m).
Proof.
  intros r a1 a2 Hr H1 H2 m. subst m.
  rewrite (@analyze_error_recovery_attempts r a1 [a2] Hr).
  cbn [has_error recovery_attempts_count recovery_success
       recovery_success_rate recovery_score length].
  unfold failed in H1, H2.
  assert (Ec : count_if a_success [a1; a2] = 0%nat)
    by (unfold count_if; cbn [filter]; rewrite H1, H2; reflexivity).
  rewrite Ec.
  set (message := Some _).
  destruct (fix_quality_failed message a1 H1) as [L1 U1].
  destruct (fix_quality_failed message a2 H2) as [L2 U2].
  cbn [map Qsum length].
  set (f1 := fix_quality message a1) in *.
  set (f2 := fix_quality message a2) in *.
  split; [reflexivity |]. split; [reflexivity |]. split; [reflexivity |].
  split; [reflexivity |].
  assert (E1 : qn 0 / qn 2 == 0) by reflexivity.
  assert (E2 : (f1 + (f2 + 0)) / qn 2 == (f1 + f2) * (1 # 2)).
  { change (qn 2) with 2. field. }
  assert (E3 : Qmin (qn 2 / 3.0) 1.0 == 2 # 3) by reflexivity.
  unfold within. rewrite E1, E2, E3. split; lra.
Qed.

(** X14. In the record that a turn computes on its main path, an error
    outcome always comes with two failed attempts: the recovery is marked
    unsuccessful, its success rate is 0 and the recovery score lies
    between 49/300 and 17/60 (about 0.163 and 0.283). An outcome that is
    not an error gets the recovery score 1.0 and is marked as a successful
    recovery, with at most two attempts counted. *)
Theorem recovery_analysis_of_a_turn :
  forall (w : chat_world) (question csv_file model : str) (st : turn_state),
    generate_and_execute w question csv_file model = inl st ->
    let rec := m_error_recovery (main_record w question csv_file model st) in
    (recovery_attempts_count rec <= 2)%nat /\
    (has_error rec = true ->
     recovery_attempts_count rec = 2%nat /\
     recovery_success rec = false /\
     recovery_success_rate rec == 0 /\
     within (49 # 300) (17 # 60) (recovery_score rec)) /\
    (has_error rec = false ->
     recovery_success rec = true /\ recovery_score rec = 1.0).
Proof.
  intros w question csv model st H rec. subst rec.
  destruct (recovery_attempts_of_a_turn_aux w question csv model st H)
    as (Hlen & Herr).
  unfold main_record, calculate_evaluation_metrics. cbn [m_error_recovery].
  destruct (is_error (ts_execution_result st)) eqn:Er.
  - destruct (Herr eq_refl) as (Hl & Hf).
    destruct (ts_recovery_attempts st) as [| a1 [| a2 [| a3 l]]];
      try discriminate Hl.
    inversion Hf as [| ? ? F1 Hf']. inversion Hf' as [| ? ? F2 _]. subst.
    destruct (two_failed_attempts (ts_execution_result st) a1 a2 Er F1 F2)
      as (He & Hc & Hs & Hrate & Hscore).
    split; [rewrite Hc; lia |].
    split; [intros _; repeat split; assumption || apply Hscore |].
    rewrite He. discriminate.
  - unfold analyze_error_recovery. rewrite Er. cbn [negb].
    cbn [recovery_attempts_count has_error recovery_success recovery_score].
    split; [exact Hlen |].
    split; [discriminate | intros _; split; reflexivity].
Qed.

(** ** The metrics log of a session *)

Lemma save_appends :
  forall (records log : list metrics),
    fold_left (fun log m => fst (save_evaluation_metrics log m)) records log =
    log ++ records.
Proof.
  intro records. induction records as [| m records IH]; intro log;
    cbn [fold_left].
  - rewrite app_nil_r. reflexivity.
  - rewrite IH. unfold save_evaluation_metrics. cbn [fst].
    rewrite <- app_assoc. reflexivity.
Qed.

Lemma send_message_appends :
  forall (w : chat_world) (log : list metrics) (question : str)
         (csv_file : option str) (model : str),
    send_message w log question csv_file model =
    log ++ turn_records w question csv_file model.
Proof. intros. unfold send_message. apply save_appends. Qed.

Lemma session_log_records :
  forall turns : list turn,
    session_log turns =
    flat_map (fun t => turn_records (t_world t) (t_question t) (t_csv_file t)
                                    (t_model t)) turns.
Proof.
  intro turns. unfold session_log.
  assert (H : forall log,
            fold_left (fun log t =>
              send_message (t_world t) log (t_question t) (t_csv_file t)
                           (t_model t)) turns log =
            log ++ flat_map (fun t => turn_records (t_world t) (t_question t)
                                        (t_csv_file t) (t_model t)) turns).
  { induction turns as [| t turns IH]; intro log; cbn [fold_left flat_map].
    - rewrite app_nil_r. reflexivity.
    - rewrite IH, send_message_appends, <- app_assoc. reflexivity. }
  rewrite H. reflexivity.
Qed.

Lemma failed_turn_state :
  forall (w : chat_world) (question csv_file model : str) (e : str)
         (st : turn_state),
    generate_and_execute w question csv_file model = inr (e, st) ->
    st = initial_state.
Proof.
  intros w question csv model e st H. unfold generate_and_execute in H.
  destruct (read_csv_error w csv); [congruence |].
  destruct (generate_pandas_code w 0 question model); [| congruence].
  destruct (execute_code_safely w 0 _ csv) as [res time].
  destruct (is_error res && _); discriminate.
Qed.

(** The record of a turn that fails before any code ran. *)
Lemma failure_record_initial :
  forall (w : chat_world) (question csv_file model e : str),
    let m := failure_record w question csv_file model e initial_state in
    has_error (m_error_recovery m) = true /\
    recovery_success (m_error_recovery m) = false /\
    recovery_attempts_count (m_error_recovery m) = 0%nat /\
    recovery_score (m_error_recovery m) = 0.0 /\
    execution_success (m_code_correctness m) = false /\
    correctness_score (m_code_correctness m) <= 0.5.
Proof.
  intros w question csv model e m. subst m.
  unfold failure_record, calculate_evaluation_metrics.
  cbn [m_error_recovery m_code_correctness execution_success correctness_score
       initial_state ts_recovery_attempts ts_execution_time ts_generated_code].
  assert (Er : is_error (ExecutionResult (Some (py "error"))
                 (Some (list_ascii_of_string "Error processing request: " ++ e)))
               = true) by reflexivity.
  unfold analyze_error_recovery. rewrite Er. cbn [negb].
  cbn [has_error recovery_success recovery_attempts_count recovery_score].
  repeat split.
  destruct (syntax_valid _); discriminate.
Qed.

Lemma main_record_flags :
  forall (w : chat_world) (question csv_file model : str) (st : turn_state),
    generate_and_execute w question csv_file model = inl st ->
    let m := main_record w question csv_file model st in
    recovery_success (m_error_recovery m) =
    execution_success (m_code_correctness m).
Proof.
  intros w question csv model st H m. subst m.
  destruct (recovery_attempts_of_a_turn_aux w question csv model st H)
    as (_ & Herr).
  unfold main_record, calculate_evaluation_metrics.
  cbn [m_error_recovery m_code_correctness execution_success].
  destruct (is_error (ts_execution_result st)) eqn:Er; cbn [negb].
  - destruct (Herr eq_refl) as (Hl & Hf).
    destruct (ts_recovery_attempts st) as [| a1 [| a2 [| a3 l]]];
      try discriminate Hl.
    inversion Hf as [| ? ? F1 Hf']. inversion Hf' as [| ? ? F2 _]. subst.
    destruct (two_failed_attempts (ts_execution_result st) a1 a2 Er F1 F2)
      as (_ & _ & Hs & _). exact Hs.
  - unfold analyze_error_recovery. rewrite Er. reflexivity.
Qed.

Lemma count_if_ext :
  forall (X : Type) (f g : X -> bool) (l : list X),
    (forall x, In x l -> f x = g x) -> count_if f l = count_if g l.
Proof.
  intros X f g l. unfold count_if. induction l as [| x l IH]; intro H;
    [reflexivity |].
  cbn [filter]. rewrite (H x (or_introl eq_refl)).
  assert (IH' := IH (fun y Hy => H y (or_intror Hy))).
  destruct (g x); cbn [length]; rewrite IH'; reflexivity.
Qed.

Lemma turn_records_computed :
  forall (w : chat_world) (question : str) (csv_file : option str) (model : str)
         (m : metrics),
    In m (turn_records w question csv_file model) -> computed m.
Proof.
  intros w question csv model m H. unfold turn_records in H.
  destruct (truthy csv) as [f |]; [| contradiction].
  destruct (generate_and_execute w question f model) as [st | [e st]].
  - destruct H as [<- | H].
    + unfold main_record, computed. do 8 eexists. reflexivity.
    + destruct (response_error w); [| contradiction].
      destruct H as [<- | []].
      unfold failure_record, computed. do 8 eexists. reflexivity.
  - destruct H as [<- | []].
    unfold failure_record, computed. do 8 eexists. reflexivity.
Qed.


(** X15. In a session whose answers were all delivered (no exception
    after the metrics were saved), a record counts as a successful
    recovery exactly when its execution succeeded. The summary therefore
    reports successful_recoveries = successful_executions, every record
    is a success or an error, and with at least one error
    recovery_success_rate is successes / errors: the ratio of the
    successful turns to the failed ones. *)
Theorem session_recovery_rate_is_success_ratio :
  forall turns : list turn,
    (forall t, In t turns -> response_error (t_world t) = None) ->
    let s := summarize (session_log turns) in
    (length (session_log turns) <= length turns)%nat /\
    successful_recoveries s = successful_executions s /\
    (successful_executions s + errors_encountered s
       = length (session_log turns))%nat /\
    ((0 < errors_encountered s)%nat ->
     summary_recovery_success_rate s ==
       qn (successful_executions s) / qn (errors_encountered s)).
Proof.
  intros turns Hok s. subst s. rewrite session_log_records.
  set (records := fun t => turn_records (t_world t) (t_question t)
                             (t_csv_file t) (t_model t)).
  assert (Hrec : forall m, In m (flat_map records turns) ->
            computed m /\
            recovery_success (m_error_recovery m) =
            execution_success (m_code_correctness m)).
  { intros m Hm. apply in_flat_map in Hm. destruct Hm as (t & Ht & Hm).
    split; [exact (turn_records_computed _ _ _ _ m Hm) |].
    unfold records, turn_records in Hm.
    destruct (truthy (t_csv_file t)) as [f |]; [| contradiction].
    destruct (generate_and_execute (t_world t) (t_question t) f (t_model t))
      as [st | [e st]] eqn:G.
    - rewrite (Hok t Ht) in Hm. destruct Hm as [<- | []].
      exact (main_record_flags _ _ _ _ st G).
    - destruct Hm as [<- | []].
      rewrite (failed_turn_state _ _ _ _ e st G).
      destruct (failure_record_initial (t_world t) (t_question t) f (t_model t) e)
        as (_ & -> & _ & _ & -> & _). reflexivity. }
  assert (Hlen : (length (flat_map records turns) <= length turns)%nat).
  { clear Hrec. induction turns as [| t turns IH]; [cbn; lia |].
    cbn [flat_map length]. rewrite length_app.
    assert (IH' := IH (fun u Hu => Hok u (or_intror Hu))).
    assert (H1 : (length (records t) <= 1)%nat).
    { unfold records, turn_records.
      destruct (truthy (t_csv_file t)); [| cbn; lia].
      rewrite (Hok t (or_introl eq_refl)).
      destruct (generate_and_execute _ _ _ _) as [st | [e st]]; cbn; lia. }
    lia. }
  unfold summarize.
  cbn [successful_recoveries successful_executions errors_encountered
       summary_recovery_success_rate].
  assert (E : count_if (fun m => recovery_success (m_error_recovery m))
                (flat_map records turns) =
              count_if (fun m => execution_success (m_code_correctness m))
                (flat_map records turns)).
  { apply count_if_ext. intros m Hm. apply (Hrec m Hm). }
  split; [exact Hlen |]. split; [exact E |].
  split.
  { apply count_if_split. intros m Hm.
    apply (computed_record m (proj1 (Hrec m Hm))). }
  intro Hpos. rewrite (proj2 (Nat.ltb_lt _ _) Hpos). rewrite E. reflexivity.
Qed.

(** ** Cleaning the generated code *)

Lemma starts_with_prefix :
  forall p l : str, PyStr.starts_with p (p ++ l) = true.
Proof.
  intros p l. induction p as [| c p IH]; simpl; [reflexivity |].
  rewrite Ascii.eqb_refl. exact IH.
Qed.

Lemma ends_with_suffix :
  forall p l : str, ends_with p (l ++ p) = true.
Proof.
  intros p l. unfold ends_with. rewrite rev_app_distr. apply starts_with_prefix.
Qed.

Lemma firstn_drop_suffix :
  forall p l : str, firstn (length (l ++ p) - length p) (l ++ p) = l.
Proof.
  intros p l. rewrite length_app.
  replace (length l + length p - length p)%nat with (length l) by lia.
  rewrite firstn_app, Nat.sub_diag, firstn_all. cbn [firstn].
  apply app_nil_r.
Qed.

Lemma lstrip_by_split :
  forall (drop : ascii -> bool) (s : str),
    exists pre : str,
      s = pre ++ PyStr.lstrip_by drop s /\ forallb drop pre = true /\
      match PyStr.lstrip_by drop s with
      | [] => True
      | c :: _ => drop c = false
      end.
Proof.
  intros drop s. induction s as [| c s IH].
  - exists []. repeat split.
  - cbn [PyStr.lstrip_by]. destruct (drop c) eqn:E.
    + destruct IH as (pre & E1 & E2 & E3). exists (c :: pre).
      split; [cbn; rewrite <- E1; reflexivity |].
      split; [cbn; rewrite E, E2; reflexivity | exact E3].
    + exists []. repeat split. exact E.
Qed.

(** What [strip] returns neither starts nor ends with a character that it
    strips. *)
Lemma strip_by_ends :
  forall (drop : ascii -> bool) (s : str),
    match PyStr.strip_by drop s with
    | [] => True
    | c :: _ => drop c = false
    end /\
    match rev (PyStr.strip_by drop s) with
    | [] => True
    | c :: _ => drop c = false
    end.
Proof.
  intros drop s. unfold PyStr.strip_by.
  destruct (lstrip_by_split drop s) as (pre1 & _ & _ & H1).
  set (t := PyStr.lstrip_by drop s) in *.
  destruct (lstrip_by_split drop (rev t)) as (pre2 & E2 & D2 & H2).
  set (u := PyStr.lstrip_by drop (rev t)) in *.
  split; [| rewrite rev_involutive; exact H2].
  assert (Et : t = rev u ++ rev pre2).
  { rewrite <- rev_app_distr, <- E2, rev_involutive. reflexivity. }
  destruct (rev u) as [| c ru] eqn:Eu; [exact I |].
  rewrite Et in H1. cbn in H1. exact H1.
Qed.

(** A prefix that appears only once text is appended borrows the first
    appended character. *)
Lemma starts_with_app_borrow :
  forall (p b t : str),
    PyStr.starts_with p (b ++ t) = true ->
    PyStr.starts_with p b = false ->
    exists (c : ascii) (t' : str), t = c :: t' /\ In c p.
Proof.
  intro p. induction p as [| c p IH]; intros b t H1 H2; [discriminate |].
  destruct b as [| x b].
  - cbn [app] in H1. apply starts_with_cons in H1.
    destruct H1 as (t' & -> & _). exists c, t'. split; [reflexivity | left; reflexivity].
  - cbn [app PyStr.starts_with] in H1, H2.
    apply andb_true_iff in H1. destruct H1 as [Hc H1]. rewrite Hc in H2.
    cbn [andb] in H2. destruct (IH b t H1 H2) as (c' & t' & E & Hin).
    exists c', t'. split; [exact E | right; exact Hin].
Qed.

(** X17. The clean-up of a generated reply removes one pair of code
    fences: a reply ```python BODY ``` (with BODY not itself starting with
    a fence) and a reply ``` BODY ``` (with BODY not starting with the word
    python) both yield BODY stripped of surrounding blanks, and a reply
    without fences at its ends is only stripped. The result never starts
    or ends with a blank. *)
Theorem fences_are_removed :
  forall body : str,
    (PyStr.starts_with "```" body = false ->
     strip_code_fences ("```python" ++ body ++ "```") = PyStr.strip body) /\
    (PyStr.starts_with "python" body = false ->
     strip_code_fences ("```" ++ body ++ "```") = PyStr.strip body) /\
    (PyStr.starts_with "```" body = false -> ends_with "```" body = false ->
     strip_code_fences body = PyStr.strip body) /\
    match strip_code_fences body with
    | [] => True
    | c :: _ => PyStr.is_space c = false
    end /\
    match rev (strip_code_fences body) with
    | [] => True
    | c :: _ => PyStr.is_space c = false
    end.
Proof.
  intro body.
  assert (Hend : forall l : str,
            (if ends_with "```" (l ++ "```")
             then firstn (length (l ++ "```") - 3) (l ++ "```")
             else l ++ "```") = l).
  { intro l. rewrite ends_with_suffix.
    exact (firstn_drop_suffix (list_ascii_of_string "```") l). }
  split; [| split; [| split]].
  - intro H. unfold strip_code_fences.
    change (list_ascii_of_string "```python" ++ body ++ list_ascii_of_string "```")
      with (list_ascii_of_string "```python" ++ (body ++ list_ascii_of_string "```")).
    rewrite starts_with_prefix.
    change (skipn 9 (list_ascii_of_string "```python" ++ (body ++ list_ascii_of_string "```")))
      with (body ++ list_ascii_of_string "```").
    destruct (PyStr.starts_with "```" (body ++ list_ascii_of_string "```")) eqn:E2;
      [| rewrite Hend; reflexivity].
    change (list_ascii_of_string "```") with ["`"%char; "`"%char; "`"%char] in *.
    destruct body as [| x [| y [| z rest]]].
    + reflexivity.
    + cbn [app] in E2. apply starts_with_cons in E2.
      destruct E2 as (s' & E & _). injection E as -> _. reflexivity.
    + cbn [app] in E2. apply starts_with_cons in E2.
      destruct E2 as (s' & E & E2). injection E as -> <-.
      apply starts_with_cons in E2.
      destruct E2 as (s'' & E & _). injection E as -> _. reflexivity.
    + assert (E : PyStr.starts_with ["`"%char; "`"%char; "`"%char]
                    ((x :: y :: z :: rest) ++ ["`"%char; "`"%char; "`"%char])
                  = PyStr.starts_with ["`"%char; "`"%char; "`"%char]
                      (x :: y :: z :: rest)) by reflexivity.
      rewrite E, H in E2. discriminate.
  - intro H. unfold strip_code_fences.
    assert (E1 : PyStr.starts_with "```python"
                   (list_ascii_of_string "```" ++ body ++ list_ascii_of_string "```")
                 = false).
    { change (PyStr.starts_with "```python"
                (list_ascii_of_string "```" ++ body ++ list_ascii_of_string "```"))
        with (PyStr.starts_with "python" (body ++ list_ascii_of_string "```")).
      destruct (PyStr.starts_with "python" (body ++ list_ascii_of_string "```"))
        eqn:E; [| reflexivity].
      destruct (starts_with_app_borrow _ _ _ E H) as (c & t' & Et & Hin).
      injection Et as <- _. cbn in Hin.
      repeat (destruct Hin as [Hin | Hin]; [discriminate Hin |]).
      contradiction. }
    rewrite E1.
    change (list_ascii_of_string "```" ++ body ++ list_ascii_of_string "```")
      with (list_ascii_of_string "```" ++ (body ++ list_ascii_of_string "```")).
    rewrite starts_with_prefix.
    change (skipn 3 (list_ascii_of_string "```" ++ (body ++ list_ascii_of_string "```")))
      with (body ++ list_ascii_of_string "```").
    rewrite Hend. reflexivity.
  - intros H1 H2. unfold strip_code_fences.
    assert (E1 : PyStr.starts_with "```python" body = false).
    { destruct (PyStr.starts_with "```python" body) eqn:E; [| reflexivity].
      change (list_ascii_of_string "```python")
        with (list_ascii_of_string "```" ++ list_ascii_of_string "python") in E.
      apply starts_with_app in E. destruct E as (s2 & -> & _).
      rewrite starts_with_prefix in H1. discriminate. }
    rewrite E1, H1, H2. reflexivity.
  - exact (strip_by_ends PyStr.is_space _).
Qed.

(** ** Turns that cannot generate code *)

Lemma generate_without_provider :
  forall (w : chat_world) (call : nat) (question model : str),
    openai_provider w = None -> openrouter_provider w = None ->
    exists e : str, generate_pandas_code w call question model = inr e.
Proof.
  intros w call question model H1 H2. unfold generate_pandas_code.
  destruct (model_config model) as [[|] model_id]; rewrite ?H1, ?H2;
    eexists; reflexivity.
Qed.

(** X18. A model name that is not in the table of available models is
    served with the configuration of gpt-4 (OpenAI). Without any API key a
    turn on a readable dataset appends exactly one record, that of the
    failure branch: empty code, an error outcome, no recovery attempt,
    recovery score 0 and a correctness score of at most 0.5. *)
Theorem turn_without_provider :
  (forall model : str,
     (forall (name : string) (cfg : provider_type * string),
        In (name, cfg) AVAILABLE_MODELS -> list_ascii_of_string name <> model) ->
     model_config model = (openai, "gpt-4"%string)) /\
  (forall (w : chat_world) (question f model : str),
     f <> [] ->
     openai_provider w = None -> openrouter_provider w = None ->
     exists (e : str) (m : metrics),
       turn_records w question (Some f) model = [m] /\
       m = failure_record w question f model e initial_state /\
       code_length (m_performance m) = 0%nat /\
       has_error (m_error_recovery m) = true /\
       recovery_attempts_count (m_error_recovery m) = 0%nat /\
       recovery_score (m_error_recovery m) = 0.0 /\
       execution_success (m_code_correctness m) = false /\
       correctness_score (m_code_correctness m) <= 0.5).
Proof.
  split.
  - intros model H. unfold model_config.
    assert (E : forall (name : string) (cfg : provider_type * string),
              In (name, cfg) AVAILABLE_MODELS -> PyStr.eqb model name = false).
    { intros name cfg Hin. destruct (PyStr.eqb model name) eqn:E; [| reflexivity].
      apply pystr_eqb_eq in E. exfalso. exact (H name cfg Hin (eq_sym E)). }
    unfold AVAILABLE_MODELS in *. cbn [find fst].
    rewrite (E "gpt-4"%string _ (or_introl eq_refl)).
    rewrite (E "llama-3.3-70b"%string _ (or_intror (or_introl eq_refl))).
    rewrite (E "gemini-2.0"%string _ (or_intror (or_intror (or_introl eq_refl)))).
    rewrite (E "qwen-2.5-72b"%string _
               (or_intror (or_intror (or_intror (or_introl eq_refl))))).
    reflexivity.
  - intros w question f model Hf H1 H2.
    assert (G : exists e, generate_and_execute w question f model
                          = inr (e, initial_state)).
    { unfold generate_and_execute.
      destruct (read_csv_error w f) as [e |]; [exists e; reflexivity |].
      destruct (generate_without_provider w 0 question model H1 H2) as (e & ->).
      exists e. reflexivity. }
    destruct G as (e & G).
    exists e, (failure_record w question f model e initial_state).
    split.
    { unfold turn_records. destruct f as [| c f]; [congruence |].
      cbn [truthy]. rewrite G. reflexivity. }
    split; [reflexivity |].
    destruct (failure_record_initial w question f model e)
      as (He & _ & Hc & Hs & Hx & Hcorr).
    split; [reflexivity |].
    repeat split; assumption.
Qed.
(** ** Splitting a dataset *)

Lemma starts_with_split :
  forall p s : str,
    PyStr.starts_with p s = true -> exists r : str, s = p ++ r.
Proof.
  intro p. induction p as [| a p IH]; intros s H.
  - exists s. reflexivity.
  - destruct s as [| b s]; [discriminate H |].
    cbn [PyStr.starts_with] in H.
    apply andb_true_iff in H. destruct H as [Hab H].
    apply Ascii.eqb_eq in Hab. subst b.
    destruct (IH s H) as [r ->]. exists r. reflexivity.
Qed.

Lemma replace_absent :
  forall old new s : str,
    PyStr.contains old s = false -> replace old new s = s.
Proof.
  intros old new s. unfold replace.
  induction s as [| c s IH]; intro H; [reflexivity |].
  cbn [PyStr.contains] in H. apply orb_false_iff in H. destruct H as [H1 H2].
  cbn [replace_from]. rewrite H1. f_equal. exact (IH H2).
Qed.

Lemma replace_first :
  forall old s : str,
    old <> [] ->
    PyStr.contains old s = true ->
    exists a b : str,
      s = a ++ old ++ b /\
      forall new : str, exists r : str, replace old new s = a ++ new ++ r.
Proof.
  intros old s Hold. unfold replace.
  induction s as [| c s IH]; intro H.
  - destruct old as [| o old]; [contradiction Hold; reflexivity |].
    discriminate H.
  - cbn [PyStr.contains] in H.
    destruct (PyStr.starts_with old (c :: s)) eqn:Hs.
    + destruct (starts_with_split _ _ Hs) as [b Hb].
      exists [], b. split; [exact Hb |].
      intro new. cbn [replace_from]. rewrite Hs.
      eexists. reflexivity.
    + cbn [orb] in H. destruct (IH H) as (a & b & Hab & Hr).
      exists (c :: a), b. split; [rewrite Hab; reflexivity |].
      intro new. destruct (Hr new) as [r Hr'].
      exists r. cbn [replace_from]. rewrite Hs, Hr'. reflexivity.
Qed.

Lemma uint_digits :
  forall d : Decimal.uint,
    forallb PyStr.is_digit (list_ascii_of_string (NilEmpty.string_of_uint d)) = true.
Proof.
  intro d. induction d; cbn [NilEmpty.string_of_uint list_ascii_of_string forallb];
    try reflexivity; rewrite IHd; reflexivity.
Qed.

Lemma digits_prefix_unique :
  forall (d1 d2 r1 r2 : str),
    forallb PyStr.is_digit d1 = true ->
    forallb PyStr.is_digit d2 = true ->
    d1 ++ "."%char :: r1 = d2 ++ "."%char :: r2 ->
    d1 = d2.
Proof.
  intro d1. induction d1 as [| a d1 IH]; intros [| b d2] r1 r2 H1 H2 H.
  - reflexivity.
  - cbn [app] in H. injection H as Hb _. subst b.
    cbn [forallb] in H2. discriminate H2.
  - cbn [app] in H. injection H as Ha _. subst a.
    cbn [forallb] in H1. discriminate H1.
  - cbn [app] in H. injection H as Hab H. subst b.
    cbn [forallb] in H1, H2.
    apply andb_true_iff in H1. apply andb_true_iff in H2.
    f_equal. exact (IH d2 r1 r2 (proj2 H1) (proj2 H2) H).
Qed.

Lemma list_ascii_of_string_inj :
  forall s t : string, list_ascii_of_string s = list_ascii_of_string t -> s = t.
Proof.
  intros s t H.
  rewrite <- (string_of_list_ascii_of_string s), <- (string_of_list_ascii_of_string t).
  rewrite H. reflexivity.
Qed.

Lemma str_of_nat_inj :
  forall i j : nat,
    list_ascii_of_string (str_of_nat i) = list_ascii_of_string (str_of_nat j) ->
    i = j.
Proof.
  intros i j H. apply list_ascii_of_string_inj in H. unfold str_of_nat in H.
  assert (Hu : Some (Nat.to_uint i) = Some (Nat.to_uint j)).
  { rewrite <- (NilEmpty.usu (Nat.to_uint i)), <- (NilEmpty.usu (Nat.to_uint j)).
    rewrite H. reflexivity. }
  injection Hu as Hu. exact (DecimalNat.Unsigned.to_uint_inj i j Hu).
Qed.

Lemma split_filepaths_differ :
  forall (csv_filepath : str) (i j : nat),
    PyStr.contains ".csv" csv_filepath = true ->
    split_filepath csv_filepath i = split_filepath csv_filepath j ->
    i = j.
Proof.
  intros path i j Hc H. unfold split_filepath in H.
  destruct (replace_first ".csv" path) as (a & b & _ & Hr);
    [discriminate | exact Hc |].
  destruct (Hr (list_ascii_of_string "_split_"
                ++ list_ascii_of_string (str_of_nat (i + 1))
                ++ list_ascii_of_string ".csv")) as [r1 H1].
  destruct (Hr (list_ascii_of_string "_split_"
                ++ list_ascii_of_string (str_of_nat (j + 1))
                ++ list_ascii_of_string ".csv")) as [r2 H2].
  rewrite H1, H2 in H. apply app_inv_head in H.
  rewrite <- !app_assoc in H. apply app_inv_head in H.
  assert (Hd : list_ascii_of_string (str_of_nat (i + 1))
               = list_ascii_of_string (str_of_nat (j + 1))).
  { apply (digits_prefix_unique _ _ (list_ascii_of_string "csv" ++ r1)
             (list_ascii_of_string "csv" ++ r2));
      [apply uint_digits | apply uint_digits | exact H]. }
  apply str_of_nat_inj in Hd. lia.
Qed.

Lemma split_filepath_is_new :
  forall (csv_filepath : str) (i : nat),
    PyStr.contains ".csv" csv_filepath = true ->
    split_filepath csv_filepath i <> csv_filepath.
Proof.
  intros path i Hc H. unfold split_filepath in H.
  destruct (replace_first ".csv" path) as (a & b & Hab & Hr);
    [discriminate | exact Hc |].
  destruct (Hr (list_ascii_of_string "_split_"
                ++ list_ascii_of_string (str_of_nat (i + 1))
                ++ list_ascii_of_string ".csv")) as [r1 H1].
  rewrite H1 in H. rewrite Hab in H. apply app_inv_head in H.
  discriminate H.
Qed.

Lemma split_filepath_without_suffix :
  forall (csv_filepath : str) (i : nat),
    PyStr.contains ".csv" csv_filepath = false ->
    split_filepath csv_filepath i = csv_filepath.
Proof.
  intros path i Hc. unfold split_filepath. apply replace_absent. exact Hc.
Qed.

Lemma write_splits_ok :
  forall (row : Type) (cw : str -> bool) (path : str) (df : list row) (n : Z)
         (indices : list nat) (splits : list str) (fs : files row),
    (forall i : nat, In i indices -> cw (split_filepath path i) = true) ->
    write_splits cw path df n indices splits fs =
    (Some (splits ++ map (split_filepath path) indices),
     fold_left (fun (fs' : files row) (i : nat) =>
                  write fs' (split_filepath path i) (split_rows df n i))
               indices fs).
Proof.
  intros row cw path df n indices.
  induction indices as [| i indices IH]; intros splits fs H;
    cbn [write_splits map fold_left].
  - rewrite app_nil_r. reflexivity.
  - rewrite (H i) by (left; reflexivity).
    rewrite IH by (intros j Hj; apply H; right; exact Hj).
    rewrite <- app_assoc. reflexivity.
Qed.

Lemma write_splits_fails :
  forall (row : Type) (cw : str -> bool) (path : str) (df : list row) (n : Z)
         (indices : list nat) (splits : list str) (fs : files row) (i : nat),
    In i indices ->
    cw (split_filepath path i) = false ->
    fst (write_splits cw path df n indices splits fs) = None.
Proof.
  intros row cw path df n indices.
  induction indices as [| j indices IH]; intros splits fs i Hi Hw;
    [destruct Hi |].
  cbn [write_splits].
  destruct (cw (split_filepath path j)) eqn:Hj; [| reflexivity].
  destruct Hi as [-> | Hi]; [congruence |].
  exact (IH _ _ i Hi Hw).
Qed.

Lemma written_at :
  forall (row : Type) (path : str) (df : list row) (n : Z) (fs : files row)
         (k i : nat),
    (i < k)%nat ->
    (forall j : nat, (i < j < k)%nat ->
                     split_filepath path j <> split_filepath path i) ->
    fold_left (fun (fs' : files row) (i : nat) =>
                 write fs' (split_filepath path i) (split_rows df n i))
              (seq 0 k) fs (split_filepath path i)
    = Some (split_rows df n i).
Proof.
  intros row path df n fs k.
  induction k as [| k IH]; intros i Hi Hd; [lia |].
  rewrite seq_S, fold_left_app. cbn [fold_left Nat.add]. unfold write at 1.
  destruct (PyStr.eqb (split_filepath path i) (split_filepath path k)) eqn:He.
  - apply pystr_eqb_eq in He.
    destruct (Nat.eq_dec i k) as [-> | Hne]; [reflexivity |].
    exfalso. apply (Hd k); [lia | symmetry; exact He].
  - destruct (Nat.eq_dec i k) as [-> | Hne].
    + rewrite (proj2 (pystr_eqb_eq _ _) eq_refl) in He. discriminate He.
    + apply IH; [lia |]. intros j Hj. apply Hd. lia.
Qed.

Lemma written_elsewhere :
  forall (row : Type) (path : str) (df : list row) (n : Z) (fs : files row)
         (k : nat) (p : str),
    (forall j : nat, (j < k)%nat -> split_filepath path j <> p) ->
    fold_left (fun (fs' : files row) (i : nat) =>
                 write fs' (split_filepath path i) (split_rows df n i))
              (seq 0 k) fs p
    = fs p.
Proof.
  intros row path df n fs k p.
  induction k as [| k IH]; intro Hd; [reflexivity |].
  rewrite seq_S, fold_left_app. cbn [fold_left Nat.add]. unfold write at 1.
  destruct (PyStr.eqb p (split_filepath path k)) eqn:He.
  - apply pystr_eqb_eq in He. exfalso. apply (Hd k); [lia | symmetry; exact He].
  - apply IH. intros j Hj. apply Hd. lia.
Qed.

Lemma firstn_plus :
  forall (A : Type) (a b : nat) (l : list A),
    firstn (a + b) l = firstn a l ++ firstn b (skipn a l).
Proof.
  intros A a b. induction a as [| a IH]; intro l; [reflexivity |].
  destruct l as [| x l]; cbn [Nat.add firstn skipn app].
  - rewrite firstn_nil. reflexivity.
  - rewrite IH. reflexivity.
Qed.

Lemma concat_even_parts :
  forall (A : Type) (size : nat) (l : list A) (k : nat),
    concat (map (fun i : nat => firstn size (skipn (i * size) l)) (seq 0 k))
    = firstn (k * size) l.
Proof.
  intros A size l k. induction k as [| k IH]; [reflexivity |].
  rewrite seq_S, map_app, concat_app, IH. cbn [map concat Nat.add].
  rewrite app_nil_r, <- firstn_plus. f_equal. lia.
Qed.

Lemma split_rows_inner :
  forall (row : Type) (df : list row) (n : Z) (i : nat),
    (0 < n <= Z.of_nat (length df))%Z ->
    (i + 1 < Z.to_nat n)%nat ->
    split_rows df n i
    = firstn (Z.to_nat (Z.of_nat (length df) / n))
             (skipn (i * Z.to_nat (Z.of_nat (length df) / n)) df).
Proof.
  intros row df n i Hn Hi. unfold split_rows, iloc, split_end.
  assert (Hs : (0 <= Z.of_nat (length df) / n)%Z)
    by (apply Z.div_pos; lia).
  destruct (Z.eqb_spec (Z.of_nat i) (n - 1)) as [He | _]; [lia |].
  set (s := (Z.of_nat (length df) / n)%Z) in *.
  replace (Z.to_nat (Z.of_nat i * s)) with (i * Z.to_nat s)%nat by nia.
  replace (Z.to_nat ((Z.of_nat i + 1) * s) - i * Z.to_nat s)%nat
    with (Z.to_nat s) by nia.
  reflexivity.
Qed.

Lemma split_rows_last :
  forall (row : Type) (df : list row) (n : Z),
    (0 < n <= Z.of_nat (length df))%Z ->
    split_rows df n (Z.to_nat n - 1)
    = skipn ((Z.to_nat n - 1) * Z.to_nat (Z.of_nat (length df) / n)) df.
Proof.
  intros row df n Hn. unfold split_rows, iloc, split_end.
  assert (Hs : (0 <= Z.of_nat (length df) / n)%Z)
    by (apply Z.div_pos; lia).
  destruct (Z.eqb_spec (Z.of_nat (Z.to_nat n - 1)) (n - 1)) as [_ | Hne]; [| lia].
  set (s := (Z.of_nat (length df) / n)%Z) in *.
  replace (Z.to_nat (Z.of_nat (Z.to_nat n - 1) * s))
    with ((Z.to_nat n - 1) * Z.to_nat s)%nat by nia.
  apply firstn_all2. rewrite length_skipn. lia.
Qed.

Lemma split_size_bounds :
  forall (total n : Z),
    (0 < n <= total)%Z ->
    (1 <= total / n)%Z /\ (n * (total / n) <= total)%Z.
Proof.
  intros total n H. split.
  - apply Z.div_le_lower_bound; lia.
  - apply Z.mul_div_le. lia.
Qed.

Lemma split_rows_concat :
  forall (row : Type) (df : list row) (n : Z),
    (0 < n <= Z.of_nat (length df))%Z ->
    concat (map (split_rows df n) (seq 0 (Z.to_nat n))) = df.
Proof.
  intros row df n Hn.
  replace (Z.to_nat n) with (S (Z.to_nat n - 1)) at 1 by lia.
  rewrite seq_S, map_app, concat_app. cbn [map concat Nat.add].
  rewrite app_nil_r, split_rows_last by exact Hn.
  rewrite (map_ext_in _
             (fun i : nat =>
                firstn (Z.to_nat (Z.of_nat (length df) / n))
                  (skipn (i * Z.to_nat (Z.of_nat (length df) / n)) df))).
  - rewrite concat_even_parts. apply firstn_skipn.
  - intros i Hi. apply in_seq in Hi. apply split_rows_inner; [exact Hn | lia].
Qed.

Lemma split_rows_lengths :
  forall (row : Type) (df : list row) (n : Z) (i : nat),
    (0 < n <= Z.of_nat (length df))%Z ->
    (i < Z.to_nat n)%nat ->
    Z.of_nat (length (split_rows df n i))
    = (if (Z.of_nat i =? n - 1)%Z
       then Z.of_nat (length df) - (n - 1) * (Z.of_nat (length df) / n)
       else Z.of_nat (length df) / n)%Z.
Proof.
  intros row df n i Hn Hi.
  destruct (split_size_bounds (Z.of_nat (length df)) n Hn) as [H1 H2].
  destruct (Z.eqb_spec (Z.of_nat i) (n - 1)) as [He | Hne].
  - replace i with (Z.to_nat n - 1)%nat by lia.
    rewrite split_rows_last by exact Hn. rewrite length_skipn. nia.
  - rewrite split_rows_inner by (try exact Hn; lia).
    rewrite length_firstn, length_skipn. nia.
Qed.

Lemma NoDup_map_injective :
  forall (A B : Type) (f : A -> B) (l : list A),
    (forall x y : A, f x = f y -> x = y) ->
    NoDup l -> NoDup (map f l).
Proof.
  intros A B f l Hf Hl. induction Hl as [| x l Hx Hl IH]; cbn [map].
  - constructor.
  - constructor; [| exact IH].
    intro Hin. apply in_map_iff in Hin. destruct Hin as (y & Hy & Hin).
    apply Hf in Hy. subst y. exact (Hx Hin).
Qed.

(** X19. When the dataset can be read, has at least [num_splits] rows for
    a positive [num_splits], its path contains [.csv] and every split can
    be written, [split_dataset] returns [num_splits] paths that are
    pairwise distinct and differ from the dataset's; afterwards the file
    of split [i] holds the rows of split [i], every other file is as
    before (the dataset itself included), and the splits, one after the
    other, are the dataset's rows: no row is lost, repeated or moved. All
    splits but the last have [total_rows // num_splits] rows, at least
    one, and the last has the rest. *)
Theorem split_dataset_partitions_the_rows :
  forall (row : Type) (fw : file_world row) (csv_filepath : str)
         (num_splits : Z) (df : list row),
    read_csv fw csv_filepath = Some df ->
    (0 < num_splits <= Z.of_nat (length df))%Z ->
    PyStr.contains ".csv" csv_filepath = true ->
    (forall i : nat, (i < Z.to_nat num_splits)%nat ->
                     can_write fw (split_filepath csv_filepath i) = true) ->
    let splits := fst (split_dataset fw csv_filepath num_splits) in
    let fs := snd (split_dataset fw csv_filepath num_splits) in
    splits = map (split_filepath csv_filepath) (seq 0 (Z.to_nat num_splits)) /\
    NoDup splits /\
    ~ In csv_filepath splits /\
    (forall i : nat, (i < Z.to_nat num_splits)%nat ->
       fs (split_filepath csv_filepath i) = Some (split_rows df num_splits i)) /\
    (forall p : str, ~ In p splits -> fs p = read_csv fw p) /\
    fs csv_filepath = Some df /\
    concat (map (split_rows df num_splits) (seq 0 (Z.to_nat num_splits))) = df /\
    (forall i : nat, (i < Z.to_nat num_splits)%nat ->
       Z.of_nat (length (split_rows df num_splits i))
       = (if (Z.of_nat i =? num_splits - 1)%Z
          then Z.of_nat (length df)
               - (num_splits - 1) * (Z.of_nat (length df) / num_splits)
          else Z.of_nat (length df) / num_splits)%Z) /\
    (1 <= Z.of_nat (length df) / num_splits)%Z.
Proof.
  intros row fw path n df Hread Hn Hc Hw splits fs.
  assert (Hrun : split_dataset fw path n
                 = (map (split_filepath path) (seq 0 (Z.to_nat n)),
                    fold_left (fun (fs' : files row) (i : nat) =>
                                 write fs' (split_filepath path i)
                                       (split_rows df n i))
                              (seq 0 (Z.to_nat n)) (read_csv fw))).
  { unfold split_dataset. rewrite Hread.
    destruct (Z.ltb_spec (Z.of_nat (length df)) n) as [Hlt | _]; [lia |].
    destruct (Z.eqb_spec n 0) as [H0 | _]; [lia |].
    rewrite write_splits_ok
      by (intros i Hi; apply in_seq in Hi; apply Hw; lia).
    reflexivity. }
  assert (Hsplits : splits = map (split_filepath path) (seq 0 (Z.to_nat n)))
    by (unfold splits; rewrite Hrun; reflexivity).
  assert (Hfs : fs = fold_left (fun (fs' : files row) (i : nat) =>
                                  write fs' (split_filepath path i)
                                        (split_rows df n i))
                               (seq 0 (Z.to_nat n)) (read_csv fw))
    by (unfold fs; rewrite Hrun; reflexivity).
  assert (Hnew : ~ In path splits).
  { rewrite Hsplits. intro Hin. apply in_map_iff in Hin.
    destruct Hin as (i & Hi & _).
    exact (split_filepath_is_new path i Hc Hi). }
  assert (Hother : forall p : str, ~ In p splits -> fs p = read_csv fw p).
  { intros p Hp. rewrite Hfs. apply written_elsewhere.
    intros j Hj Heq. apply Hp. rewrite Hsplits, <- Heq.
    apply in_map. apply in_seq. lia. }
  split; [exact Hsplits |].
  split.
  { rewrite Hsplits. apply NoDup_map_injective; [| apply seq_NoDup].
    intros i j Hij. exact (split_filepaths_differ path i j Hc Hij). }
  split; [exact Hnew |].
  split.
  { intros i Hi. rewrite Hfs. apply written_at; [exact Hi |].
    intros j Hj Heq. apply (split_filepaths_differ path j i Hc) in Heq. lia. }
  split; [exact Hother |].
  split; [rewrite (Hother path Hnew); exact Hread |].
  split; [exact (split_rows_concat row df n Hn) |].
  split; [intros i Hi; exact (split_rows_lengths row df n i Hn Hi) |].
  exact (proj1 (split_size_bounds _ _ Hn)).
Qed.

(** X20. The ways [split_dataset] gives up: when the dataset cannot be
    read, when it has fewer rows than [num_splits], and when [num_splits]
    is 0 (the division raises) it returns the dataset's own path alone and
    writes nothing; when some split cannot be written it returns the
    dataset's own path alone, whatever was written before; and for a
    negative [num_splits] it returns no path at all, not even the
    dataset's, and writes nothing. *)
Theorem split_dataset_gives_up :
  forall (row : Type) (fw : file_world row) (csv_filepath : str)
         (num_splits : Z),
    (read_csv fw csv_filepath = None \/
     (exists df : list row,
        read_csv fw csv_filepath = Some df /\
        (Z.of_nat (length df) < num_splits)%Z) \/
     num_splits = 0%Z ->
     split_dataset fw csv_filepath num_splits = ([csv_filepath], read_csv fw)) /\
    (forall i : nat,
       (i < Z.to_nat num_splits)%nat ->
       can_write fw (split_filepath csv_filepath i) = false ->
       fst (split_dataset fw csv_filepath num_splits) = [csv_filepath]) /\
    (forall df : list row,
       read_csv fw csv_filepath = Some df ->
       (num_splits < 0)%Z ->
       split_dataset fw csv_filepath num_splits = ([], read_csv fw)).
Proof.
  intros row fw path n. split; [| split].
  - intros [Hnone | [(df & Hread & Hlt) | H0]]; unfold split_dataset.
    + rewrite Hnone. reflexivity.
    + rewrite Hread.
      destruct (Z.ltb_spec (Z.of_nat (length df)) n) as [_ | Hge]; [| lia].
      reflexivity.
    + subst n. destruct (read_csv fw path) as [df |]; [| reflexivity].
      destruct (Z.of_nat (length df) <? 0)%Z; reflexivity.
  - intros i Hi Hw. unfold split_dataset.
    destruct (read_csv fw path) as [df |]; [| reflexivity].
    destruct (Z.of_nat (length df) <? n)%Z; [reflexivity |].
    destruct (n =? 0)%Z; [reflexivity |].
    pose proof (write_splits_fails row (can_write fw) path df n
                  (seq 0 (Z.to_nat n)) [] (read_csv fw) i) as Hf.
    destruct (write_splits (can_write fw) path df n (seq 0 (Z.to_nat n)) []
                (read_csv fw)) as [[splits |] fs]; [| reflexivity].
    cbn [fst] in Hf. discriminate Hf; [apply in_seq; lia | exact Hw].
  - intros df Hread Hneg. unfold split_dataset. rewrite Hread.
    destruct (Z.ltb_spec (Z.of_nat (length df)) n) as [Hlt | _]; [lia |].
    destruct (Z.eqb_spec n 0) as [H0 | _]; [lia |].
    replace (Z.to_nat n) with 0%nat by lia. reflexivity.
Qed.

(** X21. A dataset whose path does not contain [.csv] is overwritten by
    its own splits: every split is written to the dataset's path, the
    list returned repeats that path [num_splits] times, and afterwards
    the dataset holds the rows of the last split only, fewer than before
    as soon as [num_splits] is above 1. *)
Theorem split_dataset_overwrites_without_csv :
  forall (row : Type) (fw : file_world row) (csv_filepath : str)
         (num_splits : Z) (df : list row),
    read_csv fw csv_filepath = Some df ->
    (0 < num_splits <= Z.of_nat (length df))%Z ->
    PyStr.contains ".csv" csv_filepath = false ->
    can_write fw csv_filepath = true ->
    fst (split_dataset fw csv_filepath num_splits)
    = repeat csv_filepath (Z.to_nat num_splits) /\
    snd (split_dataset fw csv_filepath num_splits) csv_filepath
    = Some (split_rows df num_splits (Z.to_nat num_splits - 1)) /\
    ((1 < num_splits)%Z ->
     (length (split_rows df num_splits (Z.to_nat num_splits - 1))
      < length df)%nat).
Proof.
  intros row fw path n df Hread Hn Hc Hw.
  assert (Hp : forall i : nat, split_filepath path i = path)
    by (intro i; exact (split_filepath_without_suffix path i Hc)).
  assert (Hrun : split_dataset fw path n
                 = (map (split_filepath path) (seq 0 (Z.to_nat n)),
                    fold_left (fun (fs' : files row) (i : nat) =>
                                 write fs' (split_filepath path i)
                                       (split_rows df n i))
                              (seq 0 (Z.to_nat n)) (read_csv fw))).
  { unfold split_dataset. rewrite Hread.
    destruct (Z.ltb_spec (Z.of_nat (length df)) n) as [Hlt | _]; [lia |].
    destruct (Z.eqb_spec n 0) as [H0 | _]; [lia |].
    rewrite write_splits_ok by (intros i _; rewrite Hp; exact Hw).
    reflexivity. }
  rewrite Hrun. cbn [fst snd]. split; [| split].
  - rewrite (map_ext _ (fun _ : nat => path)) by exact Hp.
    rewrite map_const, length_seq. reflexivity.
  - pose proof (written_at row path df n (read_csv fw) (Z.to_nat n)
                  (Z.to_nat n - 1)) as Hlast.
    rewrite (Hp (Z.to_nat n - 1)%nat) in Hlast.
    apply Hlast; [lia |]. intros j Hj. lia.
  - intro H1.
    pose proof (split_rows_lengths row df n (Z.to_nat n - 1) Hn) as Hl.
    destruct (split_size_bounds (Z.of_nat (length df)) n Hn) as [Hs _].
    destruct (Z.eqb_spec (Z.of_nat (Z.to_nat n - 1)) (n - 1)) as [_ | Hne];
      [| lia].
    specialize (Hl ltac:(lia)). nia.
Qed.

(** ** The properties with a premise, at sample inputs *)

Lemma dangerous_text_is_flagged_witness :
  is_safe (check_code_safety unsafe_code) = false.
Proof.
  apply (dangerous_text_is_flagged sample_env plain_question unsafe_code
           ok_result None "gpt-4" None None "eval(" "system" "eval\(").
  - cbn [dangerous_texts In]. do 10 right. left. reflexivity.
  - vm_compute. reflexivity.
Defined.

Lemma result_assignment_costs_space_witness :
  s_notation
    (p_space_complexity
       (m_performance
          (calculate_evaluation_metrics sample_env plain_question plain_code
             ok_result None "gpt-4" None None))) <> O_1.
Proof.
  apply (result_assignment_costs_space sample_env plain_question plain_code
           ok_result None "gpt-4" None None " ").
  - vm_compute. reflexivity.
  - vm_compute. reflexivity.
Defined.

Lemma summary_of_computed_log_witness :
  (successful_executions (summarize sample_log)
   + errors_encountered (summarize sample_log) = length sample_log)%nat.
Proof.
  apply (summary_of_computed_log sample_log).
  intros m Hm. unfold sample_log in Hm. cbn [In] in Hm.
  destruct Hm as [<- | [<- | [<- | []]]]; do 8 eexists; reflexivity.
Defined.

Lemma recovery_attempts_of_a_turn_witness :
  exists st : turn_state,
    generate_and_execute learning_world plain_question "data.csv" "gpt-4" = inl st /\
    (length (ts_recovery_attempts st) <= 2)%nat.
Proof.
  eexists. split; [vm_compute; reflexivity |].
  apply (recovery_attempts_of_a_turn learning_world plain_question "data.csv" "gpt-4").
  vm_compute. reflexivity.
Defined.

Lemma recovery_analysis_of_a_turn_witness :
  exists st : turn_state,
    generate_and_execute stubborn_world plain_question "data.csv" "gpt-4" = inl st /\
    (recovery_attempts_count
       (m_error_recovery
          (main_record stubborn_world plain_question "data.csv" "gpt-4" st)) <= 2)%nat.
Proof.
  eexists. split; [vm_compute; reflexivity |].
  apply (recovery_analysis_of_a_turn stubborn_world plain_question "data.csv" "gpt-4").
  vm_compute. reflexivity.
Defined.

Lemma session_recovery_rate_is_success_ratio_witness :
  successful_recoveries (summarize (session_log sample_turns))
  = successful_executions (summarize (session_log sample_turns)).
Proof.
  apply (session_recovery_rate_is_success_ratio sample_turns).
  intros t Ht. unfold sample_turns in Ht. cbn [In] in Ht.
  destruct Ht as [<- | [<- | []]]; reflexivity.
Defined.

Lemma turn_without_provider_witness :
  exists (e : str) (m : metrics),
    turn_records keyless_world plain_question (Some (py "data.csv")) "gpt-4" = [m] /\
    m = failure_record keyless_world plain_question "data.csv" "gpt-4" e initial_state.
Proof.
  destruct (proj2 turn_without_provider keyless_world plain_question
              "data.csv" "gpt-4") as (e & m & H1 & H2 & _).
  - discriminate.
  - reflexivity.
  - reflexivity.
  - exists e, m. split; assumption.
Defined.

Lemma split_dataset_partitions_the_rows_witness :
  fst (split_dataset sample_files "data.csv" 3)
  = map (split_filepath "data.csv") (seq 0 3).
Proof.
  apply (split_dataset_partitions_the_rows nat sample_files "data.csv" 3
           [1; 2; 3; 4; 5; 6; 7]%nat).
  - reflexivity.
  - cbn [length]. lia.
  - vm_compute. reflexivity.
  - intros i _. reflexivity.
Defined.

Lemma split_dataset_gives_up_witness :
  split_dataset sample_files "data.csv" (-1) = ([], read_csv sample_files).
Proof.
  apply (proj2 (proj2 (split_dataset_gives_up nat sample_files "data.csv" (-1)))
           [1; 2; 3; 4; 5; 6; 7]%nat).
  - reflexivity.
  - lia.
Defined.

Lemma split_dataset_overwrites_without_csv_witness :
  snd (split_dataset sample_files "data" 3) "data"
  = Some (split_rows [1; 2; 3; 4; 5; 6; 7]%nat 3 2).
Proof.
  apply (split_dataset_overwrites_without_csv nat sample_files "data" 3
           [1; 2; 3; 4; 5; 6; 7]%nat).
  - reflexivity.
  - cbn [length]. lia.
  - vm_compute. reflexivity.
  - reflexivity.
Defined.
